(** * Road-test recorder: the classifier, the record store and the
      reconnect policy of [src/app.js], embedded and verified.

    The development follows the class [RoadTestRecorder]:
    - [JsString]  : JavaScript strings as sequences of UTF-16 code units,
                    with the string and regular-expression operations the
                    classifier uses;
    - [Pcm]       : the Float32 -> Int16 sample conversion of the audio path;
    - [Classifier]: [directTypeMatching], [smartRecognitionMultiple],
                    [keywordRecognitionMultiple], [handleUserQuestions];
    - [Recorder]  : the controller object, its store and its methods
                    ([addRecord], [deleteLastRecord], [processVoiceInput],
                    [startTest], [pauseTest], [stopTest], the WebSocket
                    close handler and [handleWebSocketReconnect]);
    - [Page]      : concrete clocks and transcripts.
    The second half states and proves the properties, claim by claim. *)

From Stdlib Require Import ZArith NArith QArith Qround List String Ascii Bool Lia.
From Stdlib Require Import Sorting.Sorted.
From Stdlib Require Import DecimalString.
Import ListNotations.

Set Implicit Arguments.

(* ================================================================== *)
(** ** JavaScript strings *)
(* ================================================================== *)

Module JsString.

(** A JavaScript string is a sequence of 16-bit code units; [length],
    [includes], [===] and the regular expressions of the source (none has
    the [u] flag) all work on code units. *)
Definition codeunit := N.
Definition jsstring := list codeunit.

(** *** Literals

    The source file is UTF-8.  A literal of the source is written here as a
    Rocq string holding the same bytes and decoded to code units. *)

Fixpoint bytes (s : string) : list N :=
  match s with
  | EmptyString => []
  | String a r => N_of_ascii a :: bytes r
  end.

(** UTF-8 to code points (well-formed input; a truncated tail is dropped). *)
Fixpoint utf8_decode (bs : list N) : list N :=
  match bs with
  | [] => []
  | b0 :: r0 =>
      if (b0 <? 0x80)%N then b0 :: utf8_decode r0
      else if (b0 <? 0xE0)%N then
        match r0 with
        | b1 :: r1 => ((b0 - 0xC0) * 0x40 + (b1 - 0x80))%N :: utf8_decode r1
        | _ => []
        end
      else if (b0 <? 0xF0)%N then
        match r0 with
        | b1 :: b2 :: r2 =>
            ((b0 - 0xE0) * 0x1000 + (b1 - 0x80) * 0x40 + (b2 - 0x80))%N
              :: utf8_decode r2
        | _ => []
        end
      else
        match r0 with
        | b1 :: b2 :: b3 :: r3 =>
            ((b0 - 0xF0) * 0x40000 + (b1 - 0x80) * 0x1000
             + (b2 - 0x80) * 0x40 + (b3 - 0x80))%N :: utf8_decode r3
        | _ => []
        end
  end.

(** Code point to UTF-16: one unit in the BMP, a surrogate pair above. *)
Definition utf16_units (cp : N) : list codeunit :=
  if (cp <? 0x10000)%N then [cp]
  else let v := (cp - 0x10000)%N in
       [(0xD800 + v / 0x400)%N; (0xDC00 + v mod 0x400)%N].

Definition js (s : string) : jsstring :=
  flat_map utf16_units (utf8_decode (bytes s)).

(** *** Comparison and search *)

(** [a === b] on strings. *)
Fixpoint strictEq (a b : jsstring) : bool :=
  match a, b with
  | [], [] => true
  | x :: a', y :: b' => (x =? y)%N && strictEq a' b'
  | _, _ => false
  end.

(** [s.startsWith(p)]. *)
Fixpoint startsWith (p s : jsstring) : bool :=
  match p, s with
  | [], _ => true
  | x :: p', y :: s' => (x =? y)%N && startsWith p' s'
  | _ :: _, [] => false
  end.

(** [s.includes(p)]. *)
Fixpoint includes (s p : jsstring) : bool :=
  if startsWith p s then true
  else match s with
       | [] => false
       | _ :: s' => includes s' p
       end.

(** The remainder of [s] after the prefix [p], when [s] starts with [p]. *)
Fixpoint stripPrefix (p s : jsstring) : option jsstring :=
  match p, s with
  | [], _ => Some s
  | x :: p', y :: s' => if (x =? y)%N then stripPrefix p' s' else None
  | _ :: _, [] => None
  end.

Definition memUnit (c : codeunit) (cs : list codeunit) : bool :=
  existsb (N.eqb c) cs.

(** *** Character classes *)

(** The class [\s] of a JavaScript regular expression, which is also the
    set [String.prototype.trim] strips: WhiteSpace and LineTerminator. *)
Definition isWhiteSpace (c : codeunit) : bool :=
  memUnit c [0x09; 0x0A; 0x0B; 0x0C; 0x0D; 0x20; 0xA0; 0x1680;
             0x2028; 0x2029; 0x202F; 0x205F; 0x3000; 0xFEFF]%N
  || ((0x2000 <=? c) && (c <=? 0x200A))%N.

(** [s.trim()]. *)
Fixpoint trimStart (s : jsstring) : jsstring :=
  match s with
  | c :: s' => if isWhiteSpace c then trimStart s' else s
  | [] => []
  end.

Definition trimEnd (s : jsstring) : jsstring := rev (trimStart (rev s)).

Definition trim (s : jsstring) : jsstring := trimEnd (trimStart s).

(** [s.toLowerCase()], on the cased letters of ASCII, of Latin-1 and of the
    full-width forms; every other code unit (in particular every ideograph
    and every punctuation mark) is its own lower case.  The remaining cased
    scripts of Unicode are not modelled. *)
Definition lowerUnit (c : codeunit) : codeunit :=
  if ((0x41 <=? c) && (c <=? 0x5A))%N then (c + 0x20)%N
  else if ((0xC0 <=? c) && (c <=? 0xDE) && negb (c =? 0xD7))%N then (c + 0x20)%N
  else if ((0xFF21 <=? c) && (c <=? 0xFF3A))%N then (c + 0x20)%N
  else c.

Definition toLowerCase (s : jsstring) : jsstring := map lowerUnit s.

(** [s.replace(/[cls]/g, '')] for a character class [cls]. *)
Definition removeClass (cls : codeunit -> bool) (s : jsstring) : jsstring :=
  filter (fun c => negb (cls c)) s.

(** *** Regular expressions of the shape [/(a1|a2|...|an)/]

    [text.match(re)] without the [g] flag returns the leftmost match; at a
    position the alternatives are tried in the order written.  The result
    is [match[0]], or [null]. *)
Definition firstAlternative (alts : list jsstring) (s : jsstring)
  : option jsstring :=
  find (fun a => startsWith a s) alts.

Fixpoint matchAlternation (alts : list jsstring) (s : jsstring)
  : option jsstring :=
  match firstAlternative alts s with
  | Some a => Some a
  | None => match s with
            | [] => None
            | _ :: s' => matchAlternation alts s'
            end
  end.

End JsString.

Import JsString.

(* ================================================================== *)
(** ** Audio path: Float32 samples to 16-bit PCM *)
(* ================================================================== *)

Module Pcm.

Local Open Scope Z_scope.

(** A Float32 sample.  Every finite Float32 is a rational; in the range the
    conversion works on, its products with [0x8000] and [0x7FFF] need at
    most 39 significant bits and are therefore computed exactly by the
    double-precision arithmetic of JavaScript.  The finite case is carried
    by [Q]; the three special values are kept apart. *)
Inductive float : Type :=
| NaN
| Infinity (negative : bool)
| Finite (q : Q).

Definition Qltb (a b : Q) : bool := negb (Qle_bool b a).

(** [Math.min(1, x)] and [Math.max(-1, x)]. *)
Definition Math_min1 (x : float) : float :=
  match x with
  | NaN => NaN
  | Infinity true => Infinity true
  | Infinity false => Finite 1
  | Finite q => if Qltb q 1 then Finite q else Finite 1
  end.

Definition Math_max_1 (x : float) : float :=
  match x with
  | NaN => NaN
  | Infinity true => Finite (-1)
  | Infinity false => Infinity false
  | Finite q => if Qltb (-1) q then Finite q else Finite (-1)
  end.

(** [x < 0] (false on NaN). *)
Definition ltZero (x : float) : bool :=
  match x with
  | NaN => false
  | Infinity negative => negative
  | Finite q => Qltb q 0
  end.

(** [x * k] for a positive integer constant [k]. *)
Definition scale (x : float) (k : Z) : float :=
  match x with
  | Finite q => Finite (q * inject_Z k)
  | other => other
  end.

(** Rounding toward zero: the floor of a non-negative number, the ceiling
    of a negative one. *)
Definition truncate (q : Q) : Z :=
  if Qltb q 0 then Qceiling q else Qfloor q.

(** The conversion applied when a number is stored in an [Int16Array]
    (ToInt16): NaN and the infinities give 0; a finite number is truncated
    toward zero and reduced modulo 2^16 into [-2^15, 2^15). *)
Definition wrap16 (z : Z) : Z :=
  let m := z mod 65536 in
  if 32768 <=? m then m - 65536 else m.

Definition toInt16 (x : float) : Z :=
  match x with
  | Finite q => wrap16 (truncate q)
  | _ => 0
  end.

(** The body of the conversion loop, the same in [sendPCMDataDirectly] and
    in the [onaudioprocess] handler of [startAudioRecording]:
<<
    const s = Math.max(-1, Math.min(1, inputData[i]));
    pcm16[i] = s < 0 ? s * 0x8000 : s * 0x7FFF;
>> *)
Definition clampSample (x : float) : float := Math_max_1 (Math_min1 x).

Definition pcm16Sample (x : float) : Z :=
  let s := clampSample x in
  toInt16 (if ltZero s then scale s 0x8000 else scale s 0x7FFF).

(** The loop over the block. *)
Definition pcm16Block (inputData : list float) : list Z :=
  map pcm16Sample inputData.

(** The conversion the specification's testable property describes:
    [round(s * 32768)] clamped to [-32768, 32767], with [Math.round]
    (nearest integer, halves upward). *)
Definition Math_round (q : Q) : Z := Qfloor (q + (1 # 2)).

Definition clamp16 (z : Z) : Z := Z.max (-32768) (Z.min 32767 z).

Definition specRoundedPcm16 (s : Q) : Z := clamp16 (Math_round (s * inject_Z 32768)).

End Pcm.

(* ================================================================== *)
(** ** Transcript classifier *)
(* ================================================================== *)

Module Result.
(** An entry returned by a matching strategy: [{ type, subType }] for
    [directTypeMatching], [{ type, subType, matchedText }] for the two
    "multiple" strategies. *)
Record t : Type := mk {
  type : jsstring;
  subType : jsstring;
  matchedText : option jsstring
}.
End Result.

Module Classifier.

Local Open Scope string_scope.
Local Open Scope list_scope.
Local Open Scope N_scope.

(** The three category labels. *)
Definition SAFETY : jsstring := js "安全接管".
Definition EFFICIENCY : jsstring := js "效率接管".
Definition EXPERIENCE : jsstring := js "体验问题".

(** *** directTypeMatching *)

(** The class of the first [replace]: [\s] together with U+00A0, U+1680,
    U+2000 to U+200A, U+2028, U+2029, U+202F, U+205F and U+3000. *)
Definition isSpaceVariant (c : codeunit) : bool :=
  isWhiteSpace c
  || memUnit c [0xA0; 0x1680; 0x2028; 0x2029; 0x202F; 0x205F; 0x3000]
  || ((0x2000 <=? c) && (c <=? 0x200A)).

(** The punctuation class of the second [replace]: full-width and ASCII
    comma, full stop, exclamation and question marks, semicolon and colon,
    the ASCII double quote (0x22) and apostrophe, corner and lenticular
    brackets, full-width and ASCII parentheses. *)
Definition isPunctuation (c : codeunit) : bool :=
  memUnit c (js "，,。.！!？?；;：:'「」【】（）()" ++ [0x22]).

Definition cleanText (text : jsstring) : jsstring :=
  trim (toLowerCase (removeClass isPunctuation (removeClass isSpaceVariant text))).

Record DirectMatch : Type := {
  patterns : list jsstring;
  dm_type : jsstring;
  dm_subType : jsstring
}.

Definition directMatches : list DirectMatch :=
  [ {| patterns := map js ["安全接管"; "安全问题"; "安全";
                           "safety"; "接管安全"; "安全的接管";
                           "安全事件"; "安全状况"; "安全情况"];
       dm_type := SAFETY; dm_subType := SAFETY |};
    {| patterns := map js ["效率接管"; "效率问题"; "效率";
                           "efficiency"; "接管效率"; "效率的接管";
                           "效率事件"; "效率状况"; "效率情况"];
       dm_type := EFFICIENCY; dm_subType := EFFICIENCY |};
    {| patterns := map js ["体验问题"; "体验"; "experience"; "体验不好";
                           "体验事件"; "体验状况"; "体验情况"; "用户体验"];
       dm_type := EXPERIENCE; dm_subType := EXPERIENCE |} ].

Record FuzzyMatch : Type := {
  fuzzyPatterns : list jsstring;
  fm_type : jsstring;
  fm_subType : jsstring;
  minLength : nat
}.

Definition fuzzyMatches : list FuzzyMatch :=
  [ {| fuzzyPatterns := [js "安全"]; fm_type := SAFETY;
       fm_subType := SAFETY; minLength := 2 |};
    {| fuzzyPatterns := [js "效率"]; fm_type := EFFICIENCY;
       fm_subType := EFFICIENCY; minLength := 2 |};
    {| fuzzyPatterns := [js "体验"]; fm_type := EXPERIENCE;
       fm_subType := EXPERIENCE; minLength := 2 |} ].

(** The test of the inner loop of the exact pass. *)
Definition exactHit (clean pattern : jsstring) : bool :=
  let cleanPattern := removeClass isSpaceVariant (toLowerCase pattern) in
  strictEq clean cleanPattern || includes clean cleanPattern.

(** The nested [for] loops return at the first hit, tables in order. *)
Definition exactPass (clean : jsstring) : option Result.t :=
  match find (fun m => existsb (exactHit clean) (patterns m)) directMatches with
  | Some m => Some (Result.mk (dm_type m) (dm_subType m) None)
  | None => None
  end.

Definition fuzzyHit (clean : jsstring) (m : FuzzyMatch) : bool :=
  existsb (fun pattern => includes clean pattern
                          && Nat.leb (minLength m) (List.length clean))
          (fuzzyPatterns m).

Definition fuzzyPass (clean : jsstring) : option Result.t :=
  match find (fuzzyHit clean) fuzzyMatches with
  | Some m => Some (Result.mk (fm_type m) (fm_subType m) None)
  | None => None
  end.

Definition directTypeMatching (text : jsstring) : option Result.t :=
  let clean := cleanText text in
  match exactPass clean with
  | Some r => Some r
  | None => fuzzyPass clean
  end.

(** *** smartRecognitionMultiple *)

(** A row [{ pattern: /(a|b|...)/, subType }] of a pattern table. *)
Record Pattern : Type := {
  pattern : list jsstring;
  p_subType : jsstring
}.

Definition row (alts : list string) (sub : string) : Pattern :=
  {| pattern := map js alts; p_subType := js sub |}.

Definition experiencePatterns : list Pattern :=
  [ row ["画龙"; "画蛇"; "龙"; "蛇行"; "摆尾"; "左右摆"; "摇摆"] "画龙";
    row ["重刹"; "刹车重"; "急刹"; "制动重"; "刹车"; "急停"; "突然刹车"] "重刹";
    row ["急加速"; "加速急"; "冲击"; "突然加速"; "猛加速"; "提速快"] "急加速";
    row ["颠簸"; "震动"; "不平稳"; "抖动"; "摇晃"; "晃动"; "不稳"] "颠簸";
    row ["转向重"; "方向盘重"; "打方向重"; "方向重"; "转向沉"; "打方向沉"] "转向重" ].

Definition efficiencyPatterns : list Pattern :=
  [ row ["卡死"; "卡住"; "不动"; "停住"; "卡顿"; "死机"; "停车"; "不走"] "卡死不动";
    row ["慢"; "龟速"; "太慢"; "速度慢"; "很慢"; "超慢"; "开得慢"; "跑得慢"] "速度过慢";
    row ["反应慢"; "迟钝"; "延迟"; "反应迟钝"; "响应慢"; "慢半拍"] "反应迟钝";
    row ["路径错误"; "走错"; "路线错"; "路径错"; "走错路"; "线路错"] "路径错误";
    row ["效率接管"; "效率问题"; "效率"; "efficiency"] "效率接管" ].

Definition safetyPatterns : list Pattern :=
  [ row ["碰撞"; "撞"; "危险"; "要撞"; "快撞"; "撞车"; "碰车"] "碰撞风险";
    row ["压线"; "越线"; "跨线"; "踩线"; "出线"; "过线"] "压线";
    row ["逆行"; "反向"; "开反了"; "走反"; "方向反"] "逆行";
    row ["闯红灯"; "红灯"; "冲红灯"; "闯灯"] "闯红灯";
    row ["安全接管"; "安全问题"; "安全"; "safety"] "安全接管" ].

(** One [forEach] over a table: every row whose pattern matches pushes one
    entry, in table order. *)
Definition pushMatches (type : jsstring) (table : list Pattern)
           (text : jsstring) : list Result.t :=
  flat_map (fun p =>
              match matchAlternation (pattern p) text with
              | Some m0 => [Result.mk type (p_subType p) (Some m0)]
              | None => []
              end) table.

(** [results.length > 0 ? results : null] *)
Definition orNull (results : list Result.t) : option (list Result.t) :=
  match results with
  | [] => None
  | _ => Some results
  end.

Definition smartRecognitionMultiple (text : jsstring) : option (list Result.t) :=
  orNull (pushMatches EXPERIENCE experiencePatterns text
          ++ pushMatches EFFICIENCY efficiencyPatterns text
          ++ pushMatches SAFETY safetyPatterns text).

(** *** keywordRecognitionMultiple *)

(** [[-－]]: the ASCII hyphen-minus or the full-width one. *)
Definition isDash (c : codeunit) : bool := memUnit c (js "-－").

(** The complement of [[^，,；;。.!！\s]]. *)
Definition isDelimiter (c : codeunit) : bool :=
  memUnit c (js "，,；;。.!！") || isWhiteSpace c.

Fixpoint takeRun (s : jsstring) : jsstring :=
  match s with
  | c :: s' => if isDelimiter c then [] else c :: takeRun s'
  | [] => []
  end.

(** A match of [/LABEL[-－]([^，,；;。.!！\s]+)/] starting at the head of [s]:
    the label, one dash, and the longest non-empty run of other characters
    (the pattern ends with the greedy class, so the longest run is the
    match). *)
Definition keywordAt (label s : jsstring) : option jsstring :=
  match stripPrefix label s with
  | Some (d :: r) =>
      if isDash d then
        match takeRun r with
        | [] => None
        | run => Some (label ++ d :: run)
        end
      else None
  | _ => None
  end.

(** [text.match(re)] with the [g] flag: all matches, left to right, each
    search resuming where the previous match ended.  [skip] counts the code
    units of the current match still to pass over. *)
Fixpoint matchAllFrom (label : jsstring) (skip : nat) (s : jsstring)
  : list jsstring :=
  match s with
  | [] => []
  | _ :: s' =>
      match skip with
      | S k => matchAllFrom label k s'
      | O =>
          match keywordAt label s with
          | Some m => m :: matchAllFrom label (List.length m - 1) s'
          | None => matchAllFrom label 0 s'
          end
      end
  end.

Definition matchAll (label text : jsstring) : list jsstring :=
  matchAllFrom label 0 text.

(** [m.replace(/LABEL[-－]/, '')]: the leftmost occurrence of the label
    followed by a dash is removed. *)
Fixpoint removeLabelDash (label s : jsstring) : jsstring :=
  match stripPrefix label s with
  | Some (d :: r) =>
      if isDash d then r
      else match s with
           | [] => []
           | c :: s' => c :: removeLabelDash label s'
           end
  | _ => match s with
         | [] => []
         | c :: s' => c :: removeLabelDash label s'
         end
  end.

(** The body run for one label: [matches.forEach(...)] with the
    [if (subType)] guard (an empty string is falsy). *)
Definition keywordEntries (label text : jsstring) : list Result.t :=
  flat_map (fun m =>
              match trim (removeLabelDash label m) with
              | [] => []
              | subType => [Result.mk label subType (Some m)]
              end) (matchAll label text).

Definition keywordRecognitionMultiple (text : jsstring) : option (list Result.t) :=
  orNull (keywordEntries EXPERIENCE text
          ++ keywordEntries SAFETY text
          ++ keywordEntries EFFICIENCY text).

(** *** handleUserQuestions *)

(** The four help texts and the prompt returned for blank input. *)
Inductive Response : Type :=
| UsageHint          (* how to phrase a typed issue *)
| SupportedTypes     (* which categories exist *)
| HowToStart         (* press the start button *)
| HowToPhrase        (* say the problem directly *)
| SpeakClearly.      (* blank or punctuation-only input *)

Definition questionPatterns : list (list jsstring * Response) :=
  [ (map js ["我想知道"; "想知道"; "怎么"; "如何"; "什么"; "帮助"; "帮我";
             "我不知道"; "不知道"], UsageHint);
    (map js ["有什么"; "都有什么"; "支持什么"; "可以说什么"], SupportedTypes);
    (map js ["测试"; "开始"; "开始测试"; "怎么开始"], HowToStart);
    (map js ["说什么"; "怎么说"; "格式"; "怎么操作"], HowToPhrase) ].

(** [/^[。，,.\s]*$/] *)
Definition isBlank (s : jsstring) : bool :=
  forallb (fun c => memUnit c (js "。，,.") || isWhiteSpace c) s.

Definition handleUserQuestions (text : jsstring) : option Response :=
  let clean := trim (toLowerCase text) in
  match find (fun g => existsb (includes clean) (fst g)) questionPatterns with
  | Some g => Some (snd g)
  | None =>
      if Nat.eqb (List.length clean) 0 || isBlank clean then Some SpeakClearly
      else None
  end.

(** *** Control commands *)

(** [text.includes('删除上一条') || text.includes('撤销')] *)
Definition isDeleteCommand (text : jsstring) : bool :=
  includes text (js "删除上一条") || includes text (js "撤销").

End Classifier.

(* ================================================================== *)
(** ** Data model of the store *)
(* ================================================================== *)

(** Times are milliseconds since the epoch, as [Date.now()] returns them.
    An ISO-8601 string made by [new Date().toISOString()] and read back by
    [new Date(s).getTime()] gives the same number of milliseconds, so the
    [timestamp], [startTime] and [endTime] strings are carried as that
    number. *)

Module IssueRecord.
Record t : Type := mk {
  id : Z;
  timestamp : Z;
  type : jsstring;
  subType : jsstring;
  originalText : jsstring;
  sessionId : Z;
  sessionName : jsstring
}.
End IssueRecord.

Module TestSession.
Record t : Type := mk {
  id : Z;
  name : jsstring;
  startTime : Z;
  endTime : option Z;
  recordCount : nat
}.
End TestSession.

(** What the page provides: the clock and the rendering of a local time as
    a session name ([generateSessionName], which depends on the time zone
    of the browser).  [Date_now n] is the value of the [n]-th reading of the
    clock made by the methods below. *)
Record Host : Type := {
  Date_now : nat -> Z;
  sessionNameOf : Z -> jsstring
}.

(* ================================================================== *)
(** ** The controller *)
(* ================================================================== *)

Module Recorder.

Local Open Scope Z_scope.

Inductive STATES : Type := STOPPED | STARTING | RECORDING | PAUSING.

Definition STATES_eqb (a b : STATES) : bool :=
  match a, b with
  | STOPPED, STOPPED | STARTING, STARTING
  | RECORDING, RECORDING | PAUSING, PAUSING => true
  | _, _ => false
  end.

(** *** Calls that leave the core

    Rendering, notification, persistence, timers and the socket are
    collaborators of the core.  Each call to one of them is appended to the
    [effects] log of the controller, in program order. *)

Inductive DebugInfo : Type :=
| VoiceInput (text : jsstring)          (* 语音识别: "text" *)
| DeleteExecuted                        (* 执行删除操作 *)
| DirectMatched (type : jsstring)       (* 直接匹配: type *)
| SmartMatched (subTypes : list jsstring)
| KeywordMatched (subTypes : list jsstring)
| Help (response : Classifier.Response)
| NoKeyword (text : jsstring)           (* 未识别到问题关键词 *)
| AuthFailed                            (* 认证失败，请检查阿里云配置 *)
| ConnectionLimit                       (* 连接数限制，等待重试 *)
| ConnectionClosed                      (* 语音识别连接已关闭 *)
| ConnectionFailed                      (* 语音识别连接失败 *)
| Connected                             (* 阿里云实时语音识别已连接 *)
| UsingAliyun                           (* 使用阿里云语音识别 *)
| NotConfigured                         (* 阿里云API未配置 *)
| AudioStopped.                         (* 实时录音已停止 *)

Inductive Notice : Type :=
| TestStarted                           (* 开始测试记录 *)
| ConfigureFirst                        (* 请先配置阿里云语音识别API *)
| TestPaused                            (* 测试已暂停 *)
| TestStopped (name : option jsstring). (* 测试记录已停止 - name *)

Inductive Callback : Type :=
| handleWebSocketReconnect_cb           (* () => this.handleWebSocketReconnect() *)
| initWebSocketConnection_cb            (* () => this.initWebSocketConnection() *)
| initAndStartAudio_cb.                 (* init, then startAudioRecording *)

Inductive Frame : Type :=
| StartTranscription
| StopTranscription
| PcmBlock (samples : list Z).

Inductive Effect : Type :=
| showDebugInfo (d : DebugInfo)
| displaySubtitle (text : jsstring)
| saveData
| saveSessionData
| updateUI
| showRecordNotification (record : IssueRecord.t)
| showDeleteNotification (record : IssueRecord.t)
| showNotification (n : Notice)
| showConfigModal
| setTimeout (cb : Callback) (delay : Z)
| initWebSocketConnection
| startAudioRecording
| websocket_send (f : Frame).

(** *** The fields of [this] the modelled methods read or write.

    [websocketOpen] stands for
    [this.websocket && this.websocket.readyState === WebSocket.OPEN],
    [timerInterval] for a non-null interval handle, [configured] for the
    three credentials of [aliyunConfig] being non-empty, [reads] counts the
    readings of the clock made so far. *)
Record t : Type := mk {
  state : STATES;
  isRecording : bool;
  testData : list IssueRecord.t;
  testSessions : list TestSession.t;
  currentSession : option TestSession.t;
  timerInterval : bool;
  startTime : option Z;
  websocketOpen : bool;
  aliyunConnectionReady : bool;
  wsReconnectAttempts : Z;
  isRecordingAudio : bool;
  isTranscriptionStarted : bool;
  configured : bool;
  reads : nat;
  effects : list Effect
}.

Definition maxReconnectAttempts : Z := 3.
Definition connectionRetryDelay : Z := 5000.

(** The object the constructor builds, before anything is loaded from
    local storage. *)
Definition constructor : t :=
  {| state := STOPPED; isRecording := false; testData := [];
     testSessions := []; currentSession := None; timerInterval := false;
     startTime := None; websocketOpen := false;
     aliyunConnectionReady := false; wsReconnectAttempts := 0;
     isRecordingAudio := false; isTranscriptionStarted := false;
     configured := false; reads := 0; effects := [] |}.

(** Assignments [this.field = v]. *)
Definition set_state (v : STATES) (r : t) : t :=
  {| state := v; isRecording := isRecording r; testData := testData r;
     testSessions := testSessions r; currentSession := currentSession r;
     timerInterval := timerInterval r; startTime := startTime r;
     websocketOpen := websocketOpen r; aliyunConnectionReady :=
     aliyunConnectionReady r; wsReconnectAttempts := wsReconnectAttempts r;
     isRecordingAudio := isRecordingAudio r; isTranscriptionStarted :=
     isTranscriptionStarted r; configured := configured r; reads := reads r;
     effects := effects r |}.

Definition set_isRecording (v : bool) (r : t) : t :=
  {| state := state r; isRecording := v; testData := testData r;
     testSessions := testSessions r; currentSession := currentSession r;
     timerInterval := timerInterval r; startTime := startTime r;
     websocketOpen := websocketOpen r; aliyunConnectionReady :=
     aliyunConnectionReady r; wsReconnectAttempts := wsReconnectAttempts r;
     isRecordingAudio := isRecordingAudio r; isTranscriptionStarted :=
     isTranscriptionStarted r; configured := configured r; reads := reads r;
     effects := effects r |}.

Definition set_testData (v : list IssueRecord.t) (r : t) : t :=
  {| state := state r; isRecording := isRecording r; testData := v;
     testSessions := testSessions r; currentSession := currentSession r;
     timerInterval := timerInterval r; startTime := startTime r;
     websocketOpen := websocketOpen r; aliyunConnectionReady :=
     aliyunConnectionReady r; wsReconnectAttempts := wsReconnectAttempts r;
     isRecordingAudio := isRecordingAudio r; isTranscriptionStarted :=
     isTranscriptionStarted r; configured := configured r; reads := reads r;
     effects := effects r |}.

Definition set_testSessions (v : list TestSession.t) (r : t) : t :=
  {| state := state r; isRecording := isRecording r; testData := testData r;
     testSessions := v; currentSession := currentSession r; timerInterval :=
     timerInterval r; startTime := startTime r; websocketOpen :=
     websocketOpen r; aliyunConnectionReady := aliyunConnectionReady r;
     wsReconnectAttempts := wsReconnectAttempts r; isRecordingAudio :=
     isRecordingAudio r; isTranscriptionStarted := isTranscriptionStarted r;
     configured := configured r; reads := reads r; effects := effects r |}.

Definition set_currentSession (v : option TestSession.t) (r : t) : t :=
  {| state := state r; isRecording := isRecording r; testData := testData r;
     testSessions := testSessions r; currentSession := v; timerInterval :=
     timerInterval r; startTime := startTime r; websocketOpen :=
     websocketOpen r; aliyunConnectionReady := aliyunConnectionReady r;
     wsReconnectAttempts := wsReconnectAttempts r; isRecordingAudio :=
     isRecordingAudio r; isTranscriptionStarted := isTranscriptionStarted r;
     configured := configured r; reads := reads r; effects := effects r |}.

Definition set_timerInterval (v : bool) (r : t) : t :=
  {| state := state r; isRecording := isRecording r; testData := testData r;
     testSessions := testSessions r; currentSession := currentSession r;
     timerInterval := v; startTime := startTime r; websocketOpen :=
     websocketOpen r; aliyunConnectionReady := aliyunConnectionReady r;
     wsReconnectAttempts := wsReconnectAttempts r; isRecordingAudio :=
     isRecordingAudio r; isTranscriptionStarted := isTranscriptionStarted r;
     configured := configured r; reads := reads r; effects := effects r |}.

Definition set_startTime (v : option Z) (r : t) : t :=
  {| state := state r; isRecording := isRecording r; testData := testData r;
     testSessions := testSessions r; currentSession := currentSession r;
     timerInterval := timerInterval r; startTime := v; websocketOpen :=
     websocketOpen r; aliyunConnectionReady := aliyunConnectionReady r;
     wsReconnectAttempts := wsReconnectAttempts r; isRecordingAudio :=
     isRecordingAudio r; isTranscriptionStarted := isTranscriptionStarted r;
     configured := configured r; reads := reads r; effects := effects r |}.

Definition set_websocketOpen (v : bool) (r : t) : t :=
  {| state := state r; isRecording := isRecording r; testData := testData r;
     testSessions := testSessions r; currentSession := currentSession r;
     timerInterval := timerInterval r; startTime := startTime r;
     websocketOpen := v; aliyunConnectionReady := aliyunConnectionReady r;
     wsReconnectAttempts := wsReconnectAttempts r; isRecordingAudio :=
     isRecordingAudio r; isTranscriptionStarted := isTranscriptionStarted r;
     configured := configured r; reads := reads r; effects := effects r |}.

Definition set_aliyunConnectionReady (v : bool) (r : t) : t :=
  {| state := state r; isRecording := isRecording r; testData := testData r;
     testSessions := testSessions r; currentSession := currentSession r;
     timerInterval := timerInterval r; startTime := startTime r;
     websocketOpen := websocketOpen r; aliyunConnectionReady := v;
     wsReconnectAttempts := wsReconnectAttempts r; isRecordingAudio :=
     isRecordingAudio r; isTranscriptionStarted := isTranscriptionStarted r;
     configured := configured r; reads := reads r; effects := effects r |}.

Definition set_wsReconnectAttempts (v : Z) (r : t) : t :=
  {| state := state r; isRecording := isRecording r; testData := testData r;
     testSessions := testSessions r; currentSession := currentSession r;
     timerInterval := timerInterval r; startTime := startTime r;
     websocketOpen := websocketOpen r; aliyunConnectionReady :=
     aliyunConnectionReady r; wsReconnectAttempts := v; isRecordingAudio :=
     isRecordingAudio r; isTranscriptionStarted := isTranscriptionStarted r;
     configured := configured r; reads := reads r; effects := effects r |}.

Definition set_isRecordingAudio (v : bool) (r : t) : t :=
  {| state := state r; isRecording := isRecording r; testData := testData r;
     testSessions := testSessions r; currentSession := currentSession r;
     timerInterval := timerInterval r; startTime := startTime r;
     websocketOpen := websocketOpen r; aliyunConnectionReady :=
     aliyunConnectionReady r; wsReconnectAttempts := wsReconnectAttempts r;
     isRecordingAudio := v; isTranscriptionStarted := isTranscriptionStarted
     r; configured := configured r; reads := reads r; effects := effects r
     |}.

Definition set_isTranscriptionStarted (v : bool) (r : t) : t :=
  {| state := state r; isRecording := isRecording r; testData := testData r;
     testSessions := testSessions r; currentSession := currentSession r;
     timerInterval := timerInterval r; startTime := startTime r;
     websocketOpen := websocketOpen r; aliyunConnectionReady :=
     aliyunConnectionReady r; wsReconnectAttempts := wsReconnectAttempts r;
     isRecordingAudio := isRecordingAudio r; isTranscriptionStarted := v;
     configured := configured r; reads := reads r; effects := effects r |}.

Definition set_configured (v : bool) (r : t) : t :=
  {| state := state r; isRecording := isRecording r; testData := testData r;
     testSessions := testSessions r; currentSession := currentSession r;
     timerInterval := timerInterval r; startTime := startTime r;
     websocketOpen := websocketOpen r; aliyunConnectionReady :=
     aliyunConnectionReady r; wsReconnectAttempts := wsReconnectAttempts r;
     isRecordingAudio := isRecordingAudio r; isTranscriptionStarted :=
     isTranscriptionStarted r; configured := v; reads := reads r; effects :=
     effects r |}.

Definition set_reads (v : nat) (r : t) : t :=
  {| state := state r; isRecording := isRecording r; testData := testData r;
     testSessions := testSessions r; currentSession := currentSession r;
     timerInterval := timerInterval r; startTime := startTime r;
     websocketOpen := websocketOpen r; aliyunConnectionReady :=
     aliyunConnectionReady r; wsReconnectAttempts := wsReconnectAttempts r;
     isRecordingAudio := isRecordingAudio r; isTranscriptionStarted :=
     isTranscriptionStarted r; configured := configured r; reads := v;
     effects := effects r |}.

Definition set_effects (v : list Effect) (r : t) : t :=
  {| state := state r; isRecording := isRecording r; testData := testData r;
     testSessions := testSessions r; currentSession := currentSession r;
     timerInterval := timerInterval r; startTime := startTime r;
     websocketOpen := websocketOpen r; aliyunConnectionReady :=
     aliyunConnectionReady r; wsReconnectAttempts := wsReconnectAttempts r;
     isRecordingAudio := isRecordingAudio r; isTranscriptionStarted :=
     isTranscriptionStarted r; configured := configured r; reads := reads r;
     effects := v |}.

Definition emit (e : Effect) (r : t) : t := set_effects (effects r ++ [e]) r.

Section Methods.

Variable host : Host.

(** [Date.now()], [new Date()]: the next reading of the clock. *)
Definition readClock (r : t) : Z * t :=
  (Date_now host (reads r), set_reads (S (reads r)) r).

(** *** Store *)

Definition getCurrentSessionRecords (r : t) : list IssueRecord.t :=
  match currentSession r with
  | None => []
  | Some s =>
      filter (fun record => IssueRecord.sessionId record =? TestSession.id s)
             (testData r)
  end.

(** The predicate of [currentSessionRecords.find] in [addRecord]. *)
Definition similarRecent (type subType : jsstring) (now : Z)
           (record : IssueRecord.t) : bool :=
  strictEq (IssueRecord.type record) type
  && strictEq (IssueRecord.subType record) subType
  && (now - IssueRecord.timestamp record <? 5000).

Definition addRecord (type subType originalText : jsstring) (r : t) : t :=
  match currentSession r with
  | None => r
  | Some s =>
      let (now, r1) := readClock r in
      match find (similarRecent type subType now) (getCurrentSessionRecords r1) with
      | Some _ => r1
      | None =>
          let (stamp, r2) := readClock r1 in
          let record :=
            IssueRecord.mk now stamp type subType originalText
                           (TestSession.id s) (TestSession.name s) in
          emit (showRecordNotification record)
               (emit updateUI
                     (emit saveData
                           (set_testData (testData r2 ++ [record]) r2)))
      end
  end.

Definition deleteLastRecord (r : t) : t :=
  match rev (testData r) with
  | [] => r
  | lastRecord :: _ =>
      emit (showDeleteNotification lastRecord)
           (emit updateUI
                 (emit saveData (set_testData (removelast (testData r)) r)))
  end.

(** *** Classification of a final transcript *)

(** [result.matchedText || text] *)
Definition matchedTextOr (m : option jsstring) (text : jsstring) : jsstring :=
  match m with
  | Some (c :: m') => c :: m'
  | _ => text
  end.

(** [results.forEach(result => this.addRecord(...))] *)
Definition addRecords (results : list Result.t) (text : jsstring) (r : t) : t :=
  fold_left (fun acc result =>
               addRecord (Result.type result) (Result.subType result)
                         (matchedTextOr (Result.matchedText result) text) acc)
            results r.

Definition processVoiceInput (text : jsstring) (r : t) : t :=
  let r := emit (showDebugInfo (VoiceInput text)) r in
  let r := emit (displaySubtitle text) r in
  if Classifier.isDeleteCommand text then
    emit (showDebugInfo DeleteExecuted) (deleteLastRecord r)
  else
    match Classifier.directTypeMatching text with
    | Some d =>
        addRecord (Result.type d) (Result.subType d) text
                  (emit (showDebugInfo (DirectMatched (Result.type d))) r)
    | None =>
        match Classifier.smartRecognitionMultiple text with
        | Some (x :: l) =>
            addRecords (x :: l) text
              (emit (showDebugInfo (SmartMatched (map Result.subType (x :: l)))) r)
        | _ =>
            match Classifier.keywordRecognitionMultiple text with
            | Some (y :: k) =>
                addRecords (y :: k) text
                  (emit (showDebugInfo
                           (KeywordMatched (map Result.subType (y :: k)))) r)
            | _ =>
                match Classifier.handleUserQuestions text with
                | Some q => emit (showDebugInfo (Help q)) r
                | None => emit (showDebugInfo (NoKeyword text)) r
                end
            end
        end
    end.

(** *** Audio and timer helpers *)

Definition startTimer (r : t) : t := set_timerInterval true r.

Definition stopTimer (r : t) : t :=
  if timerInterval r then set_timerInterval false r else r.

Definition sendFinishFrame (r : t) : t :=
  if websocketOpen r && isTranscriptionStarted r then
    set_isTranscriptionStarted false (emit (websocket_send StopTranscription) r)
  else r.

(** The [MediaRecorder] is created but never started, and no
    [audioProcessInterval] is ever installed: those two branches of
    [stopAudioRecording] do nothing. *)
Definition stopAudioRecording (r : t) : t :=
  emit (showDebugInfo AudioStopped)
       (sendFinishFrame (set_isRecordingAudio false r)).

(** [sendPCMDataDirectly]: the block is converted, and sent when the socket
    is open. *)
Definition sendPCMDataDirectly (float32Array : list Pcm.float) (r : t) : t :=
  let int16Array := Pcm.pcm16Block float32Array in
  if websocketOpen r then emit (websocket_send (PcmBlock int16Array)) r else r.

(** The [onaudioprocess] handler installed by [startAudioRecording]. *)
Definition onaudioprocess (inputData : list Pcm.float) (r : t) : t :=
  if websocketOpen r && isRecordingAudio r then
    emit (websocket_send (PcmBlock (Pcm.pcm16Block inputData))) r
  else r.

(** *** Session life cycle

    [initWebSocketConnection] and [startAudioRecording] are asynchronous:
    [startTest] does not wait for them.  Their invocation is logged; what
    they later do to the controller arrives through the handlers
    [websocket_onopen], [websocket_onclose], [onaudioprocess] and through
    [audioStarted]. *)

(** The assignment [this.isRecordingAudio = true] made by
    [startAudioRecording] once the script processor is connected. *)
Definition audioStarted (r : t) : t := set_isRecordingAudio true r.

Definition startTest (r : t) : t :=
  if isRecording r || negb (STATES_eqb (state r) STOPPED) then r
  else
    let r := set_state STARTING r in
    let (sessionId, r) := readClock r in
    let (named, r) := readClock r in
    let (started, r) := readClock r in
    let r := set_currentSession
               (Some (TestSession.mk sessionId (sessionNameOf host named)
                                     started None 0)) r in
    let r := set_isRecording true r in
    let r := set_state RECORDING r in
    let (t0, r) := readClock r in
    let r := set_startTime (Some t0) r in
    let r := startTimer r in
    let r :=
      if configured r then
        let r := emit (showDebugInfo UsingAliyun) r in
        let r := if aliyunConnectionReady r then r
                 else emit initWebSocketConnection r in
        emit startAudioRecording r
      else
        emit (setTimeout initAndStartAudio_cb 1000)
             (emit showConfigModal
                   (emit (showNotification ConfigureFirst)
                         (emit (showDebugInfo NotConfigured) r))) in
    emit (showNotification TestStarted) (emit updateUI r).

Definition pauseTest (r : t) : t :=
  if negb (isRecording r) || negb (STATES_eqb (state r) RECORDING) then r
  else
    let r := set_state PAUSING r in
    let r := set_isRecording false r in
    let r := stopTimer r in
    let r := stopAudioRecording r in
    let r := set_state STOPPED r in
    emit (showNotification TestPaused) (emit updateUI r).

(** The sealing block of [stopTest]. *)
Definition sealCurrentSession (r : t) : t :=
  match currentSession r with
  | None => r
  | Some s =>
      let (ended, r) := readClock r in
      let s1 := TestSession.mk (TestSession.id s) (TestSession.name s)
                               (TestSession.startTime s) (Some ended)
                               (TestSession.recordCount s) in
      let r := set_currentSession (Some s1) r in
      let s2 := TestSession.mk (TestSession.id s1) (TestSession.name s1)
                               (TestSession.startTime s1) (TestSession.endTime s1)
                               (List.length (getCurrentSessionRecords r)) in
      let r := set_currentSession (Some s2) r in
      emit saveSessionData (set_testSessions (testSessions r ++ [s2]) r)
  end.

Definition stopTest (r : t) : t :=
  if negb (isRecording r) then r
  else
    let r := set_state PAUSING r in
    let r := set_isRecording false r in
    let r := stopTimer r in
    let r := sealCurrentSession r in
    let r := stopAudioRecording r in
    let r := set_state STOPPED r in
    emit (showNotification
            (TestStopped (option_map TestSession.name (currentSession r))))
         (emit updateUI r).

(** [handleQuickRecord(type)] with [typeText] already selected by the
    [switch]. *)
Definition handleQuickRecord (typeText : jsstring) (r : t) : t :=
  let r := match currentSession r with
           | None => startTest r
           | Some _ => r
           end in
  addRecord typeText (js "手动记录") (js "快速记录：" ++ typeText)%list r.

(** *** Transport: close handling and reconnection *)

Definition handleWebSocketReconnect (r : t) : t :=
  if wsReconnectAttempts r <? maxReconnectAttempts then
    let r := set_wsReconnectAttempts (wsReconnectAttempts r + 1) r in
    emit (setTimeout initWebSocketConnection_cb (2000 * wsReconnectAttempts r)) r
  else
    emit (showDebugInfo ConnectionFailed) r.

Definition sendStartMessage (r : t) : t :=
  if websocketOpen r then
    set_isTranscriptionStarted true (emit (websocket_send StartTranscription) r)
  else r.

(** [websocket.onopen]; the socket is open when the handler runs. *)
Definition websocket_onopen (r : t) : t :=
  let r := set_websocketOpen true r in
  let r := emit (showDebugInfo Connected) r in
  let r := set_aliyunConnectionReady true r in
  let r := set_wsReconnectAttempts 0 r in
  sendStartMessage r.

(** [websocket.onclose]; the socket is closed when the handler runs. *)
Definition websocket_onclose (code : Z) (reason : jsstring) (r : t) : t :=
  let r := set_websocketOpen false r in
  let r := set_aliyunConnectionReady false r in
  if code =? 4402 then
    emit (showDebugInfo AuthFailed) r
  else if (code =? 1006) || includes reason (js "over max connect limit") then
    emit (setTimeout handleWebSocketReconnect_cb connectionRetryDelay)
         (emit (showDebugInfo ConnectionLimit) r)
  else if code =? 1000 then
    emit (showDebugInfo ConnectionClosed) r
  else
    handleWebSocketReconnect r.

End Methods.

(** *** Runs

    The methods a page event can invoke on the controller, and the
    controller after a sequence of such invocations. *)
Inductive Call : Type :=
| call_addRecord (type subType originalText : jsstring)
| call_processVoiceInput (text : jsstring)
| call_deleteLastRecord
| call_handleQuickRecord (typeText : jsstring)
| call_startTest
| call_pauseTest
| call_stopTest.

Definition invoke (host : Host) (c : Call) (r : t) : t :=
  match c with
  | call_addRecord type subType originalText =>
      addRecord host type subType originalText r
  | call_processVoiceInput text => processVoiceInput host text r
  | call_deleteLastRecord => deleteLastRecord r
  | call_handleQuickRecord typeText => handleQuickRecord host typeText r
  | call_startTest => startTest host r
  | call_pauseTest => pauseTest r
  | call_stopTest => stopTest host r
  end.

Definition run (host : Host) (cs : list Call) (r : t) : t :=
  fold_left (fun acc c => invoke host c acc) cs r.

(** The record [addRecord] appends to a controller [r] whose session is
    [s]: its id is the next reading of the clock, its timestamp the one
    after. *)
Definition recordMade (host : Host) (type subType originalText : jsstring)
           (r : t) (s : TestSession.t) : IssueRecord.t :=
  IssueRecord.mk (Date_now host (reads r)) (Date_now host (S (reads r)))
                 type subType originalText
                 (TestSession.id s) (TestSession.name s).

(** The ids of the stored records, in store order. *)
Definition ids (r : t) : list Z := map IssueRecord.id (testData r).

(** The stored ids are in the order [R] and all [R]-before the next
    reading of the clock ([R] is [<] or [<=]). *)
Definition ordered (host : Host) (R : Z -> Z -> Prop) (r : t) : Prop :=
  StronglySorted R (ids r)
  /\ Forall (fun i => R i (Date_now host (reads r))) (ids r).

(** Which readings of the clock became ids on the way from [r0] to [r]:
    the first [kept] records of [r0] are still stored, followed by one
    record per reading of [taken], whose id is that reading.  [addRecord]
    reads the clock twice when it stores a record (the id, then the
    timestamp), so the readings that become ids are at least 2 apart, and
    all of them were made after [r0]. *)
Definition idsTaken (host : Host) (r0 r : t) (kept : nat) (taken : list nat)
  : Prop :=
  ids r = firstn kept (ids r0) ++ map (Date_now host) taken
  /\ StronglySorted (fun a b => (a + 2 <= b)%nat) taken
  /\ Forall (fun k => (reads r0 <= k /\ k + 2 <= reads r)%nat) taken
  /\ (reads r0 <= reads r)%nat.

(** A close event of the socket, [(event.code, event.reason)], and the
    controller after consecutive closes with no open in between. *)
Definition CloseEvent : Type := (Z * jsstring)%type.

Definition closes (evs : list CloseEvent) (r : t) : t :=
  fold_left (fun acc ev => websocket_onclose (fst ev) (snd ev) acc) evs r.

(** The last branch of the close handler, the one the source logs as an
    abnormal close: not the authentication failure, not the
    connection-limit signal, not the normal close. *)
Definition abnormalClose (ev : CloseEvent) : bool :=
  negb (fst ev =? 4402)
  && negb ((fst ev =? 1006) || includes (snd ev) (js "over max connect limit"))
  && negb (fst ev =? 1000).

(** The connection-limit branch, whose call of [handleWebSocketReconnect]
    is deferred by [connectionRetryDelay]. *)
Definition limitClose (ev : CloseEvent) : bool :=
  negb (fst ev =? 4402)
  && ((fst ev =? 1006) || includes (snd ev) (js "over max connect limit")).

(** A close followed, for a connection-limit close, by the firing of the
    deferred callback. *)
Definition closeAndFire (ev : CloseEvent) (r : t) : t :=
  let r' := websocket_onclose (fst ev) (snd ev) r in
  if limitClose ev then handleWebSocketReconnect r' else r'.

Definition closesAndFire (evs : list CloseEvent) (r : t) : t :=
  fold_left (fun acc ev => closeAndFire ev acc) evs r.

(** The closes after which the handler calls [handleWebSocketReconnect],
    at once or deferred. *)
Definition retryingClose (ev : CloseEvent) : bool :=
  abnormalClose ev || limitClose ev.

(** The timer [handleWebSocketReconnect] installs for attempt [n]. *)
Definition attemptTimer (n : nat) : Effect :=
  setTimeout initWebSocketConnection_cb (2000 * Z.of_nat n).

(** The delays of the reconnection attempts scheduled in a log, and the
    number of terminal failures reported in it. *)
Definition reconnectDelays (log : list Effect) : list Z :=
  flat_map (fun e => match e with
                     | setTimeout initWebSocketConnection_cb d => [d]
                     | _ => []
                     end) log.

Definition failuresReported (log : list Effect) : nat :=
  List.length (filter (fun e => match e with
                                | showDebugInfo ConnectionFailed => true
                                | _ => false
                                end) log).

End Recorder.

(* ================================================================== *)
(** ** Concrete pages *)
(* ================================================================== *)

Module Page.

Local Open Scope Z_scope.

(** A clock that advances by one second per reading, from
    2023-11-14T22:13:20Z. *)
Definition ticking : Host :=
  {| Date_now := fun n => 1700000000000 + 1000 * Z.of_nat n;
     sessionNameOf := fun _ => js "测试_20231114_221320" |}.

(** A clock that advances by one millisecond per reading. *)
Definition fine : Host :=
  {| Date_now := fun n => 1700000000000 + Z.of_nat n;
     sessionNameOf := fun _ => js "测试_20231114_221320" |}.


(** A clock that advances by one millisecond every second reading. *)
Definition twoPerMillisecond : Host :=
  {| Date_now := fun n => 1700000000000 + Z.of_nat n / 2;
     sessionNameOf := fun _ => js "测试_20231114_221320" |}.

(** A clock read several times within one millisecond. *)
Definition sameMillisecond : Host :=
  {| Date_now := fun _ => 1700000000000;
     sessionNameOf := fun _ => js "测试_20231114_221320" |}.

(** The controller right after [startTest] on a fresh page. *)
Definition recording (host : Host) : Recorder.t :=
  Recorder.startTest host Recorder.constructor.

Definition lane : jsstring := js "压线".

(** The same controller after one 安全接管/压线 record, and after that
    session has been stopped and a second one started. *)
Definition afterOneRecord (host : Host) : Recorder.t :=
  Recorder.addRecord host Classifier.SAFETY lane lane (recording host).

Definition secondSession (host : Host) : Recorder.t :=
  Recorder.startTest host (Recorder.stopTest host (afterOneRecord host)).

Definition pressLineThenStuck : jsstring := js "安全接管-压线，效率接管-卡死".
Definition weavingAndBraking : jsstring := js "车子画龙又重刹".
Definition undoLast : jsstring := js "删除上一条".

End Page.

(* ================================================================== *)
(** ** Further parts of the audio path *)
(* ================================================================== *)

Module Audio.

Local Open Scope Z_scope.

(** The bytes of one [Int16Array] element as a [Uint8Array] view of the
    same buffer shows them: two's complement, low byte first (typed arrays
    use the byte order of the platform, little-endian on the platforms
    browsers run on). *)
Definition int16Bytes (z : Z) : list Z :=
  let u := z mod 65536 in [u mod 256; u / 256].

(** [new Uint8Array(int16Array.buffer)] *)
Definition Uint8ArrayOf (int16Array : list Z) : list Z :=
  flat_map int16Bytes int16Array.

(** How the receiver of 16-bit little-endian signed PCM reads a byte
    stream back into samples; a trailing odd byte is not a sample. *)
Fixpoint readInt16LE (bytes : list Z) : list Z :=
  match bytes with
  | lo :: hi :: rest => Pcm.wrap16 (lo + 256 * hi) :: readInt16LE rest
  | _ => []
  end.

(** [convertWebMToPCM]: [decoded] is the first channel that
    [decodeAudioData] delivers, or [None] when decoding is rejected (the
    [catch] returns null).  The loop is the one of [Pcm.pcm16Sample]. *)
Definition convertWebMToPCM (decoded : option (list Pcm.float))
  : option (list Z) :=
  match decoded with
  | Some samples => Some (Uint8ArrayOf (Pcm.pcm16Block samples))
  | None => None
  end.

(** [pcmData.slice(start, end)] *)
Definition slice (start stop : nat) (data : list Z) : list Z :=
  firstn (stop - start) (skipn start data).

Definition chunkSize : nat := 1280.

(** The [while] loop of [sendPCMInChunks].  The loop awaits a timer between
    two chunks, so the socket may close in between: [openAt k] tells whether
    the socket is open at iteration [k].  The result lists the chunks handed
    to [websocket.send], in order.  Each iteration moves [offset] forward by
    [chunkSize], so [length pcmData] iterations always suffice. *)
Fixpoint sendLoop (fuel : nat) (pcmData : list Z) (openAt : nat -> bool)
         (offset k : nat) : list (list Z) :=
  match fuel with
  | O => []
  | S fuel' =>
      if Nat.ltb offset (List.length pcmData) then
        if openAt k then
          slice offset (offset + chunkSize) pcmData
            :: sendLoop fuel' pcmData openAt (offset + chunkSize) (S k)
        else []
      else []
  end.

Definition sendPCMInChunks (pcmData : list Z) (openAt : nat -> bool)
  : list (list Z) :=
  sendLoop (List.length pcmData) pcmData openAt 0 0.

End Audio.

(* ================================================================== *)
(** ** Message and task identifiers *)
(* ================================================================== *)

Module Ids.

Local Open Scope string_scope.
Local Open Scope list_scope.

Definition characters : jsstring := js "0123456789abcdef".

(** [s.charAt(i)]: the one-unit string at [i], the empty string out of
    range. *)
Definition charAt (s : jsstring) (i : Z) : jsstring :=
  if (i <? 0)%Z then []
  else match nth_error s (Z.to_nat i) with
       | Some c => [c]
       | None => []
       end.

(** [generate32HexId]: [random i] is the value of the [i]-th call of
    [Math.random()] (a double, hence a rational; its product with 16 is
    exact).  The loop appends one [charAt] per iteration. *)
Fixpoint hexLoop (random : nat -> Q) (i n : nat) (result : jsstring) : jsstring :=
  match n with
  | O => result
  | S n' =>
      hexLoop random (S i) n'
              (result ++ charAt characters
                                (Qfloor (random i
                                         * inject_Z (Z.of_nat (List.length characters)))%Q))
  end.

Definition generate32HexId (random : nat -> Q) : jsstring :=
  hexLoop random 0 32 [].

Definition generateMessageId := generate32HexId.
Definition generateTaskId := generate32HexId.

End Ids.

(* ================================================================== *)
(** ** The earlier single-result recognisers and [isSuccessfulMatch] *)
(* ================================================================== *)

Module Legacy.

Local Open Scope string_scope.
Local Open Scope list_scope.
Local Open Scope N_scope.

Import Classifier.

(** *** smartRecognition *)

Definition experiencePatterns : list Pattern :=
  [ row ["画龙"; "龙"; "蛇行"; "摆尾"] "画龙";
    row ["重刹"; "刹车重"; "急刹"; "制动重"] "重刹";
    row ["急加速"; "加速急"; "冲击"] "急加速";
    row ["颠簸"; "震动"; "不平稳"] "颠簸";
    row ["转向重"; "方向盘重"; "打方向重"] "转向重" ].

Definition efficiencyPatterns : list Pattern :=
  [ row ["卡死"; "卡住"; "不动"; "停住"] "卡死不动";
    row ["慢"; "龟速"; "太慢"; "速度慢"] "速度过慢";
    row ["反应慢"; "迟钝"; "延迟"] "反应迟钝";
    row ["路径错误"; "走错"; "路线错"] "路径错误" ].

Definition safetyPatterns : list Pattern :=
  [ row ["碰撞"; "撞"; "危险"] "碰撞风险";
    row ["压线"; "越线"; "跨线"] "压线";
    row ["逆行"; "反向"] "逆行";
    row ["闯红灯"; "红灯"] "闯红灯" ].

(** [pattern.pattern.test(text)] *)
Definition test (p : Pattern) (text : jsstring) : bool :=
  match matchAlternation (pattern p) text with
  | Some _ => true
  | None => false
  end.

(** One [for] loop: the first row that matches returns. *)
Definition firstRow (type : jsstring) (table : list Pattern) (text : jsstring)
  : option Result.t :=
  match find (fun p => test p text) table with
  | Some p => Some (Result.mk type (p_subType p) None)
  | None => None
  end.

Definition smartRecognition (text : jsstring) : option Result.t :=
  match firstRow EXPERIENCE experiencePatterns text with
  | Some r => Some r
  | None =>
      match firstRow EFFICIENCY efficiencyPatterns text with
      | Some r => Some r
      | None => firstRow SAFETY safetyPatterns text
      end
  end.

(** *** keywordRecognition *)

(** The characters [.] does not match: the line terminators. *)
Definition isLineTerminator (c : codeunit) : bool :=
  memUnit c [0x0A; 0x0D; 0x2028; 0x2029].

Fixpoint takeLine (s : jsstring) : jsstring :=
  match s with
  | c :: s' => if isLineTerminator c then [] else c :: takeLine s'
  | [] => []
  end.

(** The capture of [/LABEL[-－](.+)/] for a match starting at the head of
    [s]: the longest non-empty run of characters up to the end of the
    line. *)
Definition captureAt (label s : jsstring) : option jsstring :=
  match stripPrefix label s with
  | Some (d :: r) =>
      if isDash d then
        match takeLine r with
        | [] => None
        | run => Some run
        end
      else None
  | _ => None
  end.

(** [text.match(re)[1]] for the leftmost match, or [None]. *)
Fixpoint firstCapture (label s : jsstring) : option jsstring :=
  match captureAt label s with
  | Some c => Some c
  | None => match s with
            | [] => None
            | _ :: s' => firstCapture label s'
            end
  end.

Definition keywordRecognition (text : jsstring) : option Result.t :=
  match firstCapture EXPERIENCE text with
  | Some c => Some (Result.mk EXPERIENCE (trim c) None)
  | None =>
      match firstCapture SAFETY text with
      | Some c => Some (Result.mk SAFETY (trim c) None)
      | None =>
          match firstCapture EFFICIENCY text with
          | Some c => Some (Result.mk EFFICIENCY (trim c) None)
          | None => None
          end
      end
  end.

(** *** isSuccessfulMatch *)

(** [results && results.length > 0] *)
Definition nonEmpty (results : option (list Result.t)) : bool :=
  match results with
  | Some (_ :: _) => true
  | _ => false
  end.

Definition isSuccessfulMatch (text : jsstring) : bool :=
  match directTypeMatching text with
  | Some _ => true
  | None => nonEmpty (smartRecognitionMultiple text)
            || nonEmpty (keywordRecognitionMultiple text)
  end.

End Legacy.

(* ================================================================== *)
(** ** Statistics and session history *)
(* ================================================================== *)

Module History.

Local Open Scope string_scope.
Local Open Scope list_scope.
Local Open Scope Z_scope.

Import Recorder.

(** *** calculateStatistics, getSessionStatistics *)

Record Stats : Type := {
  total : nat;
  experience : nat;
  safety : nat;
  efficiency : nat
}.

(** The [switch (record.type)] of both functions: the first [case] whose
    label is strictly equal to the type increments its counter; any other
    type increments nothing. *)
Definition count (stats : Stats) (record : IssueRecord.t) : Stats :=
  if strictEq (IssueRecord.type record) (js "体验问题") then
    {| total := total stats; experience := S (experience stats);
       safety := safety stats; efficiency := efficiency stats |}
  else if strictEq (IssueRecord.type record) (js "安全接管") then
    {| total := total stats; experience := experience stats;
       safety := S (safety stats); efficiency := efficiency stats |}
  else if strictEq (IssueRecord.type record) (js "效率接管") then
    {| total := total stats; experience := experience stats;
       safety := safety stats; efficiency := S (efficiency stats) |}
  else stats.

Definition calculateStatistics (r : t) : Stats :=
  let currentRecords := getCurrentSessionRecords r in
  fold_left count currentRecords
            {| total := List.length currentRecords; experience := 0;
               safety := 0; efficiency := 0 |}.

(** [getSessionStatistics(sessionId)], called with the numeric id of a
    session; its result object has no [total], kept 0 here. *)
Definition getSessionStatistics (sessionId : Z) (r : t) : Stats :=
  let sessionRecords :=
    filter (fun record => IssueRecord.sessionId record =? sessionId)
           (testData r) in
  fold_left count sessionRecords
            {| total := 0; experience := 0; safety := 0; efficiency := 0 |}.

(** The number of records of [l] whose type is [label]. *)
Definition ofType (label : jsstring) (l : list IssueRecord.t) : nat :=
  List.length
    (filter (fun record => strictEq (IssueRecord.type record) label) l).

(** *** deleteSession *)

(** The values a session id argument can be: a number, or the string an
    HTML attribute holds.  Stored ids are numbers; [===] and [!==] between a
    number and a string never find them equal. *)
Inductive JsValue : Type :=
| JsNumber (n : Z)
| JsString (s : jsstring).

Definition strictEqId (id : Z) (v : JsValue) : bool :=
  match v with
  | JsNumber n => id =? n
  | JsString _ => false
  end.

(** Texts shown by [showNotification] and [showDebugInfo] in the methods of
    this part. *)
Inductive Shown : Type :=
| SessionDeleted        (* showNotification('测试记录已删除') *)
| StateReset.           (* showDebugInfo('✅ 状态已重置') *)

(** [deleteSession(sessionId)]; [confirmed] is the answer to [confirm]. *)
Definition deleteSession (confirmed : bool) (sessionId : JsValue) (r : t)
  : t * list Shown :=
  if negb confirmed then (r, [])
  else
    let r := set_testSessions
               (filter (fun s => negb (strictEqId (TestSession.id s) sessionId))
                       (testSessions r)) r in
    let r := set_testData
               (filter (fun record =>
                          negb (strictEqId (IssueRecord.sessionId record) sessionId))
                       (testData r)) r in
    (emit updateUI (emit saveSessionData (emit saveData r)), [SessionDeleted]).

(** The click handler of the history list reads the id from the
    [data-session-id] attribute, a string. *)
Definition handleHistoryDelete (confirmed : bool) (attribute : jsstring) (r : t)
  : t * list Shown :=
  deleteSession confirmed (JsString attribute) r.

(** [resetState] *)
Definition resetState (r : t) : t * list Shown :=
  let r := set_state STOPPED r in
  let r := set_isRecording false r in
  let r := set_isRecordingAudio false r in
  let r := if timerInterval r then set_timerInterval false r else r in
  (emit updateUI r, [StateReset]).

(** *** calculateSessionDuration *)

(** [`${n}`] for an integer. *)
Definition decimal (n : Z) : jsstring :=
  js (NilEmpty.string_of_int (Z.to_int n)).

(** The three numbers the function computes from [diff = end - start]:
    [%] is the remainder with the sign of the dividend, [Math.floor] of a
    quotient of integers is the floor division. *)
Definition hours (diff : Z) : Z := diff / 3600000.
Definition minutes (diff : Z) : Z := Z.rem diff 3600000 / 60000.
Definition seconds (diff : Z) : Z := Z.rem diff 60000 / 1000.

Definition calculateSessionDuration (session : TestSession.t) : jsstring :=
  match TestSession.endTime session with
  | None => js "进行中"
  | Some ended =>
      let diff := ended - TestSession.startTime session in
      if hours diff >? 0 then
        decimal (hours diff) ++ js "h " ++ decimal (minutes diff) ++ js "m "
                ++ decimal (seconds diff) ++ js "s"
      else if minutes diff >? 0 then
        decimal (minutes diff) ++ js "m " ++ decimal (seconds diff) ++ js "s"
      else
        decimal (seconds diff) ++ js "s"
  end.

(** *** updateTimer *)

(** [s.padStart(2, '0')] *)
Definition padStart2 (s : jsstring) : jsstring :=
  List.concat (repeat (js "0") (2 - List.length s)) ++ s.

(** [updateTimer]: the text written to the timer display, if any, and the
    controller after the reading of the clock.  A [startTime] of 0 is falsy
    like a missing one.  The three numbers are computed as in
    [calculateSessionDuration]. *)
Definition updateTimer (host : Host) (r : t) : option jsstring * t :=
  match startTime r with
  | None => (None, r)
  | Some started =>
      if started =? 0 then (None, r)
      else
        let (now, r) := readClock host r in
        let elapsed := now - started in
        (Some (padStart2 (decimal (hours elapsed)) ++ js ":"
               ++ padStart2 (decimal (minutes elapsed)) ++ js ":"
               ++ padStart2 (decimal (seconds elapsed))), r)
  end.

(** *** handleQuickRecord, from the button's [data-type] *)

Definition typeText (type : jsstring) : jsstring :=
  if strictEq type (js "safety") then js "安全接管"
  else if strictEq type (js "efficiency") then js "效率接管"
  else if strictEq type (js "experience") then js "体验问题"
  else [].

End History.

(* ================================================================== *)
(** ** Events from the recognition service *)
(* ================================================================== *)

Module Inbound.

Local Open Scope string_scope.
Local Open Scope list_scope.
Local Open Scope Z_scope.

Import Recorder.

(** What [handleAliyunWebSocketMessage] receives: data that [JSON.parse]
    rejects or that has no header (either way the [catch] only logs), or an
    envelope.  [status] is [header.status], 0 when absent; [result] is
    [payload.result], a string in the result events of the service. *)
Inductive Message : Type :=
| Unreadable
| Envelope (status : Z) (status_text name result : jsstring).

(** The texts [showDebugInfo] is called with. *)
Inductive Shown : Type :=
| InvalidParameter      (* 40000000 客户端错误：参数无效 *)
| TaskNotFound          (* 40000001 客户端错误：任务不存在 *)
| TaskCompleted         (* 40000002 客户端错误：任务已完成 *)
| TaskBusy              (* 40000003 客户端错误：任务正在处理中 *)
| TokenInvalid          (* 40400018 认证错误：Token无效或已过期 *)
| ServerError           (* 50000000 服务器内部错误 *)
| UnknownError (status : Z) (status_text : jsstring)
| SessionStarted        (* 阿里云识别会话已开始 *)
| RecognitionCompleted. (* 语音识别完成 *)

Definition errorText (status : Z) (status_text : jsstring) : Shown :=
  if status =? 40000000 then InvalidParameter
  else if status =? 40000001 then TaskNotFound
  else if status =? 40000002 then TaskCompleted
  else if status =? 40000003 then TaskBusy
  else if status =? 40400018 then TokenInvalid
  else if status =? 50000000 then ServerError
  else UnknownError status status_text.

(** [handleAliyunWebSocketMessage].  [displaySubtitle] is recorded as a
    call: what it does to the page (the subtitle, and the entry of the
    on-page voice history, labelled with a time of its own taken from the
    clock) is not part of the controller, and that reading of the clock is
    not among those [reads] counts, which are the readings the controller
    stores (ids, timestamps, session times). *)
Definition handleAliyunWebSocketMessage (host : Host) (m : Message) (r : t)
  : t * list Shown :=
  match m with
  | Unreadable => (r, [])
  | Envelope status status_text name result =>
      if negb (status =? 0) && negb (status =? 20000000) then
        (r, [errorText status status_text])
      else if strictEq name (js "TranscriptionStarted") then
        (r, [SessionStarted])
      else if strictEq name (js "TranscriptionResultChanged") then
        (emit (displaySubtitle result) r, [])
      else if strictEq name (js "SentenceEnd") then
        (processVoiceInput host result (emit (displaySubtitle result) r), [])
      else if strictEq name (js "TranscriptionCompleted") then
        (r, [RecognitionCompleted])
      else (r, [])
  end.

End Inbound.

(* ================================================================== *)
(** ** What a call leaves alone *)
(* ================================================================== *)

Module Frame.

Import Recorder.

(** The log of [r'] is the log of [r] followed by calls that all satisfy
    [P]. *)
Definition logGrows (P : Effect -> Prop) (r r' : t) : Prop :=
  exists tail, effects r' = effects r ++ tail /\ Forall P tail.

Definition notDebug (e : Effect) : Prop := forall d, e <> showDebugInfo d.

Definition notKeywordDebug (e : Effect) : Prop :=
  forall subTypes, e <> showDebugInfo (KeywordMatched subTypes).

(** The session fields and the recording flags are the same. *)
Definition controlKept (r r' : t) : Prop :=
  testSessions r' = testSessions r
  /\ currentSession r' = currentSession r
  /\ isRecording r' = isRecording r
  /\ state r' = state r.

(** The store of [r'] is the store of [r] with at most [n] records
    appended. *)
Definition storeGrows (n : nat) (r r' : t) : Prop :=
  exists added, testData r' = testData r ++ added
                /\ (List.length added <= n)%nat.

(** The number of [StopTranscription] messages sent in a log. *)
Definition stopsSent (log : list Effect) : nat :=
  List.length (filter (fun e => match e with
                                | websocket_send StopTranscription => true
                                | _ => false
                                end) log).

(** The controller after the script processor has delivered [blocks], one
    [onaudioprocess] event each. *)
Definition feed (blocks : list (list Pcm.float)) (r : t) : t :=
  fold_left (fun acc block => onaudioprocess block acc) blocks r.

(** What holds of the controller between two calls of its methods: the
    state is one of the two resting states and agrees with the recording
    flag and with the timer; while recording, the current session is open
    and unsealed; and the history holds sealed sessions only. *)
Definition settled (r : t) : Prop :=
  (state r = STOPPED \/ state r = RECORDING)
  /\ (isRecording r = true <-> state r = RECORDING)
  /\ timerInterval r = isRecording r
  /\ (isRecording r = true ->
      exists s, currentSession r = Some s
                /\ TestSession.endTime s = None
                /\ TestSession.recordCount s = 0%nat)
  /\ Forall (fun s => TestSession.endTime s <> None) (testSessions r).

(** The fields [settled] reads, apart from the store. *)
Definition restKept (r r' : t) : Prop :=
  controlKept r r' /\ timerInterval r' = timerInterval r.

End Frame.

(* ================================================================== *)
(** * Verification *)
(* ================================================================== *)

(** ** The sample conversion *)

Section PcmFacts.

Import Pcm.
Local Open Scope Q_scope.

Lemma Qltb_true (a b : Q) : Qltb a b = true <-> a < b.
Proof.
  unfold Qltb. rewrite negb_true_iff, <- not_true_iff_false, Qle_bool_iff.
  split; [apply Qnot_le_lt | apply Qlt_not_le].
Qed.

Lemma Qltb_false (a b : Q) : Qltb a b = false <-> b <= a.
Proof. unfold Qltb. rewrite negb_false_iff. apply Qle_bool_iff. Qed.

Lemma Qltb_comp (a a' b : Q) : a == a' -> Qltb a b = Qltb a' b.
Proof.
  intros E. destruct (Qltb a' b) eqn:H.
  - apply Qltb_true. rewrite E. now apply Qltb_true.
  - apply Qltb_false. rewrite E. now apply Qltb_false.
Qed.

Lemma truncate_comp (a a' : Q) : a == a' -> truncate a = truncate a'.
Proof.
  intros E. unfold truncate. rewrite (Qltb_comp 0 E).
  destruct (Qltb a' 0); now rewrite E.
Qed.

(** Storing an integer of the 16-bit range in an [Int16Array] keeps it. *)
Lemma wrap16_in_range (z : Z) :
  (-32768 <= z <= 32767)%Z -> wrap16 z = z.
Proof.
  intros Hz. unfold wrap16.
  destruct (Z_lt_le_dec z 0) as [Hneg | Hpos].
  - replace (z mod 65536)%Z with (z + 65536)%Z.
    + destruct (Z.leb_spec 32768 (z + 65536)); lia.
    + apply Z.mod_unique with (q := (-1)%Z); lia.
  - rewrite Z.mod_small by lia.
    destruct (Z.leb_spec 32768 z); lia.
Qed.

(** The scaled sample of a clamped input, truncated, is a 16-bit integer. *)
Lemma truncate_scaled_range (s : Q) :
  -1 <= s <= 1 ->
  (-32768 <= truncate (if Qltb s 0 then s * inject_Z 0x8000
                       else s * inject_Z 0x7FFF) <= 32767)%Z.
Proof.
  intros [Hlo Hhi]. unfold truncate.
  destruct (Qltb s 0) eqn:Hs.
  - apply Qltb_true in Hs.
    assert (Hneg : s * inject_Z 0x8000 < 0).
    { rewrite <- (Qmult_0_l (inject_Z 0x8000)).
      apply Qmult_lt_compat_r; [reflexivity | exact Hs]. }
    apply Qltb_true in Hneg. rewrite Hneg.
    split.
    + rewrite <- (Qceiling_Z (-32768)).
      apply Qceiling_resp_le.
      setoid_replace (inject_Z (-32768)) with (-1 * inject_Z 0x8000) by reflexivity.
      apply Qmult_le_compat_r; [exact Hlo | discriminate].
    + apply Qltb_true in Hneg.
      assert (Qceiling (s * inject_Z 0x8000) <= Qceiling 0)%Z
        by (apply Qceiling_resp_le, Qlt_le_weak, Hneg).
      change (Qceiling 0) with 0%Z in H. lia.
  - apply Qltb_false in Hs.
    assert (Hpos : 0 <= s * inject_Z 0x7FFF).
    { rewrite <- (Qmult_0_l (inject_Z 0x7FFF)).
      apply Qmult_le_compat_r; [exact Hs | discriminate]. }
    apply Qltb_false in Hpos. rewrite Hpos.
    split.
    + apply Qltb_false in Hpos.
      assert (Qfloor 0 <= Qfloor (s * inject_Z 0x7FFF))%Z
        by (apply Qfloor_resp_le, Hpos).
      change (Qfloor 0) with 0%Z in H. lia.
    + rewrite <- (Qfloor_Z 32767).
      apply Qfloor_resp_le.
      setoid_replace (inject_Z 32767) with (1 * inject_Z 0x7FFF) by reflexivity.
      apply Qmult_le_compat_r; [exact Hhi | discriminate].
Qed.

(** On [-1, 1] the clamp returns its argument, up to equality of
    rationals. *)
Lemma clampSample_in_range (s : Q) :
  -1 <= s <= 1 -> exists s', clampSample (Finite s) = Finite s' /\ s' == s.
Proof.
  intros [Hlo Hhi]. unfold clampSample, Math_min1, Math_max_1.
  destruct (Qltb s 1) eqn:H1.
  - destruct (Qltb (-1) s) eqn:H2.
    + exists s. split; reflexivity.
    + exists (-1). split; [reflexivity |].
      apply Qltb_false in H2. now apply Qle_antisym.
  - exists 1. split; [reflexivity |].
    apply Qltb_false in H1. now apply Qle_antisym.
Qed.

Lemma scaled_comp (a a' : Q) :
  a == a' ->
  (if Qltb a 0 then a * inject_Z 0x8000 else a * inject_Z 0x7FFF)
  == (if Qltb a' 0 then a' * inject_Z 0x8000 else a' * inject_Z 0x7FFF).
Proof.
  intros E. rewrite (Qltb_comp 0 E). destruct (Qltb a' 0); now rewrite E.
Qed.

(** Both senders put on the socket the block converted sample by sample. *)
Lemma senders_convert_samplewise (block : list float) (r : Recorder.t) :
  Recorder.websocketOpen r = true ->
  Recorder.isRecordingAudio r = true ->
  Recorder.effects (Recorder.sendPCMDataDirectly block r)
  = (Recorder.effects r
     ++ [Recorder.websocket_send (Recorder.PcmBlock (map pcm16Sample block))])%list
  /\ Recorder.effects (Recorder.onaudioprocess block r)
     = (Recorder.effects r
        ++ [Recorder.websocket_send (Recorder.PcmBlock (map pcm16Sample block))])%list.
Proof.
  intros Hopen Haudio.
  unfold Recorder.sendPCMDataDirectly, Recorder.onaudioprocess.
  rewrite Hopen, Haudio. split; reflexivity.
Qed.

(** C1, counterexample: at [s = 1/2] the code stores 16383, while
    [round(s * 32768)] clamped to the 16-bit range is 16384 (the product is
    the integer 16384, so every rounding convention gives 16384). *)
Lemma C1_half_scale_sample_differs :
  -1 <= 1 # 2 <= 1
  /\ pcm16Sample (Finite (1 # 2)) = 16383%Z
  /\ specRoundedPcm16 (1 # 2) = 16384%Z.
Proof. repeat split; try discriminate; reflexivity. Qed.

(** C1, as amended: for every sample [s] in [-1, 1] the stored value is
    [s * 32768] for negative [s] and [s * 32767] otherwise, truncated toward
    zero; it lies in [-32768, 32767]; and the three boundary inputs give
    32767, -32768 and 0, where the value agrees with the rounded
    conversion. *)
Theorem C1_pcm16_truncates_asymmetric_scale (s : Q) :
  -1 <= s <= 1 ->
  pcm16Sample (Finite s)
  = truncate (if Qltb s 0 then s * inject_Z 32768 else s * inject_Z 32767)
  /\ (-32768 <= pcm16Sample (Finite s) <= 32767)%Z
  /\ pcm16Sample (Finite 1) = 32767%Z
  /\ pcm16Sample (Finite (-1)) = (-32768)%Z
  /\ pcm16Sample (Finite 0) = 0%Z
  /\ specRoundedPcm16 1 = 32767%Z
  /\ specRoundedPcm16 (-1) = (-32768)%Z
  /\ specRoundedPcm16 0 = 0%Z.
Proof.
  intros Hs.
  assert (Hval : pcm16Sample (Finite s)
                 = truncate (if Qltb s 0 then s * inject_Z 32768
                             else s * inject_Z 32767)).
  { destruct (clampSample_in_range Hs) as (s' & Hc & E).
    unfold pcm16Sample. rewrite Hc. cbn [ltZero].
    assert (Hs' : -1 <= s' <= 1) by (rewrite E; exact Hs).
    pose proof (truncate_scaled_range Hs') as Hr.
    rewrite <- (truncate_comp (scaled_comp E)).
    destruct (Qltb s' 0); cbn [scale toInt16]; now apply wrap16_in_range. }
  split; [exact Hval |].
  split; [rewrite Hval; exact (truncate_scaled_range Hs) |].
  repeat split; reflexivity.
Qed.

Lemma C1_pcm16_truncates_asymmetric_scale_witness :
  pcm16Sample (Finite (1 # 2)) = 16383%Z.
Proof.
  destruct (@C1_pcm16_truncates_asymmetric_scale (1 # 2)) as [H _].
  - split; discriminate.
  - rewrite H. reflexivity.
Defined.

End PcmFacts.

(** ** The store *)

Section StoreFacts.

Import Recorder.
Local Open Scope Z_scope.

Variable host : Host.

Lemma strictEq_refl (a : jsstring) : strictEq a a = true.
Proof. induction a as [| x a IH]; cbn; [reflexivity |]. now rewrite N.eqb_refl. Qed.

Lemma strictEq_eq (a b : jsstring) : strictEq a b = true <-> a = b.
Proof.
  split; [| intros ->; apply strictEq_refl].
  revert b. induction a as [| x a IH]; intros [| y b]; cbn; try discriminate.
  - reflexivity.
  - rewrite andb_true_iff, N.eqb_eq. intros [-> H]. f_equal. now apply IH.
Qed.

(** [addRecord] when no similar record is recent: two readings of the
    clock, one record appended, three calls out. *)
Lemma addRecord_appends type subType originalText r s :
  currentSession r = Some s ->
  find (similarRecent type subType (Date_now host (reads r)))
       (getCurrentSessionRecords r) = None ->
  addRecord host type subType originalText r
  = set_effects (effects r ++ [saveData; updateUI;
                               showRecordNotification
                                 (recordMade host type subType originalText r s)])
      (set_testData (testData r
                     ++ [recordMade host type subType originalText r s])
         (set_reads (S (S (reads r))) r)).
Proof.
  intros Hs Hfind. unfold addRecord. rewrite Hs. cbn [readClock].
  change (getCurrentSessionRecords (set_reads (S (reads r)) r))
    with (getCurrentSessionRecords r).
  rewrite Hfind. unfold emit, recordMade. cbn.
  now rewrite <- !app_assoc.
Qed.

(** [addRecord] when a similar record is recent: one reading of the clock
    and nothing else. *)
Lemma addRecord_suppressed type subType originalText r s x :
  currentSession r = Some s ->
  find (similarRecent type subType (Date_now host (reads r)))
       (getCurrentSessionRecords r) = Some x ->
  addRecord host type subType originalText r = set_reads (S (reads r)) r.
Proof.
  intros Hs Hfind. unfold addRecord. rewrite Hs. cbn [readClock].
  change (getCurrentSessionRecords (set_reads (S (reads r)) r))
    with (getCurrentSessionRecords r).
  now rewrite Hfind.
Qed.

(** [addRecord] with no session open returns at its first line. *)
Lemma addRecord_no_session type subType originalText r :
  currentSession r = None ->
  addRecord host type subType originalText r = r.
Proof. intros Hs. unfold addRecord. now rewrite Hs. Qed.

Lemma addRecords_no_session results text r :
  currentSession r = None -> addRecords host results text r = r.
Proof.
  intros Hs. unfold addRecords.
  induction results as [| x l IH]; cbn; [reflexivity |].
  now rewrite addRecord_no_session.
Qed.

Lemma find_none_iff {A : Type} (f : A -> bool) (l : list A) :
  find f l = None <-> forall x, In x l -> f x = false.
Proof.
  split; [apply find_none |].
  induction l as [| a l IH]; cbn; [reflexivity |].
  intros H. rewrite (H a (or_introl eq_refl)). apply IH.
  intros x Hx. apply H. now right.
Qed.

Lemma in_currentSessionRecords r s record :
  currentSession r = Some s ->
  In record (getCurrentSessionRecords r)
  <-> In record (testData r)
      /\ IssueRecord.sessionId record = TestSession.id s.
Proof.
  intros Hs. unfold getCurrentSessionRecords. rewrite Hs.
  rewrite filter_In, Z.eqb_eq. reflexivity.
Qed.

End StoreFacts.

(** ** Classification of a transcript *)

Section ClassifierFacts.

Import Recorder.
Local Open Scope Z_scope.

Lemma emit_testData e r : testData (emit e r) = testData r.
Proof. reflexivity. Qed.

Lemma emit_reads e r : reads (emit e r) = reads r.
Proof. reflexivity. Qed.

Lemma emit_testSessions e r : testSessions (emit e r) = testSessions r.
Proof. reflexivity. Qed.

Lemma emit_currentSession e r : currentSession (emit e r) = currentSession r.
Proof. reflexivity. Qed.

Lemma similarRecent_other_type type subType now record :
  IssueRecord.type record <> type ->
  similarRecent type subType now record = false.
Proof.
  intros Hne. unfold similarRecent.
  destruct (strictEq (IssueRecord.type record) type) eqn:E; [| reflexivity].
  apply strictEq_eq in E. contradiction.
Qed.

Lemma similarRecent_other_subType type subType now record :
  strictEq (IssueRecord.subType record) subType = false ->
  similarRecent type subType now record = false.
Proof.
  intros E. unfold similarRecent. rewrite E.
  now rewrite andb_false_r.
Qed.

(** Every row of a pattern table whose pattern matches contributes its
    entry, and nothing else is contributed. *)
Lemma pushMatches_In type table text e :
  In e (Classifier.pushMatches type table text)
  <-> exists p m, In p table
                  /\ matchAlternation (Classifier.pattern p) text = Some m
                  /\ e = Result.mk type (Classifier.p_subType p) (Some m).
Proof.
  unfold Classifier.pushMatches. rewrite in_flat_map. split.
  - intros (p & Hp & He).
    destruct (matchAlternation (Classifier.pattern p) text) as [m |] eqn:Hm.
    + destruct He as [<- | []]. now exists p, m.
    + destruct He.
  - intros (p & m & Hp & Hm & ->). exists p. split; [exact Hp |].
    rewrite Hm. now left.
Qed.

Lemma pushMatches_length type table text :
  List.length (Classifier.pushMatches type table text)
  = List.length
      (filter (fun p => match matchAlternation (Classifier.pattern p) text with
                        | Some _ => true
                        | None => false
                        end) table).
Proof.
  unfold Classifier.pushMatches.
  induction table as [| p table IH]; cbn [flat_map filter]; [reflexivity |].
  rewrite length_app, IH.
  destruct (matchAlternation (Classifier.pattern p) text); reflexivity.
Qed.

(** *** An undo phrase *)

Lemma testData_deleteLastRecord r :
  testData (deleteLastRecord r) = removelast (testData r).
Proof.
  unfold deleteLastRecord.
  destruct (rev (testData r)) as [| x l] eqn:E; [| reflexivity].
  apply (f_equal (@rev _)) in E. rewrite rev_involutive in E.
  now rewrite E.
Qed.

Lemma reads_deleteLastRecord r : reads (deleteLastRecord r) = reads r.
Proof. unfold deleteLastRecord. now destruct (rev (testData r)). Qed.

Lemma sessions_deleteLastRecord r :
  testSessions (deleteLastRecord r) = testSessions r
  /\ currentSession (deleteLastRecord r) = currentSession r.
Proof. unfold deleteLastRecord. now destruct (rev (testData r)). Qed.

(** C6: a transcript containing 删除上一条 or 撤销 makes [processVoiceInput]
    call [deleteLastRecord] and return: no strategy runs, no record is
    added, the clock is not read, and the store loses its last record
    whatever session that record belongs to (and stays empty when it is
    empty). *)
Theorem C6_undo_phrase_deletes_last_of_store
        (host : Host) (text : jsstring) (r : t) :
  includes text (js "删除上一条") = true \/ includes text (js "撤销") = true ->
  processVoiceInput host text r
  = emit (showDebugInfo DeleteExecuted)
         (deleteLastRecord
            (emit (displaySubtitle text)
                  (emit (showDebugInfo (VoiceInput text)) r)))
  /\ testData (processVoiceInput host text r) = removelast (testData r)
  /\ reads (processVoiceInput host text r) = reads r
  /\ testSessions (processVoiceInput host text r) = testSessions r
  /\ currentSession (processVoiceInput host text r) = currentSession r.
Proof.
  intros Hcmd.
  assert (Hdel : Classifier.isDeleteCommand text = true).
  { unfold Classifier.isDeleteCommand. apply orb_true_iff. exact Hcmd. }
  assert (Heq : processVoiceInput host text r
                = emit (showDebugInfo DeleteExecuted)
                       (deleteLastRecord
                          (emit (displaySubtitle text)
                                (emit (showDebugInfo (VoiceInput text)) r)))).
  { unfold processVoiceInput. now rewrite Hdel. }
  split; [exact Heq |]. rewrite Heq.
  set (r0 := emit (displaySubtitle text) (emit (showDebugInfo (VoiceInput text)) r)).
  rewrite emit_testData, emit_reads, emit_testSessions, emit_currentSession.
  rewrite testData_deleteLastRecord, reads_deleteLastRecord.
  destruct (sessions_deleteLastRecord r0) as [-> ->].
  repeat split.
Qed.

(** The last record of the store goes even when it belongs to a session
    other than the current one. *)
Lemma C6_undo_phrase_deletes_last_of_store_witness :
  List.length (testData (Page.secondSession Page.ticking)) = 1%nat
  /\ getCurrentSessionRecords (Page.secondSession Page.ticking) = []
  /\ testData (processVoiceInput Page.ticking Page.undoLast
                                  (Page.secondSession Page.ticking))
     = [].
Proof.
  split; [vm_compute; reflexivity |].
  split; [vm_compute; reflexivity |].
  destruct (@C6_undo_phrase_deletes_last_of_store
              Page.ticking Page.undoLast (Page.secondSession Page.ticking))
    as (_ & H & _).
  - left. vm_compute. reflexivity.
  - rewrite H. vm_compute. reflexivity.
Defined.

(** *** No session open *)

(** C10: with no session open ([currentSession] is null) [addRecord]
    returns at once and leaves the controller as it was; hence a transcript
    that is not an undo command, whatever it classifies to, leaves
    [testData] unchanged: its records are dropped, without reading the
    clock, saving, or notifying. *)
Theorem C10_addRecord_without_session_is_noop
        (host : Host) (type subType originalText : jsstring) (r : t) :
  currentSession r = None ->
  addRecord host type subType originalText r = r
  /\ (forall text,
        Classifier.isDeleteCommand text = false ->
        let r' := processVoiceInput host text r in
        testData r' = testData r
        /\ currentSession r' = None
        /\ reads r' = reads r
        /\ (forall e, In e (effects r') ->
                      In e (effects r) \/ exists d, e = showDebugInfo d
                      \/ e = displaySubtitle text)).
Proof.
  intros Hs. split; [now apply addRecord_no_session |].
  intros text Hdel. cbv zeta.
  assert (Hlog : forall d,
             let r' := emit (showDebugInfo d)
                            (emit (displaySubtitle text)
                                  (emit (showDebugInfo (VoiceInput text)) r)) in
             testData r' = testData r /\ currentSession r' = None
             /\ reads r' = reads r
             /\ (forall e, In e (effects r') ->
                           In e (effects r) \/ exists d, e = showDebugInfo d
                           \/ e = displaySubtitle text)).
  { intros d. cbv zeta. repeat split; try assumption.
    intros e. unfold emit. cbn [effects set_effects].
    rewrite !in_app_iff. cbn [In].
    intros [[[H | [<- | []]] | [<- | []]] | [<- | []]].
    - now left.
    - right. eexists. now left.
    - right. exists d. now right.
    - right. eexists. now left. }
  unfold processVoiceInput. rewrite Hdel.
  destruct (Classifier.directTypeMatching text) as [d |].
  { rewrite addRecord_no_session by exact Hs. apply Hlog. }
  destruct (Classifier.smartRecognitionMultiple text) as [[| x l] |].
  2: { rewrite addRecords_no_session by exact Hs. apply Hlog. }
  all: destruct (Classifier.keywordRecognitionMultiple text) as [[| y k] |];
    try (rewrite addRecords_no_session by exact Hs; apply Hlog);
    destruct (Classifier.handleUserQuestions text); apply Hlog.
Qed.

Lemma C10_addRecord_without_session_is_noop_witness :
  addRecord Page.ticking Classifier.SAFETY Page.lane Page.lane constructor
  = constructor
  /\ testData (processVoiceInput Page.ticking Page.weavingAndBraking constructor)
     = [].
Proof.
  destruct (@C10_addRecord_without_session_is_noop
              Page.ticking Classifier.SAFETY Page.lane Page.lane constructor
              eq_refl) as [Hadd Hvoice].
  split; [exact Hadd |].
  destruct (Hvoice Page.weavingAndBraking) as [Hdata _].
  - vm_compute. reflexivity.
  - exact Hdata.
Defined.

(** *** Two issues in one utterance *)

Lemma weaving_not_command :
  Classifier.isDeleteCommand Page.weavingAndBraking = false.
Proof. vm_compute. reflexivity. Qed.

Lemma weaving_no_direct_match :
  Classifier.directTypeMatching Page.weavingAndBraking = None.
Proof. vm_compute. reflexivity. Qed.

Lemma weaving_smart_matches :
  Classifier.smartRecognitionMultiple Page.weavingAndBraking
  = Some [ Result.mk Classifier.EXPERIENCE (js "画龙") (Some (js "画龙"));
           Result.mk Classifier.EXPERIENCE (js "重刹") (Some (js "重刹")) ].
Proof. vm_compute. reflexivity. Qed.

(** C7: for 车子画龙又重刹 direct matching finds nothing, the smart
    multi-pattern strategy returns the two entries 画龙 and 重刹 of type
    体验问题, and, in an open session holding no 体验问题 record yet,
    [processVoiceInput] appends exactly these two records.  In general each
    table row whose pattern matches contributes exactly one entry. *)
Theorem C7_weaving_and_braking_two_records
        (host : Host) (r : t) (s : TestSession.t) :
  currentSession r = Some s ->
  (forall record, In record (getCurrentSessionRecords r) ->
                  IssueRecord.type record <> Classifier.EXPERIENCE) ->
  Classifier.directTypeMatching Page.weavingAndBraking = None
  /\ Classifier.smartRecognitionMultiple Page.weavingAndBraking
     = Some [ Result.mk Classifier.EXPERIENCE (js "画龙") (Some (js "画龙"));
              Result.mk Classifier.EXPERIENCE (js "重刹") (Some (js "重刹")) ]
  /\ testData (processVoiceInput host Page.weavingAndBraking r)
     = testData r
       ++ [ IssueRecord.mk (Date_now host (reads r))
                           (Date_now host (1 + reads r))
                           Classifier.EXPERIENCE (js "画龙") (js "画龙")
                           (TestSession.id s) (TestSession.name s);
            IssueRecord.mk (Date_now host (2 + reads r))
                           (Date_now host (3 + reads r))
                           Classifier.EXPERIENCE (js "重刹") (js "重刹")
                           (TestSession.id s) (TestSession.name s) ]
  /\ (forall type table text,
        List.length (Classifier.pushMatches type table text)
        = List.length
            (filter (fun p =>
                       match matchAlternation (Classifier.pattern p) text with
                       | Some _ => true
                       | None => false
                       end) table)).
Proof.
  intros Hs Hfresh.
  split; [exact weaving_no_direct_match |].
  split; [exact weaving_smart_matches |].
  split; [| intros; apply pushMatches_length].
  unfold processVoiceInput.
  rewrite weaving_not_command, weaving_no_direct_match, weaving_smart_matches.
  set (r0 := emit _ (emit _ (emit _ r))).
  unfold addRecords. cbn [fold_left Result.type Result.subType Result.matchedText].
  assert (Hm1 : matchedTextOr (Some (js "画龙")) Page.weavingAndBraking = js "画龙")
    by (vm_compute; reflexivity).
  assert (Hm2 : matchedTextOr (Some (js "重刹")) Page.weavingAndBraking = js "重刹")
    by (vm_compute; reflexivity).
  rewrite Hm1, Hm2.
  assert (Hs0 : currentSession r0 = Some s) by exact Hs.
  rewrite (@addRecord_appends host _ _ _ r0 s Hs0).
  2: { apply find_none_iff. intros x Hx.
       apply similarRecent_other_type. now apply Hfresh. }
  set (rec1 := recordMade host Classifier.EXPERIENCE (js "画龙") (js "画龙") r0 s).
  set (r1 := set_effects _ (set_testData _ (set_reads _ r0))).
  assert (Hs1 : currentSession r1 = Some s) by exact Hs.
  assert (Hnone : find (similarRecent Classifier.EXPERIENCE (js "重刹")
                                      (Date_now host (reads r1)))
                       (getCurrentSessionRecords r1) = None).
  { apply find_none_iff. intros x Hx.
    apply (in_currentSessionRecords r1 x Hs1) in Hx.
    destruct Hx as [Hx Hsess].
    change (testData r1) with (testData r ++ [rec1]) in Hx.
    apply in_app_or in Hx. destruct Hx as [Hx | [<- | []]].
    - apply similarRecent_other_type. apply Hfresh.
      apply (in_currentSessionRecords r x Hs). now split.
    - apply similarRecent_other_subType. vm_compute. reflexivity. }
  rewrite (@addRecord_appends host _ _ _ r1 s Hs1 Hnone).
  cbn [testData set_effects set_testData set_reads].
  change (testData r1) with (testData r ++ [rec1]).
  rewrite <- app_assoc.
  reflexivity.
Qed.

Lemma C7_weaving_and_braking_two_records_witness :
  map IssueRecord.subType
      (testData (processVoiceInput Page.ticking Page.weavingAndBraking
                                   (Page.recording Page.ticking)))
  = [js "画龙"; js "重刹"].
Proof.
  destruct (@C7_weaving_and_braking_two_records
              Page.ticking (Page.recording Page.ticking)
              (TestSession.mk 1700000000000 (js "测试_20231114_221320")
                              1700000002000 None 0))
    as (_ & _ & H & _).
  - vm_compute. reflexivity.
  - intros record Hin. vm_compute in Hin. destruct Hin.
  - rewrite H. vm_compute. reflexivity.
Defined.

(** *** A category label followed by a dash *)

Lemma pressLine_not_command :
  Classifier.isDeleteCommand Page.pressLineThenStuck = false.
Proof. vm_compute. reflexivity. Qed.

Lemma pressLine_direct_match :
  Classifier.directTypeMatching Page.pressLineThenStuck
  = Some (Result.mk Classifier.SAFETY Classifier.SAFETY None).
Proof. vm_compute. reflexivity. Qed.

Lemma pressLine_keyword_matches :
  Classifier.keywordRecognitionMultiple Page.pressLineThenStuck
  = Some [ Result.mk Classifier.SAFETY (js "压线") (Some (js "安全接管-压线"));
           Result.mk Classifier.EFFICIENCY (js "卡死") (Some (js "效率接管-卡死")) ].
Proof. vm_compute. reflexivity. Qed.

(** C2, counterexample: in a session just started, the transcript
    安全接管-压线，效率接管-卡死 leaves one record in the store, of type and
    subType 安全接管: direct type matching, which runs first, finds 安全接管
    in the cleaned text and returns. *)
Lemma C2_press_line_yields_one_direct_record :
  Classifier.directTypeMatching Page.pressLineThenStuck
  = Some (Result.mk Classifier.SAFETY Classifier.SAFETY None)
  /\ map (fun x => (IssueRecord.type x, IssueRecord.subType x))
         (testData (processVoiceInput Page.ticking Page.pressLineThenStuck
                                      (Page.recording Page.ticking)))
     = [(js "安全接管", js "安全接管")].
Proof. split; vm_compute; reflexivity. Qed.

(** C2, as amended: for 安全接管-压线，效率接管-卡死 direct type matching
    succeeds with type and subType 安全接管, so [processVoiceInput], in an
    open session holding no 安全接管 record yet, appends exactly one record,
    whose original text is the whole transcript.  The delimiter strategy
    [keywordRecognitionMultiple], applied to the same text, returns the two
    entries 安全接管/压线 and 效率接管/卡死; [processVoiceInput] returns
    before calling it. *)
Theorem C2_press_line_direct_match_wins
        (host : Host) (r : t) (s : TestSession.t) :
  currentSession r = Some s ->
  (forall record, In record (getCurrentSessionRecords r) ->
                  IssueRecord.type record <> Classifier.SAFETY) ->
  Classifier.directTypeMatching Page.pressLineThenStuck
  = Some (Result.mk Classifier.SAFETY Classifier.SAFETY None)
  /\ testData (processVoiceInput host Page.pressLineThenStuck r)
     = testData r
       ++ [ IssueRecord.mk (Date_now host (reads r))
                           (Date_now host (1 + reads r))
                           Classifier.SAFETY Classifier.SAFETY
                           Page.pressLineThenStuck
                           (TestSession.id s) (TestSession.name s) ]
  /\ Classifier.keywordRecognitionMultiple Page.pressLineThenStuck
     = Some [ Result.mk Classifier.SAFETY (js "压线") (Some (js "安全接管-压线"));
              Result.mk Classifier.EFFICIENCY (js "卡死")
                        (Some (js "效率接管-卡死")) ].
Proof.
  intros Hs Hfresh.
  split; [exact pressLine_direct_match |].
  split; [| exact pressLine_keyword_matches].
  unfold processVoiceInput.
  rewrite pressLine_not_command, pressLine_direct_match.
  cbn [Result.type Result.subType].
  set (r0 := emit _ (emit _ (emit _ r))).
  assert (Hs0 : currentSession r0 = Some s) by exact Hs.
  rewrite (@addRecord_appends host _ _ _ r0 s Hs0).
  - reflexivity.
  - apply find_none_iff. intros x Hx.
    apply similarRecent_other_type. now apply Hfresh.
Qed.

Lemma C2_press_line_direct_match_wins_witness :
  List.length
    (testData (processVoiceInput Page.ticking Page.pressLineThenStuck
                                 (Page.recording Page.ticking)))
  = 1%nat.
Proof.
  destruct (@C2_press_line_direct_match_wins
              Page.ticking (Page.recording Page.ticking)
              (TestSession.mk 1700000000000 (js "测试_20231114_221320")
                              1700000002000 None 0))
    as (_ & H & _).
  - vm_compute. reflexivity.
  - intros record Hin. vm_compute in Hin. destruct Hin.
  - rewrite H. vm_compute. reflexivity.
Defined.

End ClassifierFacts.

(** ** Precedence of direct matching over the delimiter strategy *)

Section Precedence.

Local Open Scope list_scope.

Lemma startsWith_app (p s : jsstring) : startsWith p (p ++ s) = true.
Proof.
  induction p as [| x p IH]; cbn; [reflexivity |].
  now rewrite N.eqb_refl.
Qed.

Lemma includes_at_head (p s : jsstring) :
  startsWith p s = true -> includes s p = true.
Proof. intros H. destruct s; cbn [includes]; now rewrite H. Qed.

Lemma includes_middle (a p b : jsstring) : includes (a ++ p ++ b) p = true.
Proof.
  induction a as [| c a IH].
  - cbn [app]. apply includes_at_head, startsWith_app.
  - cbn [app includes].
    destruct (startsWith p (c :: a ++ p ++ b)); [reflexivity | exact IH].
Qed.

Lemma stripPrefix_Some (p s r : jsstring) :
  stripPrefix p s = Some r -> s = p ++ r.
Proof.
  revert s. induction p as [| x p IH]; intros [| y s]; cbn; try discriminate.
  - now intros [= <-].
  - now intros [= <-].
  - destruct (N.eqb_spec x y) as [-> |]; [| discriminate].
    intros H. f_equal. now apply IH.
Qed.

(** A match of the keyword pattern sits on an occurrence of its label. *)
Lemma matchAllFrom_occurrence (label : jsstring) (skip : nat) (s m : jsstring) :
  In m (Classifier.matchAllFrom label skip s) ->
  exists a b, s = a ++ label ++ b.
Proof.
  revert skip. induction s as [| c s IH]; intros skip; cbn [Classifier.matchAllFrom].
  - intros [].
  - destruct skip as [| k].
    + destruct (Classifier.keywordAt label (c :: s)) as [m0 |] eqn:Hk.
      * intros _. unfold Classifier.keywordAt in Hk.
        destruct (stripPrefix label (c :: s)) as [[| d r] |] eqn:Hp;
          try discriminate.
        apply stripPrefix_Some in Hp. exists [], (d :: r). exact Hp.
      * intros Hin. destruct (IH _ Hin) as (a & b & ->).
        now exists (c :: a), b.
    + intros Hin. destruct (IH _ Hin) as (a & b & ->).
      now exists (c :: a), b.
Qed.

Lemma keywordEntries_occurrence (label text : jsstring) (e : Result.t) :
  In e (Classifier.keywordEntries label text) ->
  exists a b, text = a ++ label ++ b.
Proof.
  unfold Classifier.keywordEntries, Classifier.matchAll.
  rewrite in_flat_map. intros (m & Hm & _).
  exact (@matchAllFrom_occurrence _ _ _ _ Hm).
Qed.

Lemma removeClass_middle (cls : codeunit -> bool) (a p b : jsstring) :
  forallb (fun c => negb (cls c)) p = true ->
  removeClass cls (a ++ p ++ b) = removeClass cls a ++ p ++ removeClass cls b.
Proof.
  intros Hp. unfold removeClass. rewrite !filter_app. do 2 f_equal.
  induction p as [| x p IH]; [reflexivity |].
  cbn in Hp |- *. apply andb_true_iff in Hp. destruct Hp as [Hx Hp].
  rewrite Hx. f_equal. now apply IH.
Qed.

Lemma trimStart_middle (a p b : jsstring) (c : codeunit) :
  isWhiteSpace c = false ->
  exists a', trimStart (a ++ (c :: p) ++ b) = a' ++ (c :: p) ++ b.
Proof.
  intros Hc. induction a as [| x a [a' IH]].
  - exists []. cbn. now rewrite Hc.
  - cbn [app trimStart]. destruct (isWhiteSpace x).
    + exists a'. exact IH.
    + now exists (x :: a).
Qed.

Lemma trim_middle (a p b : jsstring) (first last : codeunit) (mid mid' : jsstring) :
  p = first :: mid -> rev p = last :: mid' ->
  isWhiteSpace first = false -> isWhiteSpace last = false ->
  exists a' b', trim (a ++ p ++ b) = a' ++ p ++ b'.
Proof.
  intros Hp Hrev Hfirst Hlast. unfold trim, trimEnd.
  destruct (@trimStart_middle a mid b first Hfirst) as [a' Ha]. rewrite <- Hp in Ha.
  rewrite Ha. rewrite !rev_app_distr, Hrev, <- app_assoc.
  destruct (@trimStart_middle (rev b) mid' (rev a') last Hlast) as [b' Hb].
  rewrite Hb. exists a', (rev b').
  rewrite !rev_app_distr, <- Hrev, !rev_involutive, <- app_assoc. reflexivity.
Qed.

(** The facts about a category label that carry an occurrence of it
    through the cleaning of [directTypeMatching]. *)
Lemma cleanText_keeps_label (label a b : jsstring) :
  In label [Classifier.EXPERIENCE; Classifier.SAFETY; Classifier.EFFICIENCY] ->
  exists a' b', Classifier.cleanText (a ++ label ++ b) = a' ++ label ++ b'.
Proof.
  intros Hl. unfold Classifier.cleanText.
  assert (Hfacts :
            forallb (fun c => negb (Classifier.isSpaceVariant c)) label = true
            /\ forallb (fun c => negb (Classifier.isPunctuation c)) label = true
            /\ toLowerCase label = label
            /\ exists first mid last mid',
                label = first :: mid /\ rev label = last :: mid'
                /\ isWhiteSpace first = false /\ isWhiteSpace last = false).
  { cbn [In] in Hl. destruct Hl as [<- | [<- | [<- | []]]];
      (split; [vm_compute; reflexivity |]);
      (split; [vm_compute; reflexivity |]);
      (split; [vm_compute; reflexivity |]);
      do 4 eexists; repeat split; vm_compute; reflexivity. }
  destruct Hfacts as (Hsp & Hpu & Hlow & first & mid & last & mid' & Hp & Hrev & Hf & Hla).
  rewrite (@removeClass_middle _ a label b Hsp).
  rewrite (@removeClass_middle _ _ label _ Hpu).
  unfold toLowerCase. rewrite !map_app. fold (toLowerCase label). rewrite Hlow.
  exact (@trim_middle _ _ _ _ _ _ _ Hp Hrev Hf Hla).
Qed.

Lemma exactPass_on_label (label clean : jsstring) :
  In label [Classifier.EXPERIENCE; Classifier.SAFETY; Classifier.EFFICIENCY] ->
  includes clean label = true ->
  Classifier.exactPass clean <> None.
Proof.
  intros Hl Hinc. unfold Classifier.exactPass.
  assert (Hgroup : exists m, In m Classifier.directMatches
                             /\ In label (Classifier.patterns m)
                             /\ removeClass Classifier.isSpaceVariant
                                            (toLowerCase label) = label).
  { cbn [In] in Hl. destruct Hl as [<- | [<- | [<- | []]]].
    - exists (nth 2 Classifier.directMatches
                  (Classifier.Build_DirectMatch [] [] [])).
      repeat split; vm_compute; tauto.
    - exists (nth 0 Classifier.directMatches
                  (Classifier.Build_DirectMatch [] [] [])).
      repeat split; vm_compute; tauto.
    - exists (nth 1 Classifier.directMatches
                  (Classifier.Build_DirectMatch [] [] [])).
      repeat split; vm_compute; tauto. }
  destruct Hgroup as (m & Hm & Hpat & Hclean).
  destruct (find (fun m0 => existsb (Classifier.exactHit clean)
                                    (Classifier.patterns m0))
                 Classifier.directMatches) eqn:Hfind; [discriminate |].
  pose proof (find_none _ _ Hfind m Hm) as Hnone. cbn beta in Hnone.
  assert (Hhit : existsb (Classifier.exactHit clean) (Classifier.patterns m) = true).
  { apply existsb_exists. exists label. split; [exact Hpat |].
    unfold Classifier.exactHit. rewrite Hclean, Hinc. apply orb_true_r. }
  rewrite Hhit in Hnone. discriminate.
Qed.

(** Whenever the delimiter strategy would return entries, direct type
    matching succeeds: [processVoiceInput], which tries direct matching
    first and returns on success, never acts on the delimiter strategy. *)
Lemma keyword_strategy_shadowed (text : jsstring) :
  Classifier.keywordRecognitionMultiple text <> None ->
  Classifier.directTypeMatching text <> None.
Proof.
  intros Hkw.
  assert (Hocc : exists label a b,
             In label [Classifier.EXPERIENCE; Classifier.SAFETY;
                       Classifier.EFFICIENCY]
             /\ text = a ++ label ++ b).
  { unfold Classifier.keywordRecognitionMultiple, Classifier.orNull in Hkw.
    destruct (Classifier.keywordEntries Classifier.EXPERIENCE text
              ++ Classifier.keywordEntries Classifier.SAFETY text
              ++ Classifier.keywordEntries Classifier.EFFICIENCY text)
      as [| e l] eqn:E; [contradiction |].
    assert (Hin : In e (Classifier.keywordEntries Classifier.EXPERIENCE text
                        ++ Classifier.keywordEntries Classifier.SAFETY text
                        ++ Classifier.keywordEntries Classifier.EFFICIENCY text))
      by (rewrite E; now left).
    rewrite !in_app_iff in Hin.
    destruct Hin as [Hin | [Hin | Hin]];
      destruct (@keywordEntries_occurrence _ _ _ Hin) as (a & b & Ht);
      eexists; exists a, b; (split; [| exact Ht]); cbn; tauto. }
  destruct Hocc as (label & a & b & Hl & ->).
  destruct (@cleanText_keeps_label label a b Hl) as (a' & b' & Hclean).
  unfold Classifier.directTypeMatching. cbv zeta. rewrite Hclean.
  pose proof (@exactPass_on_label label (a' ++ label ++ b') Hl
                                  (includes_middle a' label b')) as Hex.
  destruct (Classifier.exactPass (a' ++ label ++ b')); [discriminate |].
  contradiction.
Qed.

End Precedence.

(** ** De-duplication *)

Section DedupFacts.

Import Recorder.
Local Open Scope Z_scope.





End DedupFacts.

(** ** Session life cycle *)

Section SessionFacts.

Import Recorder.
Local Open Scope Z_scope.

(** What [stopTest] does to the store and the session fields when it is
    called while recording with session [s] open. *)
Lemma stopTest_while_recording (host : Host) (r : t) (s : TestSession.t) :
  isRecording r = true ->
  currentSession r = Some s ->
  let sealed :=
    TestSession.mk (TestSession.id s) (TestSession.name s)
                   (TestSession.startTime s)
                   (Some (Date_now host (reads r)))
                   (List.length
                      (filter (fun record =>
                                 IssueRecord.sessionId record =? TestSession.id s)
                              (testData r))) in
  currentSession (stopTest host r) = Some sealed
  /\ testSessions (stopTest host r) = testSessions r ++ [sealed]
  /\ testData (stopTest host r) = testData r
  /\ isRecording (stopTest host r) = false
  /\ state (stopTest host r) = STOPPED
  /\ reads (stopTest host r) = S (reads r).
Proof.
  intros Hrec Hs. cbv zeta.
  unfold stopTest. rewrite Hrec. cbn [negb].
  unfold stopTimer, sealCurrentSession, stopAudioRecording, sendFinishFrame,
    getCurrentSessionRecords, readClock, emit.
  cbn. destruct (timerInterval r); cbn; rewrite Hs; cbn;
    destruct (websocketOpen r), (isTranscriptionStarted r);
    cbn; repeat split.
Qed.

(** What [startTest] does when the controller is stopped. *)
Lemma startTest_when_stopped (host : Host) (r : t) :
  isRecording r = false ->
  state r = STOPPED ->
  currentSession (startTest host r)
  = Some (TestSession.mk (Date_now host (reads r))
                         (sessionNameOf host (Date_now host (1 + reads r)))
                         (Date_now host (2 + reads r)) None 0)
  /\ isRecording (startTest host r) = true
  /\ state (startTest host r) = RECORDING
  /\ testData (startTest host r) = testData r
  /\ testSessions (startTest host r) = testSessions r.
Proof.
  intros Hrec Hst. unfold startTest. rewrite Hrec, Hst. cbn [STATES_eqb negb orb].
  unfold startTimer, readClock, emit. cbn.
  destruct (configured r), (aliyunConnectionReady r); cbn; repeat split.
Qed.

(** C8, counterexample: when the two calls of [startTest] read the clock
    within the same millisecond, the session sealed by [stopTest] and the
    session opened next have the same id. *)
Lemma C8_restart_in_same_millisecond_reuses_id :
  map TestSession.id
      (testSessions (stopTest Page.sameMillisecond
                              (Page.recording Page.sameMillisecond)))
  = [1700000000000]
  /\ option_map TestSession.id
                (currentSession
                   (startTest Page.sameMillisecond
                              (stopTest Page.sameMillisecond
                                        (Page.recording Page.sameMillisecond))))
     = Some 1700000000000.
Proof. split; vm_compute; reflexivity. Qed.

(** C8, as amended: [stopTest] called while recording with session [s]
    open sets the end time of [s] to the clock reading, sets its record
    count to the number of stored records whose [sessionId] is the id of
    [s], and appends a copy of the sealed session to [testSessions]; the
    store is untouched.  The next [startTest] opens a session whose id is
    the clock reading at that call, with no end time and count 0: an id
    distinct from that of [s] whenever the clock has advanced past it. *)
Theorem C8_stop_seals_session_restart_takes_clock_id
        (host : Host) (r : t) (s : TestSession.t) :
  isRecording r = true ->
  currentSession r = Some s ->
  let sealed :=
    TestSession.mk (TestSession.id s) (TestSession.name s)
                   (TestSession.startTime s)
                   (Some (Date_now host (reads r)))
                   (List.length
                      (filter (fun record =>
                                 IssueRecord.sessionId record =? TestSession.id s)
                              (testData r))) in
  let r1 := stopTest host r in
  currentSession r1 = Some sealed
  /\ testSessions r1 = testSessions r ++ [sealed]
  /\ testData r1 = testData r
  /\ exists s2,
      currentSession (startTest host r1) = Some s2
      /\ TestSession.id s2 = Date_now host (reads r1)
      /\ TestSession.endTime s2 = None
      /\ TestSession.recordCount s2 = 0%nat
      /\ testSessions (startTest host r1) = testSessions r ++ [sealed]
      /\ (TestSession.id s < Date_now host (reads r1) ->
          TestSession.id s2 <> TestSession.id s).
Proof.
  intros Hrec Hs. cbv zeta.
  destruct (stopTest_while_recording host r Hrec Hs)
    as (Hcur & Hhist & Hdata & Hrec1 & Hst1 & _).
  destruct (startTest_when_stopped host (stopTest host r) Hrec1 Hst1)
    as (Hcur2 & _ & _ & _ & Hhist2).
  repeat split; try assumption.
  eexists. split; [exact Hcur2 |].
  cbn [TestSession.id TestSession.endTime TestSession.recordCount].
  repeat split.
  - now rewrite Hhist2.
  - intros Hlt Heq. rewrite Heq in Hlt. now apply Z.lt_irrefl in Hlt.
Qed.

Lemma C8_stop_seals_session_restart_takes_clock_id_witness :
  map TestSession.recordCount
      (testSessions (stopTest Page.ticking (Page.afterOneRecord Page.ticking)))
  = [1%nat]
  /\ map TestSession.endTime
         (testSessions (stopTest Page.ticking (Page.afterOneRecord Page.ticking)))
     = [Some 1700000006000]
  /\ option_map TestSession.id
                (currentSession (Page.secondSession Page.ticking))
     = Some 1700000007000.
Proof.
  unfold Page.secondSession.
  destruct (@C8_stop_seals_session_restart_takes_clock_id
              Page.ticking (Page.afterOneRecord Page.ticking)
              (TestSession.mk 1700000000000 (js "测试_20231114_221320")
                              1700000002000 None 0))
    as (_ & Hhist & _ & s2 & Hcur2 & Hid & _).
  - vm_compute. reflexivity.
  - vm_compute. reflexivity.
  - rewrite Hhist, Hcur2. cbn [option_map]. rewrite Hid.
    repeat split; vm_compute; reflexivity.
Defined.

(** C9: [pauseTest] called while recording clears [isRecording], so a
    following [stopTest] returns at its first line and changes nothing: the
    paused session keeps its null end time and its count, and is not
    appended to [testSessions].  [stopTest] changes [testSessions] only
    when [isRecording] is true. *)
Theorem C9_stop_after_pause_changes_nothing (host : Host) (r : t) :
  isRecording r = true ->
  state r = RECORDING ->
  stopTest host (pauseTest r) = pauseTest r
  /\ currentSession (stopTest host (pauseTest r)) = currentSession r
  /\ testSessions (stopTest host (pauseTest r)) = testSessions r
  /\ testData (stopTest host (pauseTest r)) = testData r
  /\ (forall r', isRecording r' = false -> stopTest host r' = r')
  /\ (forall r', testSessions (stopTest host r') <> testSessions r' ->
                 isRecording r' = true).
Proof.
  intros Hrec Hst.
  assert (Hidle : forall r', isRecording r' = false -> stopTest host r' = r').
  { intros r' H. unfold stopTest. now rewrite H. }
  assert (Hpaused : isRecording (pauseTest r) = false
                    /\ currentSession (pauseTest r) = currentSession r
                    /\ testSessions (pauseTest r) = testSessions r
                    /\ testData (pauseTest r) = testData r).
  { unfold pauseTest. rewrite Hrec, Hst. cbn [STATES_eqb negb orb].
    unfold stopTimer, stopAudioRecording, sendFinishFrame, emit.
    cbn. destruct (timerInterval r); cbn;
      destruct (websocketOpen r), (isTranscriptionStarted r);
      cbn; repeat split. }
  destruct Hpaused as (Hp & Hcur & Hhist & Hdata).
  rewrite (Hidle _ Hp).
  repeat split; try assumption.
  intros r' Hchanged. destruct (isRecording r') eqn:E; [reflexivity |].
  now rewrite (Hidle _ E) in Hchanged.
Qed.

Lemma C9_stop_after_pause_changes_nothing_witness :
  testSessions (stopTest Page.ticking (pauseTest (Page.recording Page.ticking)))
  = []
  /\ option_map TestSession.endTime
                (currentSession
                   (stopTest Page.ticking
                             (pauseTest (Page.recording Page.ticking))))
     = Some None.
Proof.
  destruct (@C9_stop_after_pause_changes_nothing
              Page.ticking (Page.recording Page.ticking))
    as (_ & Hcur & Hhist & _).
  - vm_compute. reflexivity.
  - vm_compute. reflexivity.
  - rewrite Hcur, Hhist. split; vm_compute; reflexivity.
Defined.

End SessionFacts.

(** ** Reconnection *)

Section TransportFacts.

Import Recorder.
Local Open Scope Z_scope.

Lemma onclose_abnormal (ev : CloseEvent) (r : t) :
  abnormalClose ev = true ->
  websocket_onclose (fst ev) (snd ev) r
  = handleWebSocketReconnect
      (set_aliyunConnectionReady false (set_websocketOpen false r)).
Proof.
  unfold abnormalClose. rewrite !andb_true_iff, !negb_true_iff.
  intros [[H1 H2] H3]. unfold websocket_onclose. now rewrite H1, H2, H3.
Qed.

Lemma onclose_limit (ev : CloseEvent) (r : t) :
  limitClose ev = true ->
  websocket_onclose (fst ev) (snd ev) r
  = emit (setTimeout handleWebSocketReconnect_cb connectionRetryDelay)
         (emit (showDebugInfo ConnectionLimit)
               (set_aliyunConnectionReady false (set_websocketOpen false r))).
Proof.
  unfold limitClose. rewrite andb_true_iff, negb_true_iff.
  intros [H1 H2]. unfold websocket_onclose. now rewrite H1, H2.
Qed.

(** A successful open puts the attempt counter back to 0. *)
Lemma onopen_resets_attempts (r : t) :
  wsReconnectAttempts (websocket_onopen r) = 0.
Proof. reflexivity. Qed.

(** One abnormal close below the cap: the counter goes up and the next
    attempt is scheduled. *)
Lemma abnormal_close_below_cap (ev : CloseEvent) (r : t) (n : nat) :
  abnormalClose ev = true ->
  wsReconnectAttempts r = Z.of_nat n ->
  (n < 3)%nat ->
  wsReconnectAttempts (websocket_onclose (fst ev) (snd ev) r) = Z.of_nat (S n)
  /\ effects (websocket_onclose (fst ev) (snd ev) r)
     = effects r ++ [attemptTimer (S n)].
Proof.
  intros Hev Hn Hlt. rewrite (@onclose_abnormal ev r Hev).
  unfold handleWebSocketReconnect, maxReconnectAttempts.
  cbn [wsReconnectAttempts set_aliyunConnectionReady set_websocketOpen].
  rewrite Hn.
  destruct (Z.ltb_spec (Z.of_nat n) 3) as [_ | Hge]; [| lia].
  unfold emit, attemptTimer. cbn.
  replace (Z.of_nat n + 1) with (Z.pos (Pos.of_succ_nat n)) by lia.
  now split.
Qed.

(** One abnormal close at the cap: the failure is reported, nothing is
    scheduled, the counter stays. *)
Lemma abnormal_close_at_cap (ev : CloseEvent) (r : t) :
  abnormalClose ev = true ->
  wsReconnectAttempts r = 3 ->
  wsReconnectAttempts (websocket_onclose (fst ev) (snd ev) r) = 3
  /\ effects (websocket_onclose (fst ev) (snd ev) r)
     = effects r ++ [showDebugInfo ConnectionFailed].
Proof.
  intros Hev Hn. rewrite (@onclose_abnormal ev r Hev).
  unfold handleWebSocketReconnect, maxReconnectAttempts.
  cbn [wsReconnectAttempts set_aliyunConnectionReady set_websocketOpen].
  rewrite Hn. cbn. now split.
Qed.

Lemma abnormal_closes_at_cap (evs : list CloseEvent) (r : t) :
  Forall (fun ev => abnormalClose ev = true) evs ->
  wsReconnectAttempts r = 3 ->
  wsReconnectAttempts (closes evs r) = 3
  /\ effects (closes evs r)
     = effects r ++ repeat (showDebugInfo ConnectionFailed) (List.length evs).
Proof.
  intros Hall. revert r.
  induction Hall as [| ev evs Hev _ IH]; intros r Hn.
  - cbn. now rewrite app_nil_r.
  - destruct (@abnormal_close_at_cap ev r Hev Hn) as [Hn' Hlog].
    change (closes (ev :: evs) r)
      with (closes evs (websocket_onclose (fst ev) (snd ev) r)).
    destruct (IH _ Hn') as [-> ->]. split; [reflexivity |].
    rewrite Hlog, <- app_assoc. reflexivity.
Qed.

(** C5: starting with the attempt counter at 0 (as after a successful
    open), consecutive abnormal closes schedule reconnection attempt [n]
    with a delay of [2000 * n] ms for [n] = 1, 2, 3 and nothing else; every
    close after the third reports the terminal connection failure and
    schedules nothing, and the counter stays at 3.  For four closes the log
    grows by exactly: timer 2000, timer 4000, timer 6000, failure. *)
Theorem C5_reconnect_capped_at_three_linear_backoff
        (r : t) (evs : list CloseEvent) :
  wsReconnectAttempts r = 0 ->
  Forall (fun ev => abnormalClose ev = true) evs ->
  effects (closes evs r)
  = effects r
    ++ map attemptTimer (seq 1 (Nat.min 3 (List.length evs)))
    ++ repeat (showDebugInfo ConnectionFailed) (List.length evs - 3)
  /\ wsReconnectAttempts (closes evs r)
     = Z.of_nat (Nat.min 3 (List.length evs))
  /\ (List.length evs = 4%nat ->
      effects (closes evs r)
      = effects r
        ++ [ setTimeout initWebSocketConnection_cb 2000;
             setTimeout initWebSocketConnection_cb 4000;
             setTimeout initWebSocketConnection_cb 6000;
             showDebugInfo ConnectionFailed ]).
Proof.
  intros H0 Hall.
  assert (Hmain :
            effects (closes evs r)
            = effects r
              ++ map attemptTimer (seq 1 (Nat.min 3 (List.length evs)))
              ++ repeat (showDebugInfo ConnectionFailed) (List.length evs - 3)
            /\ wsReconnectAttempts (closes evs r)
               = Z.of_nat (Nat.min 3 (List.length evs))).
  { destruct evs as [| e1 evs]; [cbn; rewrite app_nil_r; now split |].
    apply Forall_cons_iff in Hall. destruct Hall as [He1 Hall].
    destruct (@abnormal_close_below_cap e1 r 0 He1 H0) as [H1 L1]; [lia |].
    change (closes (e1 :: evs) r)
      with (closes evs (websocket_onclose (fst e1) (snd e1) r)).
    set (r1 := websocket_onclose (fst e1) (snd e1) r) in *.
    destruct evs as [| e2 evs];
      [cbn [closes fold_left]; rewrite L1; now split |].
    apply Forall_cons_iff in Hall. destruct Hall as [He2 Hall].
    destruct (@abnormal_close_below_cap e2 r1 1 He2 H1) as [H2 L2]; [lia |].
    change (closes (e2 :: evs) r1)
      with (closes evs (websocket_onclose (fst e2) (snd e2) r1)).
    set (r2 := websocket_onclose (fst e2) (snd e2) r1) in *.
    destruct evs as [| e3 evs];
      [cbn [closes fold_left]; rewrite L2, L1, <- app_assoc; now split |].
    apply Forall_cons_iff in Hall. destruct Hall as [He3 Hall].
    destruct (@abnormal_close_below_cap e3 r2 2 He3 H2) as [H3 L3]; [lia |].
    change (closes (e3 :: evs) r2)
      with (closes evs (websocket_onclose (fst e3) (snd e3) r2)).
    set (r3 := websocket_onclose (fst e3) (snd e3) r2) in *.
    destruct (@abnormal_closes_at_cap evs r3 Hall H3) as [H4 L4].
    rewrite L4, L3, L2, L1, H4.
    cbn [List.length Nat.min seq map Nat.sub].
    rewrite Nat.sub_0_r, <- !app_assoc. now split. }
  destruct Hmain as [Hlog Hcount].
  repeat split; [exact Hlog | exact Hcount |].
  intros Hlen. rewrite Hlog, Hlen. reflexivity.
Qed.

Lemma C5_reconnect_capped_at_three_linear_backoff_witness :
  effects (closes [(1011, js "internal error"); (1011, []);
                   (1005, []); (1011, [])] constructor)
  = [ setTimeout initWebSocketConnection_cb 2000;
      setTimeout initWebSocketConnection_cb 4000;
      setTimeout initWebSocketConnection_cb 6000;
      showDebugInfo ConnectionFailed ].
Proof.
  destruct (@C5_reconnect_capped_at_three_linear_backoff
              constructor
              [(1011, js "internal error"); (1011, []);
               (1005, []); (1011, [])])
    as (_ & _ & H).
  - reflexivity.
  - repeat constructor.
  - rewrite H; reflexivity.
Defined.

(** *** Connection-limit closes

    A close with code 1006, or whose reason mentions the connection limit,
    defers [handleWebSocketReconnect] by 5000 ms.  Once the deferred call
    has run, the attempts are counted and delayed as above: the same cap
    and the same delays hold for any mixture of the two kinds of close. *)

Lemma reconnectDelays_app (a b : list Effect) :
  reconnectDelays (a ++ b) = reconnectDelays a ++ reconnectDelays b.
Proof. unfold reconnectDelays. apply flat_map_app. Qed.

Lemma failuresReported_app (a b : list Effect) :
  failuresReported (a ++ b) = (failuresReported a + failuresReported b)%nat.
Proof. unfold failuresReported. now rewrite filter_app, length_app. Qed.

Lemma closeAndFire_calls_handler (ev : CloseEvent) (r : t) :
  retryingClose ev = true ->
  exists r0,
    closeAndFire ev r = handleWebSocketReconnect r0
    /\ wsReconnectAttempts r0 = wsReconnectAttempts r
    /\ reconnectDelays (effects r0) = reconnectDelays (effects r)
    /\ failuresReported (effects r0) = failuresReported (effects r).
Proof.
  unfold retryingClose, closeAndFire. intros Hev.
  destruct (limitClose ev) eqn:Hlim.
  - rewrite (@onclose_limit ev r Hlim). eexists. split; [reflexivity |].
    unfold emit. cbn [wsReconnectAttempts effects set_effects].
    rewrite <- app_assoc, reconnectDelays_app, failuresReported_app.
    cbn. rewrite app_nil_r, Nat.add_0_r. repeat split.
  - rewrite orb_false_r in Hev.
    rewrite (@onclose_abnormal ev r Hev). eexists. split; [reflexivity |].
    repeat split.
Qed.

Lemma closeAndFire_below_cap (ev : CloseEvent) (r : t) (n : nat) :
  retryingClose ev = true ->
  wsReconnectAttempts r = Z.of_nat n ->
  (n < 3)%nat ->
  wsReconnectAttempts (closeAndFire ev r) = Z.of_nat (S n)
  /\ reconnectDelays (effects (closeAndFire ev r))
     = reconnectDelays (effects r) ++ [2000 * Z.of_nat (S n)]
  /\ failuresReported (effects (closeAndFire ev r))
     = failuresReported (effects r).
Proof.
  intros Hev Hn Hlt.
  destruct (@closeAndFire_calls_handler ev r Hev) as (r0 & -> & Ha & Hd & Hf).
  unfold handleWebSocketReconnect, maxReconnectAttempts.
  rewrite Ha, Hn.
  destruct (Z.ltb_spec (Z.of_nat n) 3) as [_ | Hge]; [| lia].
  unfold emit. cbn [wsReconnectAttempts effects set_effects set_wsReconnectAttempts].
  rewrite reconnectDelays_app, failuresReported_app, Hd, Hf.
  replace (Z.of_nat n + 1) with (Z.of_nat (S n)) by lia.
  cbn [reconnectDelays failuresReported flat_map filter List.length app].
  now rewrite Nat.add_0_r.
Qed.

Lemma closeAndFire_at_cap (ev : CloseEvent) (r : t) :
  retryingClose ev = true ->
  wsReconnectAttempts r = 3 ->
  wsReconnectAttempts (closeAndFire ev r) = 3
  /\ reconnectDelays (effects (closeAndFire ev r))
     = reconnectDelays (effects r)
  /\ failuresReported (effects (closeAndFire ev r))
     = S (failuresReported (effects r)).
Proof.
  intros Hev Hn.
  destruct (@closeAndFire_calls_handler ev r Hev) as (r0 & -> & Ha & Hd & Hf).
  unfold handleWebSocketReconnect, maxReconnectAttempts.
  rewrite Ha, Hn. cbn [Z.ltb Z.compare Pos.compare Pos.compare_cont].
  unfold emit. cbn [wsReconnectAttempts effects set_effects].
  rewrite reconnectDelays_app, failuresReported_app, Hd, Hf, Ha.
  cbn [reconnectDelays failuresReported flat_map filter List.length app].
  rewrite app_nil_r. repeat split; [exact Hn | lia].
Qed.

Lemma closesAndFire_at_cap (evs : list CloseEvent) (r : t) :
  Forall (fun ev => retryingClose ev = true) evs ->
  wsReconnectAttempts r = 3 ->
  reconnectDelays (effects (closesAndFire evs r))
  = reconnectDelays (effects r)
  /\ failuresReported (effects (closesAndFire evs r))
     = (failuresReported (effects r) + List.length evs)%nat.
Proof.
  intros Hall. revert r.
  induction Hall as [| ev evs Hev _ IH]; intros r Hn.
  - cbn. now rewrite Nat.add_0_r.
  - destruct (@closeAndFire_at_cap ev r Hev Hn) as (Hn' & Hd & Hf).
    change (closesAndFire (ev :: evs) r)
      with (closesAndFire evs (closeAndFire ev r)).
    destruct (IH _ Hn') as [-> ->]. rewrite Hd, Hf.
    split; [reflexivity | cbn [List.length]; lia].
Qed.

Lemma retrying_closes_capped_at_three (r : t) (evs : list CloseEvent) :
  wsReconnectAttempts r = 0 ->
  Forall (fun ev => retryingClose ev = true) evs ->
  reconnectDelays (effects (closesAndFire evs r))
  = reconnectDelays (effects r) ++ firstn (List.length evs) [2000; 4000; 6000]
  /\ failuresReported (effects (closesAndFire evs r))
     = (failuresReported (effects r) + (List.length evs - 3))%nat.
Proof.
  intros H0 Hall.
  destruct evs as [| e1 evs];
    [cbn; rewrite app_nil_r, Nat.add_0_r; now split |].
  apply Forall_cons_iff in Hall. destruct Hall as [He1 Hall].
  destruct (@closeAndFire_below_cap e1 r 0 He1 H0) as (H1 & D1 & F1); [lia |].
  change (closesAndFire (e1 :: evs) r)
    with (closesAndFire evs (closeAndFire e1 r)).
  set (r1 := closeAndFire e1 r) in *.
  destruct evs as [| e2 evs];
    [cbn [closesAndFire fold_left]; rewrite D1, F1; cbn; split; [reflexivity | lia] |].
  apply Forall_cons_iff in Hall. destruct Hall as [He2 Hall].
  destruct (@closeAndFire_below_cap e2 r1 1 He2 H1) as (H2 & D2 & F2); [lia |].
  change (closesAndFire (e2 :: evs) r1)
    with (closesAndFire evs (closeAndFire e2 r1)).
  set (r2 := closeAndFire e2 r1) in *.
  destruct evs as [| e3 evs];
    [cbn [closesAndFire fold_left]; rewrite D2, F2, D1, F1, <- app_assoc; cbn;
     split; [reflexivity | lia] |].
  apply Forall_cons_iff in Hall. destruct Hall as [He3 Hall].
  destruct (@closeAndFire_below_cap e3 r2 2 He3 H2) as (H3 & D3 & F3); [lia |].
  change (closesAndFire (e3 :: evs) r2)
    with (closesAndFire evs (closeAndFire e3 r2)).
  set (r3 := closeAndFire e3 r2) in *.
  destruct (@closesAndFire_at_cap evs r3 Hall H3) as [D4 F4].
  rewrite D4, F4, D3, F3, D2, F2, D1, F1, <- !app_assoc.
  cbn [List.length firstn app Nat.sub]. rewrite firstn_nil.
  split; [reflexivity | lia].
Qed.

End TransportFacts.

(** ** Record ids *)

(** Case analysis on every test a method body branches on. *)
Ltac case_branches :=
  repeat (cbn;
          match goal with
          | |- context [if ?b then _ else _] => destruct b
          | |- context [match Recorder.currentSession ?r with _ => _ end] =>
              destruct (Recorder.currentSession r)
          end);
  cbn.

Section IdFacts.

Import Recorder.
Local Open Scope Z_scope.

Variable host : Host.

(** The order the ids are compared with: [<] for a clock whose readings
    strictly increase, [<=] for a clock that is only monotone. *)
Variable R : Z -> Z -> Prop.
Hypothesis R_trans : forall a b c, R a b -> R b c -> R a c.
Hypothesis clock_step : forall n, R (Date_now host n) (Date_now host (S n)).

Lemma clock_later (m n : nat) :
  (m < n)%nat -> R (Date_now host m) (Date_now host n).
Proof.
  induction 1 as [| n _ IH]; [apply clock_step |].
  exact (R_trans IH (clock_step n)).
Qed.

Local Abbreviation ordered := (Recorder.ordered host R).

Lemma StronglySorted_snoc (l : list Z) (x : Z) :
  StronglySorted R l -> Forall (fun y => R y x) l ->
  StronglySorted R (l ++ [x]).
Proof.
  induction 1 as [| a l Hl IH Ha]; intros Hx; cbn.
  - repeat constructor.
  - apply Forall_cons_iff in Hx. destruct Hx as [Hax Hx].
    constructor; [now apply IH |].
    apply Forall_app. split; [exact Ha | now constructor].
Qed.

Lemma StronglySorted_prefix (l l' : list Z) :
  StronglySorted R (l ++ l') -> StronglySorted R l.
Proof.
  induction l as [| a l IH]; cbn; intros H; [constructor |].
  apply StronglySorted_inv in H. destruct H as [H Ha].
  constructor; [now apply IH |].
  apply Forall_app in Ha. tauto.
Qed.

(** A call that leaves the store alone and reads the clock some number of
    times keeps the ids ordered. *)
Lemma ordered_frame (r r' : t) :
  testData r' = testData r ->
  (reads r <= reads r')%nat ->
  ordered r -> ordered r'.
Proof.
  unfold Recorder.ordered, ids. intros -> Hreads [Hsorted Hbound].
  split; [exact Hsorted |].
  destruct (proj1 (Nat.lt_eq_cases _ _) Hreads) as [Hlt | <-]; [| exact Hbound].
  eapply Forall_impl; [| exact Hbound].
  intros i Hi. exact (R_trans Hi (clock_later Hlt)).
Qed.

Lemma ordered_emit (e : Effect) (r : t) : ordered r -> ordered (emit e r).
Proof. apply ordered_frame; [reflexivity | apply Nat.le_refl]. Qed.

Lemma ordered_addRecord type subType originalText (r : t) :
  ordered r -> ordered (addRecord host type subType originalText r).
Proof.
  intros Hord.
  destruct (currentSession r) as [s |] eqn:Hs;
    [| now rewrite addRecord_no_session].
  destruct (find (similarRecent type subType (Date_now host (reads r)))
                 (getCurrentSessionRecords r)) as [x |] eqn:Hfind.
  - rewrite (addRecord_suppressed host _ _ originalText r Hs Hfind).
    revert Hord. apply ordered_frame; [reflexivity | cbn; lia].
  - rewrite (@addRecord_appends host _ _ originalText r s Hs Hfind).
    destruct Hord as [Hsorted Hbound]. unfold Recorder.ordered, ids.
    cbn [testData reads set_effects set_testData set_reads].
    rewrite map_app. cbn [map recordMade IssueRecord.id].
    split.
    + now apply StronglySorted_snoc.
    + apply Forall_app. split.
      * eapply Forall_impl; [| exact Hbound].
        intros i Hi. apply (R_trans Hi). apply clock_later. lia.
      * constructor; [| constructor]. apply clock_later. lia.
Qed.

Lemma ordered_addRecords results text (r : t) :
  ordered r -> ordered (addRecords host results text r).
Proof.
  unfold addRecords. revert r.
  induction results as [| x l IH]; intros r Hord; cbn [fold_left].
  - exact Hord.
  - apply IH. now apply ordered_addRecord.
Qed.

Lemma ordered_deleteLastRecord (r : t) :
  ordered r -> ordered (deleteLastRecord r).
Proof.
  intros [Hsorted Hbound]. unfold Recorder.ordered, ids.
  rewrite testData_deleteLastRecord, reads_deleteLastRecord.
  destruct (testData r) as [| a l] eqn:E using rev_ind.
  - split; constructor.
  - unfold ids in Hsorted, Hbound. rewrite E in Hsorted, Hbound.
    rewrite removelast_last.
    rewrite map_app in Hsorted, Hbound.
    split.
    + exact (StronglySorted_prefix _ _ Hsorted).
    + apply Forall_app in Hbound. tauto.
Qed.

Lemma ordered_processVoiceInput text (r : t) :
  ordered r -> ordered (processVoiceInput host text r).
Proof.
  intros Hord. unfold processVoiceInput.
  assert (H0 : ordered (emit (displaySubtitle text)
                             (emit (showDebugInfo (VoiceInput text)) r)))
    by now do 2 apply ordered_emit.
  destruct (Classifier.isDeleteCommand text).
  { now apply ordered_emit, ordered_deleteLastRecord. }
  destruct (Classifier.directTypeMatching text) as [d |].
  { now apply ordered_addRecord, ordered_emit. }
  destruct (Classifier.smartRecognitionMultiple text) as [[| x l] |].
  2: { now apply ordered_addRecords, ordered_emit. }
  all: destruct (Classifier.keywordRecognitionMultiple text) as [[| y k] |];
    try (now apply ordered_addRecords, ordered_emit);
    destruct (Classifier.handleUserQuestions text); now apply ordered_emit.
Qed.

Lemma ordered_startTest (r : t) : ordered r -> ordered (startTest host r).
Proof.
  apply ordered_frame; unfold startTest, startTimer, readClock, emit;
    case_branches; lia || reflexivity.
Qed.

Lemma ordered_pauseTest (r : t) : ordered r -> ordered (pauseTest r).
Proof.
  apply ordered_frame;
    unfold pauseTest, stopTimer, stopAudioRecording, sendFinishFrame, emit;
    case_branches; lia || reflexivity.
Qed.

Lemma ordered_stopTest (r : t) : ordered r -> ordered (stopTest host r).
Proof.
  apply ordered_frame;
    unfold stopTest, stopTimer, sealCurrentSession, stopAudioRecording,
      sendFinishFrame, getCurrentSessionRecords, readClock, emit;
    case_branches; lia || reflexivity.
Qed.

Lemma ordered_handleQuickRecord typeText (r : t) :
  ordered r -> ordered (handleQuickRecord host typeText r).
Proof.
  intros Hord. unfold handleQuickRecord. apply ordered_addRecord.
  destruct (currentSession r); [exact Hord | now apply ordered_startTest].
Qed.

Lemma ordered_invoke (c : Call) (r : t) :
  ordered r -> ordered (invoke host c r).
Proof.
  destruct c; cbn [invoke].
  - apply ordered_addRecord.
  - apply ordered_processVoiceInput.
  - apply ordered_deleteLastRecord.
  - apply ordered_handleQuickRecord.
  - apply ordered_startTest.
  - apply ordered_pauseTest.
  - apply ordered_stopTest.
Qed.

Lemma ordered_run (cs : list Call) (r : t) :
  ordered r -> ordered (run host cs r).
Proof.
  unfold run. revert r.
  induction cs as [| c cs IH]; intros r Hord; cbn [fold_left].
  - exact Hord.
  - apply IH. now apply ordered_invoke.
Qed.

End IdFacts.

Section IdClaims.

Import Recorder.
Local Open Scope Z_scope.

(** With a monotone clock the ids never decrease along the store. *)
Lemma ids_nondecreasing_with_monotone_clock
      (host : Host) (cs : list Call) (r : t) :
  (forall n, Date_now host n <= Date_now host (S n)) ->
  ordered host Z.le r ->
  StronglySorted Z.le (ids (run host cs r)).
Proof.
  intros Hclock Hord.
  apply (@ordered_run host Z.le Z.le_trans Hclock cs r Hord).
Qed.

Lemma StronglySorted_lt_NoDup (l : list Z) :
  StronglySorted Z.lt l -> NoDup l.
Proof.
  induction 1 as [| a l _ IH Ha]; constructor; [| exact IH].
  intros Hin. rewrite Forall_forall in Ha.
  specialize (Ha a Hin). lia.
Qed.

(** C3, counterexample: the two records that one utterance yields are
    created within the same millisecond and get the same id. *)
Lemma C3_one_utterance_two_records_same_id :
  ids (processVoiceInput Page.sameMillisecond Page.weavingAndBraking
                         (Page.recording Page.sameMillisecond))
  = [1700000000000; 1700000000000].
Proof. vm_compute. reflexivity. Qed.

Lemma removelast_map {A B : Type} (f : A -> B) (l : list A) :
  removelast (map f l) = map f (removelast l).
Proof.
  induction l as [| a [| b l] IH]; [reflexivity | reflexivity |].
  change (f a :: removelast (map f (b :: l))
          = f a :: map f (removelast (b :: l))).
  now rewrite IH.
Qed.

Lemma removelast_firstn_any {A : Type} (n : nat) (l : list A) :
  removelast (firstn n l) = firstn (Nat.pred (Nat.min n (List.length l))) l.
Proof.
  destruct (Nat.le_gt_cases (List.length l) n) as [Hge | Hlt].
  - rewrite firstn_all2 by exact Hge. rewrite Nat.min_r by exact Hge.
    destruct l as [| a l] using rev_ind; [reflexivity |].
    rewrite removelast_last, length_app. cbn [List.length].
    replace (Nat.pred (List.length l + 1)) with (List.length l + 0)%nat by lia.
    now rewrite firstn_app_2, app_nil_r.
  - rewrite Nat.min_l by lia. destruct n as [| n]; [reflexivity |].
    apply removelast_firstn. lia.
Qed.

Lemma spaced_snoc (l : list nat) (x : nat) :
  StronglySorted (fun a b => (a + 2 <= b)%nat) l ->
  Forall (fun a => (a + 2 <= x)%nat) l ->
  StronglySorted (fun a b => (a + 2 <= b)%nat) (l ++ [x]).
Proof.
  induction 1 as [| a l Hl IH Ha]; intros Hx; cbn.
  - repeat constructor.
  - apply Forall_cons_iff in Hx. destruct Hx as [Hax Hx].
    constructor; [now apply IH |].
    apply Forall_app. split; [exact Ha | now constructor].
Qed.

Lemma sorted_prefix {A : Type} (R : A -> A -> Prop) (l l' : list A) :
  StronglySorted R (l ++ l') -> StronglySorted R l.
Proof.
  induction l as [| a l IH]; cbn; intros H; [constructor |].
  apply StronglySorted_inv in H. destruct H as [H Ha].
  constructor; [now apply IH |].
  apply Forall_app in Ha. tauto.
Qed.

Lemma sorted_app {A : Type} (R : A -> A -> Prop) (l l' : list A) :
  StronglySorted R l -> StronglySorted R l' ->
  (forall a b, In a l -> In b l' -> R a b) ->
  StronglySorted R (l ++ l').
Proof.
  induction 1 as [| a l Hl IH Ha]; intros Hl' Hcross; cbn; [exact Hl' |].
  constructor.
  - apply IH; [exact Hl' |]. intros x y Hx Hy. apply Hcross; [now right | exact Hy].
  - apply Forall_app. split; [exact Ha |].
    apply Forall_forall. intros y Hy. apply Hcross; [now left | exact Hy].
Qed.

Lemma spaced_NoDup (l : list nat) :
  StronglySorted (fun a b => (a + 2 <= b)%nat) l -> NoDup l.
Proof.
  induction 1 as [| a l _ IH Ha]; constructor; [| exact IH].
  intros Hin. rewrite Forall_forall in Ha. specialize (Ha a Hin). lia.
Qed.

Lemma NoDup_app_split {A : Type} (l l' : list A) :
  NoDup (l ++ l')
  <-> NoDup l /\ NoDup l' /\ (forall a, In a l -> ~ In a l').
Proof.
  split.
  - intros H. split; [exact (NoDup_app_remove_r _ _ H) |].
    split; [exact (NoDup_app_remove_l _ _ H) |].
    induction l as [| x l IH]; [intros a [] |].
    cbn [app] in H. apply NoDup_cons_iff in H. destruct H as [Hx H].
    intros a [<- | Ha] Hin.
    + apply Hx. apply in_or_app. now right.
    + exact (IH H a Ha Hin).
  - intros (H1 & H2 & H3). now apply NoDup_app.
Qed.

Lemma NoDup_map_iff {A B : Type} (f : A -> B) (l : list A) :
  NoDup l ->
  (NoDup (map f l)
   <-> forall a b, In a l -> In b l -> a <> b -> f a <> f b).
Proof.
  induction 1 as [| x l Hx Hl IH]; cbn [map].
  - split; [intros _ a b [] | constructor].
  - rewrite NoDup_cons_iff, IH. split.
    + intros [Hfx Hinj] a b [<- | Ha] [<- | Hb] Hab.
      * contradiction.
      * intros E. apply Hfx. rewrite E. now apply in_map.
      * intros E. apply Hfx. rewrite <- E. now apply in_map.
      * now apply Hinj.
    + intros Hinj. split.
      * intros Hin. apply in_map_iff in Hin. destruct Hin as (y & E & Hy).
        apply (Hinj y x); [now right | now left | | exact E].
        intros ->. contradiction.
      * intros a b Ha Hb. apply Hinj; now right.
Qed.

Section IdReadings.

Variable host : Host.

Local Abbreviation Taken r0 r := (exists kept taken, idsTaken host r0 r kept taken).

Lemma Taken_refl (r : t) : Taken r r.
Proof.
  exists (List.length (ids r)), []. unfold idsTaken. cbn [map].
  rewrite firstn_all, app_nil_r. repeat split; try constructor.
Qed.

(** A call that leaves the store alone and reads the clock some number of
    times takes no id. *)
Lemma Taken_frame (r0 r r' : t) :
  testData r' = testData r ->
  (reads r <= reads r')%nat ->
  Taken r0 r -> Taken r0 r'.
Proof.
  intros Hd Hr (kept & taken & Hids & Hs & Hb & Hle).
  exists kept, taken. unfold idsTaken, ids in *. rewrite Hd.
  split; [exact Hids |]. split; [exact Hs |]. split; [| lia].
  eapply Forall_impl; [| exact Hb]. cbn. intros k Hk. lia.
Qed.

Lemma Taken_emit (e : Effect) (r0 r : t) : Taken r0 r -> Taken r0 (emit e r).
Proof. apply Taken_frame; [reflexivity | apply Nat.le_refl]. Qed.

Lemma Taken_addRecord type subType originalText (r0 r : t) :
  Taken r0 r -> Taken r0 (addRecord host type subType originalText r).
Proof.
  intros HT.
  destruct (currentSession r) as [s |] eqn:Hs;
    [| now rewrite addRecord_no_session].
  destruct (find (similarRecent type subType (Date_now host (reads r)))
                 (getCurrentSessionRecords r)) as [x |] eqn:Hfind.
  - rewrite (addRecord_suppressed host _ _ originalText r Hs Hfind).
    revert HT. apply Taken_frame; [reflexivity | cbn; lia].
  - rewrite (@addRecord_appends host _ _ originalText r s Hs Hfind).
    destruct HT as (kept & taken & Hids & Hsorted & Hb & Hle).
    exists kept, (taken ++ [reads r]). unfold idsTaken, ids in *.
    cbn [testData reads set_effects set_testData set_reads].
    rewrite !map_app, Hids, <- app_assoc.
    cbn [map recordMade IssueRecord.id].
    split; [reflexivity |]. split; [| split; [| lia]].
    + apply spaced_snoc; [exact Hsorted |].
      eapply Forall_impl; [| exact Hb]. cbn. intros k Hk. lia.
    + apply Forall_app. split.
      * eapply Forall_impl; [| exact Hb]. cbn. intros k Hk. lia.
      * constructor; [lia | constructor].
Qed.

Lemma Taken_addRecords results text (r0 r : t) :
  Taken r0 r -> Taken r0 (addRecords host results text r).
Proof.
  unfold addRecords. revert r.
  induction results as [| x l IH]; intros r HT; cbn [fold_left].
  - exact HT.
  - apply IH. now apply Taken_addRecord.
Qed.

Lemma Taken_deleteLastRecord (r0 r : t) :
  Taken r0 r -> Taken r0 (deleteLastRecord r).
Proof.
  intros (kept & taken & Hids & Hsorted & Hb & Hle).
  unfold idsTaken, ids in *.
  destruct taken as [| x taken _] using rev_ind.
  - exists (Nat.pred (Nat.min kept (List.length (map IssueRecord.id
                                                      (testData r0))))), [].
    rewrite testData_deleteLastRecord, reads_deleteLastRecord.
    rewrite <- removelast_map, Hids. cbn [map]. rewrite !app_nil_r.
    split; [apply removelast_firstn_any |].
    split; [constructor |]. split; [constructor | exact Hle].
  - exists kept, taken.
    rewrite testData_deleteLastRecord, reads_deleteLastRecord.
    rewrite <- removelast_map, Hids, map_app, app_assoc.
    cbn [map]. rewrite removelast_last.
    split; [reflexivity |]. split; [exact (@sorted_prefix _ _ _ _ Hsorted) |].
    split; [| exact Hle]. apply Forall_app in Hb. tauto.
Qed.

Lemma Taken_processVoiceInput text (r0 r : t) :
  Taken r0 r -> Taken r0 (processVoiceInput host text r).
Proof.
  intros HT. unfold processVoiceInput.
  assert (H0 : Taken r0 (emit (displaySubtitle text)
                              (emit (showDebugInfo (VoiceInput text)) r)))
    by now do 2 apply Taken_emit.
  destruct (Classifier.isDeleteCommand text).
  { now apply Taken_emit, Taken_deleteLastRecord. }
  destruct (Classifier.directTypeMatching text) as [d |].
  { now apply Taken_addRecord, Taken_emit. }
  destruct (Classifier.smartRecognitionMultiple text) as [[| x l] |].
  2: { now apply Taken_addRecords, Taken_emit. }
  all: destruct (Classifier.keywordRecognitionMultiple text) as [[| y k] |];
    try (now apply Taken_addRecords, Taken_emit);
    destruct (Classifier.handleUserQuestions text); now apply Taken_emit.
Qed.

Lemma Taken_startTest (r0 r : t) : Taken r0 r -> Taken r0 (startTest host r).
Proof.
  apply Taken_frame; unfold startTest, startTimer, readClock, emit;
    case_branches; lia || reflexivity.
Qed.

Lemma Taken_pauseTest (r0 r : t) : Taken r0 r -> Taken r0 (pauseTest r).
Proof.
  apply Taken_frame;
    unfold pauseTest, stopTimer, stopAudioRecording, sendFinishFrame, emit;
    case_branches; lia || reflexivity.
Qed.

Lemma Taken_stopTest (r0 r : t) : Taken r0 r -> Taken r0 (stopTest host r).
Proof.
  apply Taken_frame;
    unfold stopTest, stopTimer, sealCurrentSession, stopAudioRecording,
      sendFinishFrame, getCurrentSessionRecords, readClock, emit;
    case_branches; lia || reflexivity.
Qed.

Lemma Taken_invoke (c : Call) (r0 r : t) :
  Taken r0 r -> Taken r0 (invoke host c r).
Proof.
  destruct c; cbn [invoke].
  - apply Taken_addRecord.
  - apply Taken_processVoiceInput.
  - apply Taken_deleteLastRecord.
  - intros HT. unfold handleQuickRecord. apply Taken_addRecord.
    destruct (currentSession r); [exact HT | now apply Taken_startTest].
  - apply Taken_startTest.
  - apply Taken_pauseTest.
  - apply Taken_stopTest.
Qed.

Lemma Taken_run (cs : list Call) (r0 r : t) :
  Taken r0 r -> Taken r0 (run host cs r).
Proof.
  unfold run. revert r.
  induction cs as [| c cs IH]; intros r HT; cbn [fold_left].
  - exact HT.
  - apply IH. now apply Taken_invoke.
Qed.

Lemma clock_monotone (m n : nat) :
  (forall k, Date_now host k <= Date_now host (S k)) ->
  (m <= n)%nat -> Date_now host m <= Date_now host n.
Proof.
  intros Hclock. induction 1 as [| n _ IH]; [lia |].
  specialize (Hclock n). lia.
Qed.

End IdReadings.

(** C3, as amended: an id is the reading of the clock taken when
    [addRecord] creates the record, and nothing else.  Along every sequence
    of calls ([addRecord], [processVoiceInput], [deleteLastRecord],
    [handleQuickRecord], [startTest], [pauseTest], [stopTest]) the stored
    ids are those of the records kept from the start followed by readings
    of the clock made during the calls, one per record, at least 2
    readings apart.  So two stored records have the same id exactly when
    the clock gave the same value at their two readings: the ids are
    all different if and only if the readings that became ids are pairwise
    different (and differ from the ids kept from the start).  In
    particular they strictly increase, and are all different, as soon as
    the clock never goes back and is later at every second reading. *)
Theorem C3_ids_are_readings_same_iff_readings_equal
        (host : Host) (cs : list Call) (r : t) :
  (forall type subType originalText s,
      currentSession r = Some s ->
      find (similarRecent type subType (Date_now host (reads r)))
           (getCurrentSessionRecords r) = None ->
      ids (addRecord host type subType originalText r)
      = ids r ++ [Date_now host (reads r)])
  /\ exists kept taken,
      idsTaken host r (run host cs r) kept taken
      /\ (NoDup (ids (run host cs r))
          <-> NoDup (firstn kept (ids r))
              /\ (forall i k, In i (firstn kept (ids r)) -> In k taken ->
                              i <> Date_now host k)
              /\ (forall a b, In a taken -> In b taken -> a <> b ->
                              Date_now host a <> Date_now host b))
      /\ ((forall n, Date_now host n <= Date_now host (S n)) ->
          (forall n, Date_now host n < Date_now host (S (S n))) ->
          StronglySorted Z.lt (ids r) ->
          Forall (fun i => i < Date_now host (reads r)) (ids r) ->
          StronglySorted Z.lt (ids (run host cs r))
          /\ NoDup (ids (run host cs r))).
Proof.
  split.
  { intros type subType originalText s Hs Hfind.
    rewrite (@addRecord_appends host _ _ originalText r s Hs Hfind).
    unfold ids. cbn [testData set_effects set_testData set_reads].
    now rewrite map_app. }
  destruct (@Taken_run host cs r r (Taken_refl host r))
    as (kept & taken & HT).
  exists kept, taken. split; [exact HT |].
  destruct HT as (Hids & Hsorted & Hb & Hle).
  split.
  - rewrite Hids, NoDup_app_split.
    rewrite (NoDup_map_iff (Date_now host) (spaced_NoDup Hsorted)).
    split.
    + intros (H1 & H2 & H3). split; [exact H1 |]. split; [| exact H2].
      intros i k Hi Hk ->. apply (H3 _ Hi). now apply in_map.
    + intros (H1 & H2 & H3). split; [exact H1 |]. split; [exact H3 |].
      intros i Hi Hin. apply in_map_iff in Hin.
      destruct Hin as (k & E & Hk). apply (H2 i k Hi Hk). now rewrite E.
  - intros Hmono Hstep Hold Hbound.
    assert (Hs : StronglySorted Z.lt (ids (run host cs r))).
    { rewrite Hids. apply sorted_app.
      - apply (@sorted_prefix _ _ _ (skipn kept (ids r))).
        now rewrite firstn_skipn.
      - clear Hb Hids. induction Hsorted as [| a l _ IH Ha]; cbn [map];
          constructor; [exact IH |].
        apply Forall_forall. intros y Hy. apply in_map_iff in Hy.
        destruct Hy as (b & <- & Hb). rewrite Forall_forall in Ha.
        specialize (Ha b Hb). specialize (Hstep a).
        pose proof (@clock_monotone host (S (S a)) b Hmono). lia.
      - intros i y Hi Hy. apply in_map_iff in Hy.
        destruct Hy as (k & <- & Hk).
        rewrite Forall_forall in Hb, Hbound.
        specialize (Hb k Hk).
        assert (Hi' : In i (ids r)).
        { rewrite <- (firstn_skipn kept (ids r)). apply in_or_app. now left. }
        specialize (Hbound i Hi').
        pose proof (@clock_monotone host (reads r) k Hmono). lia. }
    split; [exact Hs | now apply StronglySorted_lt_NoDup].
Qed.

Lemma C3_ids_are_readings_same_iff_readings_equal_witness :
  Date_now Page.twoPerMillisecond 0 = Date_now Page.twoPerMillisecond 1
  /\ NoDup (ids (run Page.twoPerMillisecond
                     [call_startTest;
                      call_processVoiceInput Page.weavingAndBraking;
                      call_addRecord Classifier.SAFETY Page.lane Page.lane]
                     constructor)).
Proof.
  split; [reflexivity |].
  destruct (@C3_ids_are_readings_same_iff_readings_equal
              Page.twoPerMillisecond
              [call_startTest;
               call_processVoiceInput Page.weavingAndBraking;
               call_addRecord Classifier.SAFETY Page.lane Page.lane]
              constructor)
    as (_ & kept & taken & _ & _ & H).
  apply H.
  - intros n. unfold Page.twoPerMillisecond. cbn [Date_now].
    rewrite Nat2Z.inj_succ. Z.div_mod_to_equations. lia.
  - intros n. unfold Page.twoPerMillisecond. cbn [Date_now].
    rewrite !Nat2Z.inj_succ. Z.div_mod_to_equations. lia.
  - constructor.
  - constructor.
Defined.

End IdClaims.

(* ================================================================== *)
(** * Further properties *)
(* ================================================================== *)

(** ** Samples outside the nominal range, and the byte stream *)

Section AudioFacts.

Import Pcm.
Local Open Scope Q_scope.

(** The clamp of a finite sample, written out. *)
Lemma clampSample_Finite (q : Q) :
  clampSample (Finite q)
  = Finite (if Qltb q 1 then (if Qltb (-1) q then q else -1) else 1).
Proof.
  unfold clampSample, Math_min1, Math_max_1.
  destruct (Qltb q 1); [destruct (Qltb (-1) q) |]; reflexivity.
Qed.

Lemma clamped_in_range (q : Q) :
  -1 <= (if Qltb q 1 then (if Qltb (-1) q then q else -1) else 1) <= 1.
Proof.
  destruct (Qltb q 1) eqn:H1; [destruct (Qltb (-1) q) eqn:H2 |].
  - apply Qltb_true in H1, H2. split; now apply Qlt_le_weak.
  - split; discriminate.
  - split; discriminate.
Qed.

(** The stored value of a sample already in [-1, 1]. *)
Lemma pcm16Sample_of_clamped (x : float) (s : Q) :
  clampSample x = Finite s -> -1 <= s <= 1 ->
  pcm16Sample x
  = truncate (if Qltb s 0 then s * inject_Z 0x8000 else s * inject_Z 0x7FFF).
Proof.
  intros Hc Hs. unfold pcm16Sample. rewrite Hc. cbn [ltZero].
  pose proof (truncate_scaled_range Hs) as Hr.
  destruct (Qltb s 0); cbn [scale toInt16]; now apply wrap16_in_range.
Qed.

Lemma pcm16Sample_range (x : float) :
  (-32768 <= pcm16Sample x <= 32767)%Z.
Proof.
  destruct x as [| [|] | q];
    [vm_compute; split; discriminate
    | vm_compute; split; discriminate
    | vm_compute; split; discriminate
    | ].
  rewrite (@pcm16Sample_of_clamped (Finite q) _ (clampSample_Finite q)
                                   (clamped_in_range q)).
  apply truncate_scaled_range, clamped_in_range.
Qed.

(** X1: Whatever the sample (a number of any size, an infinity, NaN), the value
    stored is a 16-bit integer: NaN gives 0, every sample of 1 or more
    (and +Infinity) gives 32767, every sample of -1 or less (and -Infinity)
    gives -32768; nothing wraps around. *)
Theorem pcm16Sample_saturates (x : float) :
  (-32768 <= pcm16Sample x <= 32767)%Z
  /\ pcm16Sample NaN = 0%Z
  /\ pcm16Sample (Infinity false) = 32767%Z
  /\ pcm16Sample (Infinity true) = (-32768)%Z
  /\ (forall q, 1 <= q -> pcm16Sample (Finite q) = 32767%Z)
  /\ (forall q, q <= -1 -> pcm16Sample (Finite q) = (-32768)%Z).
Proof.
  split; [| repeat split; try reflexivity].
  - apply pcm16Sample_range.
  - intros q Hq.
    rewrite (@pcm16Sample_of_clamped (Finite q) _ (clampSample_Finite q)
                                     (clamped_in_range q)).
    replace (Qltb q 1) with false
      by (symmetry; now apply Qltb_false).
    reflexivity.
  - intros q Hq.
    rewrite (@pcm16Sample_of_clamped (Finite q) _ (clampSample_Finite q)
                                     (clamped_in_range q)).
    assert (H1 : Qltb q 1 = true).
    { apply Qltb_true. apply Qle_lt_trans with (-1); [exact Hq | reflexivity]. }
    rewrite H1.
    replace (Qltb (-1) q) with false
      by (symmetry; now apply Qltb_false).
    reflexivity.
Qed.

Lemma truncate_mono (a b : Q) : a <= b -> (truncate a <= truncate b)%Z.
Proof.
  intros Hab. unfold truncate.
  destruct (Qltb a 0) eqn:Ha; destruct (Qltb b 0) eqn:Hb.
  - now apply Qceiling_resp_le.
  - apply Qltb_true in Ha. apply Qltb_false in Hb.
    apply Z.le_trans with 0%Z.
    + change 0%Z with (Qceiling 0). apply Qceiling_resp_le. now apply Qlt_le_weak.
    + change 0%Z with (Qfloor 0). now apply Qfloor_resp_le.
  - apply Qltb_false in Ha. apply Qltb_true in Hb.
    exfalso. apply (Qlt_irrefl 0).
    apply Qle_lt_trans with a; [exact Ha |].
    now apply Qle_lt_trans with b.
  - now apply Qfloor_resp_le.
Qed.

Lemma scaled_mono (a b : Q) :
  a <= b ->
  (if Qltb a 0 then a * inject_Z 0x8000 else a * inject_Z 0x7FFF)
  <= (if Qltb b 0 then b * inject_Z 0x8000 else b * inject_Z 0x7FFF).
Proof.
  intros Hab.
  destruct (Qltb a 0) eqn:Ha; destruct (Qltb b 0) eqn:Hb.
  - apply Qmult_le_compat_r; [exact Hab | discriminate].
  - apply Qltb_true in Ha. apply Qltb_false in Hb.
    apply Qle_trans with 0.
    + rewrite <- (Qmult_0_l (inject_Z 0x8000)).
      apply Qmult_le_compat_r; [now apply Qlt_le_weak | discriminate].
    + rewrite <- (Qmult_0_l (inject_Z 0x7FFF)).
      apply Qmult_le_compat_r; [exact Hb | discriminate].
  - apply Qltb_false in Ha. apply Qltb_true in Hb.
    exfalso. apply (Qlt_irrefl 0).
    apply Qle_lt_trans with a; [exact Ha |].
    now apply Qle_lt_trans with b.
  - apply Qmult_le_compat_r; [exact Hab | discriminate].
Qed.

Lemma clamped_mono (a b : Q) :
  a <= b ->
  (if Qltb a 1 then (if Qltb (-1) a then a else -1) else 1)
  <= (if Qltb b 1 then (if Qltb (-1) b then b else -1) else 1).
Proof.
  intros Hab.
  destruct (Qltb a 1) eqn:A1; destruct (Qltb (-1) a) eqn:A2;
    destruct (Qltb b 1) eqn:B1; destruct (Qltb (-1) b) eqn:B2;
    rewrite ?Qltb_true, ?Qltb_false in *;
    try exact Hab; try discriminate;
    try (now apply Qlt_le_weak);
    try (exfalso; apply (Qlt_irrefl a);
         first [ now apply Qle_lt_trans with b; [exact Hab | apply Qle_lt_trans with (-1)]
               | idtac ]).
  all: try (exfalso; apply (Qlt_irrefl (-1));
            apply Qlt_le_trans with a; [assumption |];
            now apply Qle_trans with b).
  all: try (exfalso; apply (Qlt_irrefl 1);
            apply Qle_lt_trans with a; [assumption |];
            now apply Qle_lt_trans with b).
  all: try (exfalso; apply (Qlt_irrefl (-1));
            apply Qlt_le_trans with 1; [reflexivity |];
            apply Qle_trans with a; [assumption |];
            now apply Qle_trans with b).
Qed.

(** X2: The conversion is monotone: a larger sample never gives a smaller
    stored value (the two scale factors meet at 0 and the clamp prevents
    wrap-around). *)
Theorem pcm16Sample_monotone (a b : Q) :
  a <= b -> (pcm16Sample (Finite a) <= pcm16Sample (Finite b))%Z.
Proof.
  intros Hab.
  rewrite (@pcm16Sample_of_clamped (Finite a) _ (clampSample_Finite a)
                                   (clamped_in_range a)).
  rewrite (@pcm16Sample_of_clamped (Finite b) _ (clampSample_Finite b)
                                   (clamped_in_range b)).
  apply truncate_mono, scaled_mono, clamped_mono, Hab.
Qed.

Lemma pcm16Sample_monotone_witness :
  (pcm16Sample (Finite (-3 # 2)) <= pcm16Sample (Finite (1 # 3)))%Z.
Proof. apply pcm16Sample_monotone. discriminate. Defined.

End AudioFacts.

Section ByteFacts.

Import Audio.
Local Open Scope Z_scope.

Lemma wrap16_mod (z : Z) : Pcm.wrap16 (z mod 65536) = Pcm.wrap16 z.
Proof. unfold Pcm.wrap16. now rewrite Z.mod_mod. Qed.

Lemma readInt16LE_bytes (z : Z) (rest : list Z) :
  readInt16LE (int16Bytes z ++ rest) = Pcm.wrap16 z :: readInt16LE rest.
Proof.
  unfold int16Bytes. cbn [app readInt16LE]. f_equal.
  rewrite Z.add_comm, <- Z.div_mod by discriminate.
  apply wrap16_mod.
Qed.

Lemma readInt16LE_Uint8ArrayOf (samples : list Z) :
  readInt16LE (Uint8ArrayOf samples) = map Pcm.wrap16 samples.
Proof.
  unfold Uint8ArrayOf.
  induction samples as [| z l IH]; cbn [flat_map map]; [reflexivity |].
  now rewrite readInt16LE_bytes, IH.
Qed.

Lemma int16Bytes_are_bytes (z b : Z) :
  In b (int16Bytes z) -> 0 <= b <= 255.
Proof.
  unfold int16Bytes. cbn [In].
  pose proof (Z.mod_pos_bound z 65536 eq_refl) as Hu.
  intros [<- | [<- | []]].
  - pose proof (Z.mod_pos_bound (z mod 65536) 256 eq_refl). lia.
  - split; [apply Z.div_pos; lia |].
    assert (z mod 65536 / 256 < 256) by (apply Z.div_lt_upper_bound; lia). lia.
Qed.

(** X3: [convertWebMToPCM] yields two bytes per decoded sample, each a byte,
    and a reader of little-endian signed 16-bit PCM gets back exactly the
    converted samples: no sample is lost or altered by the byte view.  When
    decoding is rejected the result is null. *)
Theorem convertWebMToPCM_bytes_read_back (samples : list Pcm.float) :
  exists bytes,
    convertWebMToPCM (Some samples) = Some bytes
    /\ List.length bytes = (2 * List.length samples)%nat
    /\ Forall (fun b => 0 <= b <= 255) bytes
    /\ readInt16LE bytes = map Pcm.pcm16Sample samples
    /\ convertWebMToPCM None = None.
Proof.
  eexists. split; [reflexivity |]. repeat split.
  - unfold Uint8ArrayOf, Pcm.pcm16Block.
    induction samples as [| x l IH]; cbn [map flat_map List.length];
      [reflexivity |].
    rewrite length_app, IH. cbn. lia.
  - apply Forall_forall. intros b Hb.
    unfold Uint8ArrayOf in Hb. apply in_flat_map in Hb.
    destruct Hb as (z & _ & Hb). exact (@int16Bytes_are_bytes _ _ Hb).
  - rewrite readInt16LE_Uint8ArrayOf. unfold Pcm.pcm16Block.
    rewrite map_map. apply map_ext. intros x.
    apply wrap16_in_range. apply pcm16Sample_range.
Qed.

(** *** Chunked sending *)

Lemma sendLoop_prefix (fuel : nat) (pcmData : list Z) (openAt : nat -> bool)
      (offset k : nat) :
  exists rest,
    skipn offset pcmData
    = List.concat (sendLoop fuel pcmData openAt offset k) ++ rest.
Proof.
  revert offset k. induction fuel as [| fuel IH]; intros offset k;
    cbn [sendLoop].
  - now exists (skipn offset pcmData).
  - destruct (Nat.ltb offset (List.length pcmData));
      [| now exists (skipn offset pcmData)].
    destruct (openAt k); [| now exists (skipn offset pcmData)].
    destruct (IH (offset + chunkSize)%nat (S k)) as [rest Hrest].
    exists rest. cbn [List.concat]. rewrite <- app_assoc, <- Hrest.
    unfold slice.
    replace (offset + chunkSize - offset)%nat with chunkSize by lia.
    rewrite Nat.add_comm, <- skipn_skipn.
    symmetry. apply firstn_skipn.
Qed.

Lemma sendLoop_all (fuel : nat) (pcmData : list Z) (openAt : nat -> bool)
      (offset k : nat) :
  (forall i, openAt i = true) ->
  (List.length pcmData <= offset + fuel)%nat ->
  List.concat (sendLoop fuel pcmData openAt offset k) = skipn offset pcmData.
Proof.
  intros Hopen. revert offset k.
  induction fuel as [| fuel IH]; intros offset k Hfuel; cbn [sendLoop].
  - cbn. symmetry. apply skipn_all2. lia.
  - destruct (Nat.ltb_spec offset (List.length pcmData)) as [Hlt | Hge].
    + rewrite Hopen. cbn [List.concat].
      rewrite IH by (unfold chunkSize; lia).
      unfold slice.
      replace (offset + chunkSize - offset)%nat with chunkSize by lia.
      rewrite (Nat.add_comm offset), <- skipn_skipn.
      apply firstn_skipn.
    + cbn. symmetry. now apply skipn_all2.
Qed.

Lemma sendLoop_chunk_sizes (fuel : nat) (pcmData : list Z)
      (openAt : nat -> bool) (offset k : nat) (chunk : list Z) :
  In chunk (sendLoop fuel pcmData openAt offset k) ->
  (0 < List.length chunk <= chunkSize)%nat.
Proof.
  revert offset k. induction fuel as [| fuel IH]; intros offset k;
    cbn [sendLoop]; [intros [] |].
  destruct (Nat.ltb_spec offset (List.length pcmData)) as [Hlt | Hge];
    [| intros []].
  destruct (openAt k); [| intros []].
  intros [<- | Hin]; [| exact (IH _ _ Hin)].
  unfold slice. rewrite length_firstn, length_skipn. unfold chunkSize. lia.
Qed.

(** X4: [sendPCMInChunks] never sends anything but the data itself, in order:
    whatever the socket does, the chunks sent, put end to end, are a prefix
    of the data, and every chunk holds between 1 and 1280 bytes.  When the
    socket stays open the whole data is sent; when it is closed at the
    first iteration nothing is. *)
Theorem sendPCMInChunks_sends_prefix_in_order
        (pcmData : list Z) (openAt : nat -> bool) :
  (exists rest, pcmData = List.concat (sendPCMInChunks pcmData openAt) ++ rest)
  /\ Forall (fun chunk => (0 < List.length chunk <= 1280)%nat)
            (sendPCMInChunks pcmData openAt)
  /\ ((forall i, openAt i = true) ->
      List.concat (sendPCMInChunks pcmData openAt) = pcmData)
  /\ (openAt 0%nat = false -> sendPCMInChunks pcmData openAt = []).
Proof.
  unfold sendPCMInChunks. repeat split.
  - exact (sendLoop_prefix (List.length pcmData) pcmData openAt 0 0).
  - apply Forall_forall. intros chunk Hin.
    exact (@sendLoop_chunk_sizes _ _ _ _ _ _ Hin).
  - intros Hopen.
    now rewrite (@sendLoop_all _ pcmData openAt 0 0 Hopen).
  - intros Hclosed. destruct pcmData as [| b l]; [reflexivity |].
    cbn [List.length sendLoop]. cbn [Nat.ltb Nat.leb]. now rewrite Hclosed.
Qed.

End ByteFacts.

(** ** Identifiers *)

Section IdentifierFacts.

Import Ids.
Local Open Scope Z_scope.

Lemma charAt_in_range (i : Z) :
  0 <= i < 16 ->
  exists c, charAt characters i = [c] /\ In c characters.
Proof.
  intros Hi. unfold charAt.
  destruct (Z.ltb_spec i 0) as [Hneg | _]; [lia |].
  destruct (nth_error characters (Z.to_nat i)) as [c |] eqn:E.
  - exists c. split; [reflexivity |]. exact (nth_error_In _ _ E).
  - apply nth_error_None in E.
    change (List.length characters) with 16%nat in E. lia.
Qed.

Lemma hexLoop_spec (random : nat -> Q) (n i : nat) (result : jsstring) :
  (forall j, (0 <= random j)%Q /\ (random j < 1)%Q) ->
  Forall (fun c => In c characters) result ->
  List.length (hexLoop random i n result) = (List.length result + n)%nat
  /\ Forall (fun c => In c characters) (hexLoop random i n result).
Proof.
  intros Hrandom. revert i result.
  induction n as [| n IH]; intros i result Hres; cbn [hexLoop].
  - split; [lia | exact Hres].
  - change (Z.of_nat (List.length characters)) with 16.
    destruct (Hrandom i) as [Hlo Hhi].
    assert (Hfloor : 0 <= Qfloor (random i * inject_Z 16) < 16).
    { split.
      - change 0 with (Qfloor 0). apply Qfloor_resp_le.
        rewrite <- (Qmult_0_l (inject_Z 16)).
        apply Qmult_le_compat_r; [exact Hlo | discriminate].
      - assert (Hlt : (random i * inject_Z 16 < inject_Z 16)%Q).
        { setoid_replace (inject_Z 16) with (1 * inject_Z 16)%Q at 2
            by reflexivity.
          apply Qmult_lt_compat_r; [reflexivity | exact Hhi]. }
        pose proof (Qfloor_le (random i * inject_Z 16)) as Hle.
        assert (Hz : (inject_Z (Qfloor (random i * inject_Z 16)) < inject_Z 16)%Q)
          by (eapply Qle_lt_trans; eassumption).
        rewrite <- Zlt_Qlt in Hz. exact Hz. }
    destruct (charAt_in_range Hfloor) as (c & Hc & Hin). rewrite Hc.
    destruct (IH (S i) (result ++ [c])) as [Hlen Hall].
    + apply Forall_app. split; [exact Hres | now constructor].
    + split; [| exact Hall]. rewrite Hlen, length_app. cbn. lia.
Qed.

(** X5: [generate32HexId] returns exactly 32 characters, each one of
    [0-9a-f], provided [Math.random()] returns values in [0, 1) as it is
    specified to. *)
Theorem generate32HexId_is_32_hex_digits (random : nat -> Q) :
  (forall j, (0 <= random j)%Q /\ (random j < 1)%Q) ->
  List.length (generate32HexId random) = 32%nat
  /\ Forall (fun c => In c characters) (generate32HexId random).
Proof.
  intros Hrandom. unfold generate32HexId.
  destruct (@hexLoop_spec random 32 0 [] Hrandom) as [Hlen Hall];
    [constructor |].
  split; [exact Hlen | exact Hall].
Qed.

Lemma generate32HexId_is_32_hex_digits_witness :
  List.length (generate32HexId (fun n => if Nat.even n then 0%Q else (15 # 16)%Q))
  = 32%nat.
Proof.
  apply (@generate32HexId_is_32_hex_digits
           (fun n => if Nat.even n then 0%Q else (15 # 16)%Q)).
  intros j. destruct (Nat.even j); split; discriminate || reflexivity.
Defined.

End IdentifierFacts.

(** ** Substrings and alternations *)

Section SubstringFacts.

Local Open Scope list_scope.

Lemma startsWith_split (p s : jsstring) :
  startsWith p s = true -> exists b, s = p ++ b.
Proof.
  revert s. induction p as [| x p IH]; intros s; cbn [startsWith].
  - intros _. now exists s.
  - destruct s as [| y s]; [discriminate |].
    rewrite andb_true_iff, N.eqb_eq. intros [-> H].
    destruct (IH _ H) as [b ->]. now exists b.
Qed.

Lemma includes_split (s p : jsstring) :
  includes s p = true -> exists a b, s = a ++ p ++ b.
Proof.
  induction s as [| c s IH]; cbn [includes].
  - destruct (startsWith p []) eqn:E; [| discriminate].
    intros _. destruct (startsWith_split _ _ E) as [b Hb]. now exists [], b.
  - destruct (startsWith p (c :: s)) eqn:E.
    + intros _. destruct (startsWith_split _ _ E) as [b Hb]. now exists [], b.
    + intros H. destruct (IH H) as (a & b & ->). now exists (c :: a), b.
Qed.

Lemma includes_iff (s p : jsstring) :
  includes s p = true <-> exists a b, s = a ++ p ++ b.
Proof.
  split; [apply includes_split |].
  intros (a & b & ->). apply includes_middle.
Qed.

(** A string that includes [p] includes whatever [p] includes. *)
Lemma includes_trans (s p k : jsstring) :
  includes s p = true -> includes p k = true -> includes s k = true.
Proof.
  intros Hsp Hpk.
  destruct (includes_split _ _ Hsp) as (a & b & ->).
  destruct (includes_split _ _ Hpk) as (a' & b' & ->).
  apply includes_iff. exists (a ++ a'), (b' ++ b).
  now rewrite <- !app_assoc.
Qed.

Lemma includes_refl (s : jsstring) : includes s s = true.
Proof. apply includes_iff. exists [], []. now rewrite app_nil_r. Qed.

(** Every code unit of an included string occurs in the including one. *)
Lemma includes_units (s p : jsstring) (c : codeunit) :
  includes s p = true -> In c p -> In c s.
Proof.
  intros H Hc. destruct (includes_split _ _ H) as (a & b & ->).
  rewrite !in_app_iff. tauto.
Qed.

Lemma includes_false_by_unit (cls : codeunit -> bool) (s p : jsstring) :
  forallb cls s = true ->
  existsb (fun c => negb (cls c)) p = true ->
  includes s p = false.
Proof.
  intros Hs Hp. apply not_true_iff_false. intros Hinc.
  apply existsb_exists in Hp. destruct Hp as (c & Hc & Hneg).
  pose proof (includes_units _ _ c Hinc Hc) as Hin.
  rewrite forallb_forall in Hs. rewrite (Hs c Hin) in Hneg. discriminate.
Qed.

(** [text.match(/(a1|...|an)/)] is null exactly when the text includes
    none of the alternatives; a match is one of the alternatives and occurs
    in the text. *)
Lemma matchAlternation_None (alts : list jsstring) (s : jsstring) :
  matchAlternation alts s = None
  <-> forall a, In a alts -> includes s a = false.
Proof.
  induction s as [| c s IH]; cbn [matchAlternation includes];
    unfold firstAlternative.
  - destruct (find (fun a => startsWith a []) alts) as [a0 |] eqn:E.
    + split; [discriminate |]. intros H.
      apply find_some in E. destruct E as [Hin Hst].
      specialize (H a0 Hin). now rewrite Hst in H.
    + split; [| reflexivity]. intros _ a Ha.
      now rewrite (find_none _ _ E a Ha).
  - destruct (find (fun a => startsWith a (c :: s)) alts) as [a0 |] eqn:E.
    + split; [discriminate |]. intros H.
      apply find_some in E. destruct E as [Hin Hst].
      specialize (H a0 Hin). now rewrite Hst in H.
    + rewrite IH. split; intros H a Ha.
      * rewrite (find_none _ _ E a Ha). now apply H.
      * specialize (H a Ha). now rewrite (find_none _ _ E a Ha) in H.
Qed.

Lemma matchAlternation_Some (alts : list jsstring) (s m : jsstring) :
  matchAlternation alts s = Some m -> In m alts /\ includes s m = true.
Proof.
  induction s as [| c s IH]; cbn [matchAlternation includes];
    unfold firstAlternative.
  - destruct (find (fun a => startsWith a []) alts) as [a0 |] eqn:E;
      [| discriminate].
    intros [= <-]. apply find_some in E. destruct E as [Hin Hst].
    now rewrite Hst.
  - destruct (find (fun a => startsWith a (c :: s)) alts) as [a0 |] eqn:E.
    + intros [= <-]. apply find_some in E. destruct E as [Hin Hst].
      now rewrite Hst.
    + intros H. destruct (IH H) as [Hin Hinc]. split; [exact Hin |].
      now destruct (startsWith m (c :: s)).
Qed.

(** Dropping code units keeps the remaining ones; trimming too. *)
Lemma In_trimStart (s : jsstring) (c : codeunit) :
  In c (trimStart s) -> In c s.
Proof.
  induction s as [| x s IH]; cbn [trimStart]; [auto |].
  destruct (isWhiteSpace x); [intros H; right; now apply IH | auto].
Qed.

Lemma In_trim (s : jsstring) (c : codeunit) : In c (trim s) -> In c s.
Proof.
  unfold trim, trimEnd. intros H.
  apply In_trimStart. apply in_rev. apply In_trimStart. now apply in_rev in H.
Qed.

Lemma forallb_trim (cls : codeunit -> bool) (s : jsstring) :
  forallb cls s = true -> forallb cls (trim s) = true.
Proof.
  rewrite !forallb_forall. intros H c Hc. apply H. now apply In_trim.
Qed.

End SubstringFacts.

(** ** Direct type matching *)

Section DirectFacts.

Import Classifier.
Local Open Scope list_scope.

Lemma exactHit_includes (clean p : jsstring) :
  exactHit clean p
  = includes clean (removeClass isSpaceVariant (toLowerCase p)).
Proof.
  unfold exactHit.
  destruct (strictEq clean (removeClass isSpaceVariant (toLowerCase p))) eqn:E;
    [| reflexivity].
  apply strictEq_eq in E. rewrite <- E. now rewrite includes_refl.
Qed.

(** A group of patterns each of which contains one of two keywords, the
    keywords being patterns themselves, is hit exactly when the cleaned
    text includes one of the keywords. *)
Lemma group_hit (clean k1 k2 : jsstring) (pats : list jsstring) :
  forallb (fun p => includes (removeClass isSpaceVariant (toLowerCase p)) k1
                    || includes (removeClass isSpaceVariant (toLowerCase p)) k2)
          pats = true ->
  existsb (fun p => strictEq (removeClass isSpaceVariant (toLowerCase p)) k1)
          pats = true ->
  existsb (fun p => strictEq (removeClass isSpaceVariant (toLowerCase p)) k2)
          pats = true ->
  existsb (exactHit clean) pats = includes clean k1 || includes clean k2.
Proof.
  intros Hall H1 H2.
  destruct (includes clean k1 || includes clean k2) eqn:E.
  - apply existsb_exists. apply orb_true_iff in E.
    destruct E as [E | E]; [apply existsb_exists in H1 as (p & Hp & Hk)
                           | apply existsb_exists in H2 as (p & Hp & Hk)];
      exists p; (split; [exact Hp |]);
      rewrite exactHit_includes; apply strictEq_eq in Hk; now rewrite Hk.
  - apply not_true_iff_false. intros Hex.
    apply existsb_exists in Hex. destruct Hex as (p & Hp & Hhit).
    rewrite exactHit_includes in Hhit.
    rewrite forallb_forall in Hall. specialize (Hall p Hp).
    apply orb_false_iff in E. destruct E as [E1 E2].
    apply orb_true_iff in Hall. destruct Hall as [Hk | Hk].
    + rewrite (includes_trans _ _ _ Hhit Hk) in E1. discriminate.
    + rewrite (includes_trans _ _ _ Hhit Hk) in E2. discriminate.
Qed.

Lemma exactPass_by_keywords (clean : jsstring) :
  exactPass clean
  = if includes clean (js "安全") || includes clean (js "safety")
    then Some (Result.mk SAFETY SAFETY None)
    else if includes clean (js "效率") || includes clean (js "efficiency")
    then Some (Result.mk EFFICIENCY EFFICIENCY None)
    else if includes clean (js "体验") || includes clean (js "experience")
    then Some (Result.mk EXPERIENCE EXPERIENCE None)
    else None.
Proof.
  unfold exactPass, directMatches.
  cbn [find patterns dm_type dm_subType].
  rewrite (@group_hit clean (js "安全") (js "safety"))
    by (vm_compute; reflexivity).
  rewrite (@group_hit clean (js "效率") (js "efficiency"))
    by (vm_compute; reflexivity).
  rewrite (@group_hit clean (js "体验") (js "experience"))
    by (vm_compute; reflexivity).
  destruct (includes clean (js "安全") || includes clean (js "safety"));
    [reflexivity |].
  destruct (includes clean (js "效率") || includes clean (js "efficiency"));
    [reflexivity |].
  destruct (includes clean (js "体验") || includes clean (js "experience"));
    reflexivity.
Qed.

Lemma fuzzyPass_needs_keyword (clean : jsstring) :
  includes clean (js "安全") = false ->
  includes clean (js "效率") = false ->
  includes clean (js "体验") = false ->
  fuzzyPass clean = None.
Proof.
  intros H1 H2 H3. unfold fuzzyPass, fuzzyMatches.
  cbn [find fuzzyHit fuzzyPatterns existsb].
  now rewrite H1, H2, H3.
Qed.

Lemma directTypeMatching_exact (text : jsstring) :
  directTypeMatching text = exactPass (cleanText text).
Proof.
  assert (Hfuzzy : exactPass (cleanText text) = None ->
                   fuzzyPass (cleanText text) = None).
  { rewrite exactPass_by_keywords.
    destruct (includes (cleanText text) (js "安全")) eqn:H1;
      [discriminate |].
    destruct (includes (cleanText text) (js "safety")); [discriminate |].
    destruct (includes (cleanText text) (js "效率")) eqn:H2;
      [discriminate |].
    destruct (includes (cleanText text) (js "efficiency")); [discriminate |].
    destruct (includes (cleanText text) (js "体验")) eqn:H3;
      [discriminate |].
    intros _. now apply fuzzyPass_needs_keyword. }
  unfold directTypeMatching. cbv zeta.
  destruct (exactPass (cleanText text)) eqn:E; [reflexivity |].
  now apply Hfuzzy.
Qed.

(** X6: [directTypeMatching] is decided by six keywords in the cleaned text:
    安全 or safety give 安全接管; failing that, 效率 or efficiency give
    效率接管; failing that, 体验 or experience give 体验问题; otherwise
    null.  The subType is always the category itself and there is no
    matched text.  The fuzzy pass never finds what the exact pass missed. *)
Theorem directTypeMatching_decided_by_six_keywords (text : jsstring) :
  directTypeMatching text
  = (if includes (cleanText text) (js "安全")
        || includes (cleanText text) (js "safety")
     then Some (Result.mk SAFETY SAFETY None)
     else if includes (cleanText text) (js "效率")
             || includes (cleanText text) (js "efficiency")
     then Some (Result.mk EFFICIENCY EFFICIENCY None)
     else if includes (cleanText text) (js "体验")
             || includes (cleanText text) (js "experience")
     then Some (Result.mk EXPERIENCE EXPERIENCE None)
     else None)
  /\ directTypeMatching text = exactPass (cleanText text).
Proof.
  split; [| apply directTypeMatching_exact].
  rewrite directTypeMatching_exact. apply exactPass_by_keywords.
Qed.

(** *** Spacing and punctuation *)

Lemma removeClass_app (cls : codeunit -> bool) (a b : jsstring) :
  removeClass cls (a ++ b) = removeClass cls a ++ removeClass cls b.
Proof. unfold removeClass. apply filter_app. Qed.

Lemma removeClass_cons (cls : codeunit -> bool) (c : codeunit) (w : jsstring) :
  removeClass cls (c :: w)
  = if cls c then removeClass cls w else c :: removeClass cls w.
Proof. unfold removeClass. cbn [filter]. now destruct (cls c). Qed.

Lemma cleaning_drops (w : jsstring) :
  forallb (fun c => isSpaceVariant c || isPunctuation c) w = true ->
  removeClass isPunctuation (removeClass isSpaceVariant w) = [].
Proof.
  induction w as [| c w IH]; [reflexivity |].
  intros Hall. apply andb_true_iff in Hall. destruct Hall as [Hc Hw].
  rewrite removeClass_cons.
  destruct (isSpaceVariant c) eqn:Hs; [now apply IH |].
  rewrite removeClass_cons.
  apply orb_true_iff in Hc. destruct Hc as [Hc | Hc]; [discriminate |].
  rewrite Hc. now apply IH.
Qed.

(** X7: Whitespace (of any of the kinds the first [replace] lists) and the
    punctuation marks of the second [replace] never change the result of
    [directTypeMatching], wherever they stand in the text. *)
Theorem directTypeMatching_ignores_spacing_and_punctuation
        (a w b : jsstring) :
  forallb (fun c => isSpaceVariant c || isPunctuation c) w = true ->
  directTypeMatching (a ++ w ++ b) = directTypeMatching (a ++ b).
Proof.
  intros Hw.
  assert (Hclean : cleanText (a ++ w ++ b) = cleanText (a ++ b)).
  { unfold cleanText. do 2 f_equal.
    rewrite !removeClass_app, (cleaning_drops w Hw). reflexivity. }
  unfold directTypeMatching. cbv zeta. now rewrite Hclean.
Qed.

Lemma directTypeMatching_ignores_spacing_and_punctuation_witness :
  directTypeMatching (js "效率" ++ js " ， " ++ js "问题")
  = directTypeMatching (js "效率" ++ js "问题").
Proof.
  apply directTypeMatching_ignores_spacing_and_punctuation.
  vm_compute. reflexivity.
Defined.

End DirectFacts.

(** ** The multi-pattern strategy *)

Section SmartFacts.

Import Classifier.
Local Open Scope list_scope.

Lemma orNull_Some (results l : list Result.t) :
  orNull results = Some l -> l = results /\ l <> [].
Proof.
  destruct results as [| e rest]; cbn; [discriminate |].
  intros [= <-]. split; [reflexivity | discriminate].
Qed.

Lemma orNull_of_In (results : list Result.t) (e : Result.t) :
  In e results -> orNull results = Some results.
Proof. destruct results; [intros [] | reflexivity]. Qed.

Lemma pushMatches_bound type table text :
  (List.length (pushMatches type table text) <= List.length table)%nat.
Proof. rewrite pushMatches_length. apply filter_length_le. Qed.

(** The pairs (type, subType) of the entries are those of the rows that
    match, in table order. *)
Lemma pushMatches_keys type table text :
  map (fun e => (Result.type e, Result.subType e))
      (pushMatches type table text)
  = map (fun p => (type, p_subType p))
        (filter (fun p => match matchAlternation (pattern p) text with
                          | Some _ => true
                          | None => false
                          end) table).
Proof.
  unfold pushMatches.
  induction table as [| p table IH]; cbn [flat_map filter map];
    [reflexivity |].
  rewrite map_app, IH.
  destruct (matchAlternation (pattern p) text); reflexivity.
Qed.

Lemma NoDup_app_keys {K : Type} (a b : list K) (a' b' : list K) :
  NoDup (a ++ b) ->
  (forall k, In k a' -> In k a) -> (forall k, In k b' -> In k b) ->
  NoDup a' -> NoDup b' -> NoDup (a' ++ b').
Proof.
  intros Hab Ha Hb Hna Hnb.
  induction a' as [| x a' IH]; cbn [app]; [exact Hnb |].
  inversion Hna as [| ? ? Hx Hna']; subst.
  constructor.
  - rewrite in_app_iff. intros [Hin | Hin]; [contradiction |].
    assert (Hxa : In x a) by (apply Ha; now left).
    specialize (Hb x Hin).
    clear -Hab Hxa Hb. induction a as [| y a IHa]; [destruct Hxa |].
    cbn [app] in Hab. inversion Hab as [| ? ? Hy Hab']; subst.
    destruct Hxa as [-> | Hxa].
    + apply Hy. rewrite in_app_iff. now right.
    + now apply IHa.
  - apply IH; [intros k Hk; apply Ha; now right | exact Hna'].
Qed.

Lemma NoDup_map_filter {A K : Type} (key : A -> K) (f : A -> bool)
      (l : list A) :
  NoDup (map key l) -> NoDup (map key (filter f l)).
Proof.
  induction l as [| x l IH]; cbn [map filter]; [constructor |].
  intros H. inversion H as [| ? ? Hx Hl]; subst.
  destruct (f x); cbn [map]; [| now apply IH].
  constructor; [| now apply IH].
  intros Hin. apply Hx. apply in_map_iff in Hin.
  destruct Hin as (y & Hy & Hin). apply filter_In in Hin.
  apply in_map_iff. exists y. tauto.
Qed.

Lemma In_map_filter {A K : Type} (key : A -> K) (f : A -> bool)
      (l : list A) (k : K) :
  In k (map key (filter f l)) -> In k (map key l).
Proof.
  rewrite !in_map_iff. intros (y & Hy & Hin). apply filter_In in Hin.
  exists y. tauto.
Qed.

(** The fifteen pairs (type, subType) of the three tables are distinct. *)
Lemma table_keys_distinct :
  NoDup (map (fun p => (EXPERIENCE, p_subType p)) experiencePatterns
         ++ map (fun p => (EFFICIENCY, p_subType p)) efficiencyPatterns
         ++ map (fun p => (SAFETY, p_subType p)) safetyPatterns).
Proof.
  vm_compute.
  repeat (constructor;
          [cbn [In]; intros Hin;
           repeat (destruct Hin as [Hin | Hin]; [discriminate Hin |]);
           exact Hin |]).
  constructor.
Qed.

Lemma smartRecognitionMultiple_length (text : jsstring) (l : list Result.t) :
  smartRecognitionMultiple text = Some l -> (List.length l <= 15)%nat.
Proof.
  unfold smartRecognitionMultiple. intros H.
  apply orNull_Some in H. destruct H as [-> _].
  rewrite !length_app.
  pose proof (pushMatches_bound EXPERIENCE experiencePatterns text).
  pose proof (pushMatches_bound EFFICIENCY efficiencyPatterns text).
  pose proof (pushMatches_bound SAFETY safetyPatterns text).
  change (List.length experiencePatterns) with 5%nat in *.
  change (List.length efficiencyPatterns) with 5%nat in *.
  change (List.length safetyPatterns) with 5%nat in *.
  lia.
Qed.

(** X8: When [smartRecognitionMultiple] returns a list it is not empty and has
    at most 15 entries, one per matching row; every entry has one of the
    three category labels as type and carries a non-empty matched text that
    occurs in the utterance; and no two entries have the same type and
    subType, so the entries of one utterance never suppress one another as
    duplicates. *)
Theorem smartRecognitionMultiple_entries (text : jsstring) (l : list Result.t) :
  smartRecognitionMultiple text = Some l ->
  l <> []
  /\ (List.length l <= 15)%nat
  /\ (forall e, In e l ->
        In (Result.type e) [EXPERIENCE; EFFICIENCY; SAFETY]
        /\ exists m, Result.matchedText e = Some m
                     /\ m <> []
                     /\ includes text m = true)
  /\ NoDup (map (fun e => (Result.type e, Result.subType e)) l).
Proof.
  unfold smartRecognitionMultiple. intros H.
  apply orNull_Some in H. destruct H as [-> Hne].
  split; [exact Hne |]. split; [| split].
  - rewrite !length_app.
    pose proof (pushMatches_bound EXPERIENCE experiencePatterns text).
    pose proof (pushMatches_bound EFFICIENCY efficiencyPatterns text).
    pose proof (pushMatches_bound SAFETY safetyPatterns text).
    change (List.length experiencePatterns) with 5%nat in *.
    change (List.length efficiencyPatterns) with 5%nat in *.
    change (List.length safetyPatterns) with 5%nat in *.
    lia.
  - assert (Hrow : forall type table e,
               forallb (fun p => forallb (fun a => negb (strictEq a []))
                                         (pattern p)) table = true ->
               In e (pushMatches type table text) ->
               Result.type e = type
               /\ exists m, Result.matchedText e = Some m /\ m <> []
                            /\ includes text m = true).
    { intros type table e Htable Hin.
      apply pushMatches_In in Hin. destruct Hin as (p & m & Hp & Hm & ->).
      split; [reflexivity |]. exists m. split; [reflexivity |].
      apply matchAlternation_Some in Hm. destruct Hm as [Halt Hinc].
      split; [| exact Hinc].
      rewrite forallb_forall in Htable. specialize (Htable p Hp).
      rewrite forallb_forall in Htable. specialize (Htable m Halt).
      intros ->. discriminate. }
    intros e Hin. rewrite !in_app_iff in Hin.
    destruct Hin as [Hin | [Hin | Hin]];
      apply Hrow in Hin; try (vm_compute; reflexivity);
      destruct Hin as [<- Hm]; (split; [cbn; tauto | exact Hm]).
  - rewrite !map_app, !pushMatches_keys.
    pose proof table_keys_distinct as Hd.
    apply (NoDup_app_keys _ _ Hd).
    + intros k. apply In_map_filter.
    + intros k Hk. rewrite in_app_iff in *.
      destruct Hk as [Hk | Hk]; [left | right];
        exact (In_map_filter _ _ _ _ Hk).
    + apply NoDup_map_filter. apply NoDup_app_remove_r in Hd. exact Hd.
    + apply NoDup_app_remove_l in Hd.
      apply (NoDup_app_keys _ _ Hd).
      * intros k. apply In_map_filter.
      * intros k. apply In_map_filter.
      * apply NoDup_map_filter. apply NoDup_app_remove_r in Hd. exact Hd.
      * apply NoDup_map_filter. apply NoDup_app_remove_l in Hd. exact Hd.
Qed.

Lemma smartRecognitionMultiple_entries_witness :
  exists l, smartRecognitionMultiple Page.weavingAndBraking = Some l
            /\ (List.length l <= 15)%nat.
Proof.
  eexists. split; [exact weaving_smart_matches |].
  apply (@smartRecognitionMultiple_entries Page.weavingAndBraking).
  exact weaving_smart_matches.
Defined.

(** *** The earlier single-result recogniser *)

Lemma firstRow_Some type table text r :
  Legacy.firstRow type table text = Some r ->
  exists p, In p table /\ Legacy.test p text = true
            /\ r = Result.mk type (p_subType p) None.
Proof.
  unfold Legacy.firstRow.
  destruct (find (fun p => Legacy.test p text) table) as [p |] eqn:E;
    [| discriminate].
  intros [= <-]. apply find_some in E. now exists p.
Qed.

(** A row whose alternatives are all among those of a row of the newer
    table, with the same subType, is answered by the newer table. *)
Lemma covered_row type (older newer : list Pattern) text r :
  forallb (fun p =>
             existsb (fun p' =>
                        strictEq (p_subType p') (p_subType p)
                        && forallb (fun a => existsb (strictEq a) (pattern p'))
                                   (pattern p))
                     newer) older = true ->
  Legacy.firstRow type older text = Some r ->
  exists e, In e (pushMatches type newer text)
            /\ Result.type e = Result.type r
            /\ Result.subType e = Result.subType r.
Proof.
  intros Hcover Hfirst.
  apply firstRow_Some in Hfirst. destruct Hfirst as (p & Hp & Htest & ->).
  rewrite forallb_forall in Hcover. specialize (Hcover p Hp).
  apply existsb_exists in Hcover. destruct Hcover as (p' & Hp' & Hcov).
  apply andb_true_iff in Hcov. destruct Hcov as [Hsub Halts].
  apply strictEq_eq in Hsub.
  unfold Legacy.test in Htest.
  destruct (matchAlternation (pattern p) text) as [m |] eqn:Hm;
    [| discriminate].
  apply matchAlternation_Some in Hm. destruct Hm as [Hin Hinc].
  rewrite forallb_forall in Halts. specialize (Halts m Hin).
  apply existsb_exists in Halts. destruct Halts as (m' & Hin' & Heq).
  apply strictEq_eq in Heq. subst m'.
  destruct (matchAlternation (pattern p') text) as [m' |] eqn:Hm'.
  - exists (Result.mk type (p_subType p') (Some m')).
    split; [| split; [reflexivity | exact Hsub]].
    apply pushMatches_In. now exists p', m'.
  - rewrite matchAlternation_None in Hm'.
    rewrite (Hm' m Hin') in Hinc. discriminate.
Qed.

(** X9: Whatever the single-result [smartRecognition] recognises, the
    multi-pattern strategy recognises too: its list holds an entry of the
    same type and subType. *)
Theorem smartRecognition_covered_by_multiple (text : jsstring) (r : Result.t) :
  Legacy.smartRecognition text = Some r ->
  exists l e, smartRecognitionMultiple text = Some l
              /\ In e l
              /\ Result.type e = Result.type r
              /\ Result.subType e = Result.subType r.
Proof.
  unfold Legacy.smartRecognition, smartRecognitionMultiple. intros H.
  assert (He : exists e,
             In e (pushMatches EXPERIENCE experiencePatterns text
                   ++ pushMatches EFFICIENCY efficiencyPatterns text
                   ++ pushMatches SAFETY safetyPatterns text)
             /\ Result.type e = Result.type r
             /\ Result.subType e = Result.subType r).
  { destruct (Legacy.firstRow EXPERIENCE Legacy.experiencePatterns text)
      as [r1 |] eqn:E1.
    - injection H as <-.
      destruct (@covered_row EXPERIENCE Legacy.experiencePatterns
                             experiencePatterns text r1) as (e & Hin & Ht);
        [vm_compute; reflexivity | exact E1 |].
      exists e. rewrite !in_app_iff. tauto.
    - destruct (Legacy.firstRow EFFICIENCY Legacy.efficiencyPatterns text)
        as [r2 |] eqn:E2.
      + injection H as <-.
        destruct (@covered_row EFFICIENCY Legacy.efficiencyPatterns
                               efficiencyPatterns text r2) as (e & Hin & Ht);
          [vm_compute; reflexivity | exact E2 |].
        exists e. rewrite !in_app_iff. tauto.
      + destruct (@covered_row SAFETY Legacy.safetyPatterns
                               safetyPatterns text r) as (e & Hin & Ht);
          [vm_compute; reflexivity | exact H |].
        exists e. rewrite !in_app_iff. tauto. }
  destruct He as (e & Hin & Ht).
  eexists. exists e. split; [exact (orNull_of_In _ _ Hin) |].
  split; [exact Hin | exact Ht].
Qed.

Lemma smartRecognition_covered_by_multiple_witness :
  exists l e, smartRecognitionMultiple Page.weavingAndBraking = Some l
              /\ In e l
              /\ Result.type e = EXPERIENCE
              /\ Result.subType e = js "画龙".
Proof.
  apply (@smartRecognition_covered_by_multiple
           Page.weavingAndBraking
           (Result.mk EXPERIENCE (js "画龙") None)).
  vm_compute. reflexivity.
Defined.

End SmartFacts.

(** ** Blank transcripts *)

Section BlankFacts.

Import Classifier Recorder.
Local Open Scope list_scope.
Local Open Scope N_scope.

Lemma whitespace_has_no_case (c : codeunit) :
  isWhiteSpace c = true -> lowerUnit c = c.
Proof.
  unfold isWhiteSpace, memUnit. rewrite orb_true_iff, existsb_exists.
  intros [(x & Hx & Heq) | Hrange].
  - apply N.eqb_eq in Heq. subst x. cbn [In] in Hx.
    repeat (destruct Hx as [<- | Hx]; [reflexivity |]). destruct Hx.
  - apply andb_true_iff in Hrange. destruct Hrange as [Hlo Hhi].
    apply N.leb_le in Hlo, Hhi. unfold lowerUnit.
    replace (c <=? 0x5A) with false by (symmetry; apply N.leb_gt; lia).
    replace (c <=? 0xDE) with false by (symmetry; apply N.leb_gt; lia).
    replace (0xFF21 <=? c) with false by (symmetry; apply N.leb_gt; lia).
    now rewrite !andb_false_r.
Qed.

Lemma blank_has_no_case (c : codeunit) :
  memUnit c (js "。，,.") || isWhiteSpace c = true -> lowerUnit c = c.
Proof.
  rewrite orb_true_iff. intros [Hp | Hw]; [| now apply whitespace_has_no_case].
  unfold memUnit in Hp. apply existsb_exists in Hp.
  destruct Hp as (x & Hx & Heq). apply N.eqb_eq in Heq. subst x.
  change (js "。，,.") with [0x3002; 0xFF0C; 0x2C; 0x2E] in Hx.
  cbn [In] in Hx.
  repeat (destruct Hx as [<- | Hx]; [reflexivity |]). destruct Hx.
Qed.

(** Cleaning and lower-casing a blank text leaves a blank text. *)
Lemma isBlank_toLowerCase (s : jsstring) :
  isBlank s = true -> isBlank (toLowerCase s) = true.
Proof.
  unfold isBlank, toLowerCase. rewrite !forallb_forall.
  intros H c Hc. apply in_map_iff in Hc. destruct Hc as (c' & <- & Hc').
  specialize (H c' Hc'). now rewrite (blank_has_no_case _ H).
Qed.

Lemma isBlank_removeClass (cls : codeunit -> bool) (s : jsstring) :
  isBlank s = true -> isBlank (removeClass cls s) = true.
Proof.
  unfold isBlank, removeClass. rewrite !forallb_forall.
  intros H c Hc. apply filter_In in Hc. now apply H.
Qed.

Lemma isBlank_trim (s : jsstring) : isBlank s = true -> isBlank (trim s) = true.
Proof. unfold isBlank. apply forallb_trim. Qed.

Lemma isBlank_cleanText (s : jsstring) :
  isBlank s = true -> isBlank (cleanText s) = true.
Proof.
  intros H. unfold cleanText.
  now apply isBlank_trim, isBlank_toLowerCase, isBlank_removeClass,
    isBlank_removeClass.
Qed.

(** A blank text includes no string that has a non-blank code unit. *)
Lemma blank_includes_nothing (s p : jsstring) :
  isBlank s = true ->
  existsb (fun c => negb (memUnit c (js "。，,.") || isWhiteSpace c)) p = true ->
  includes s p = false.
Proof.
  intros Hs Hp.
  exact (@includes_false_by_unit
           (fun c => memUnit c (js "。，,.") || isWhiteSpace c) s p Hs Hp).
Qed.

Lemma blank_matches_no_row (text : jsstring) (table : list Pattern)
      (type : jsstring) :
  isBlank text = true ->
  forallb (fun p =>
             forallb (fun a =>
                        existsb (fun c => negb (memUnit c (js "。，,.")
                                                || isWhiteSpace c)) a)
                     (pattern p)) table = true ->
  pushMatches type table text = [].
Proof.
  intros Hs Htable. unfold pushMatches.
  induction table as [| p table IH]; [reflexivity |].
  cbn [forallb] in Htable. apply andb_true_iff in Htable.
  destruct Htable as [Hp Htable]. cbn [flat_map].
  rewrite (IH Htable), app_nil_r.
  assert (Hnone : matchAlternation (pattern p) text = None).
  { apply matchAlternation_None. intros a Ha.
    rewrite forallb_forall in Hp. now apply blank_includes_nothing, Hp. }
  now rewrite Hnone.
Qed.

Lemma blank_includes_none_of (clean : jsstring) (pats : list jsstring) :
  isBlank clean = true ->
  forallb (fun a =>
             existsb (fun c => negb (memUnit c (js "。，,.") || isWhiteSpace c)) a)
          pats = true ->
  existsb (includes clean) pats = false.
Proof.
  intros Hs Hp. apply not_true_iff_false. intros Hex.
  apply existsb_exists in Hex. destruct Hex as (a & Ha & Hinc).
  rewrite forallb_forall in Hp.
  rewrite (@blank_includes_nothing clean a Hs (Hp a Ha)) in Hinc. discriminate.
Qed.

(** X10: A transcript that is empty or made only of 。，,. and whitespace is
    no command, matches no strategy, and makes [handleUserQuestions] return
    the "please speak clearly" prompt: [processVoiceInput] shows that prompt
    and changes nothing in the store. *)
Theorem blank_transcript_only_prompts (host : Host) (text : jsstring) (r : t) :
  isBlank text = true ->
  handleUserQuestions text = Some SpeakClearly
  /\ processVoiceInput host text r
     = emit (showDebugInfo (Help SpeakClearly))
            (emit (displaySubtitle text)
                  (emit (showDebugInfo (VoiceInput text)) r))
  /\ testData (processVoiceInput host text r) = testData r.
Proof.
  intros Hblank.
  assert (Hcmd : isDeleteCommand text = false).
  { unfold isDeleteCommand.
    rewrite !(@blank_includes_nothing text _ Hblank) by (vm_compute; reflexivity).
    reflexivity. }
  assert (Hdirect : directTypeMatching text = None).
  { rewrite directTypeMatching_exact, exactPass_by_keywords.
    pose proof (isBlank_cleanText _ Hblank) as Hclean.
    rewrite !(@blank_includes_nothing (cleanText text) _ Hclean) by (vm_compute; reflexivity).
    reflexivity. }
  assert (Hsmart : smartRecognitionMultiple text = None).
  { unfold smartRecognitionMultiple.
    rewrite !(@blank_matches_no_row text _ _ Hblank) by (vm_compute; reflexivity).
    reflexivity. }
  assert (Hkeyword : keywordRecognitionMultiple text = None).
  { destruct (keywordRecognitionMultiple text) eqn:E; [| reflexivity].
    exfalso. apply (@keyword_strategy_shadowed text); [| exact Hdirect].
    rewrite E. discriminate. }
  assert (Hhelp : handleUserQuestions text = Some SpeakClearly).
  { unfold handleUserQuestions, questionPatterns. cbv zeta.
    pose proof (isBlank_trim _ (isBlank_toLowerCase _ Hblank)) as Hclean.
    cbn [find fst snd].
    rewrite !(@blank_includes_none_of _ _ Hclean) by (vm_compute; reflexivity).
    rewrite Hclean. now rewrite orb_true_r. }
  split; [exact Hhelp |].
  assert (Heq : processVoiceInput host text r
                = emit (showDebugInfo (Help SpeakClearly))
                       (emit (displaySubtitle text)
                             (emit (showDebugInfo (VoiceInput text)) r))).
  { unfold processVoiceInput.
    now rewrite Hcmd, Hdirect, Hsmart, Hkeyword, Hhelp. }
  split; [exact Heq |]. now rewrite Heq.
Qed.

Lemma blank_transcript_only_prompts_witness :
  handleUserQuestions (js "。， ") = Some SpeakClearly
  /\ testData (processVoiceInput Page.ticking (js "。， ")
                                 (Page.afterOneRecord Page.ticking))
     = testData (Page.afterOneRecord Page.ticking).
Proof.
  destruct (@blank_transcript_only_prompts
              Page.ticking (js "。， ") (Page.afterOneRecord Page.ticking))
    as (H1 & _ & H3).
  - vm_compute. reflexivity.
  - split; [exact H1 | exact H3].
Defined.

End BlankFacts.

(** ** What [processVoiceInput] leaves alone *)

Section FrameFacts.

Import Classifier Recorder Frame.
Local Open Scope list_scope.

Lemma logGrows_refl (P : Effect -> Prop) (r : t) : logGrows P r r.
Proof. exists []. split; [now rewrite app_nil_r | constructor]. Qed.

Lemma logGrows_trans (P : Effect -> Prop) (r1 r2 r3 : t) :
  logGrows P r1 r2 -> logGrows P r2 r3 -> logGrows P r1 r3.
Proof.
  intros (t1 & E1 & H1) (t2 & E2 & H2). exists (t1 ++ t2). split.
  - now rewrite E2, E1, app_assoc.
  - apply Forall_app. now split.
Qed.

Lemma logGrows_emit (P : Effect -> Prop) (e : Effect) (r r' : t) :
  P e -> logGrows P r r' -> logGrows P r (emit e r').
Proof.
  intros He Hr. apply (logGrows_trans Hr).
  exists [e]. split; [reflexivity | now repeat constructor].
Qed.

Lemma logGrows_weaken (P Q : Effect -> Prop) (r r' : t) :
  (forall e, P e -> Q e) -> logGrows P r r' -> logGrows Q r r'.
Proof.
  intros HPQ (tail & E & H). exists tail. split; [exact E |].
  eapply Forall_impl; [exact HPQ | exact H].
Qed.

Lemma controlKept_refl (r : t) : controlKept r r.
Proof. now repeat split. Qed.

Lemma controlKept_trans (r1 r2 r3 : t) :
  controlKept r1 r2 -> controlKept r2 r3 -> controlKept r1 r3.
Proof.
  unfold controlKept. intros (A1 & B1 & C1 & D1) (A2 & B2 & C2 & D2).
  repeat split; congruence.
Qed.

Lemma storeGrows_trans (m n : nat) (r1 r2 r3 : t) :
  storeGrows m r1 r2 -> storeGrows n r2 r3 -> storeGrows (m + n) r1 r3.
Proof.
  intros (a1 & E1 & H1) (a2 & E2 & H2). exists (a1 ++ a2). split.
  - now rewrite E2, E1, app_assoc.
  - rewrite length_app. lia.
Qed.

Lemma storeGrows_refl (r r' : t) :
  testData r' = testData r -> storeGrows 0 r r'.
Proof. intros E. exists []. split; [now rewrite app_nil_r | reflexivity]. Qed.

Lemma storeGrows_le (m n : nat) (r r' : t) :
  (m <= n)%nat -> storeGrows m r r' -> storeGrows n r r'.
Proof. intros Hmn (a & E & H). exists a. split; [exact E | lia]. Qed.

(** [addRecord] appends at most one record, never touches the sessions or
    the flags, and shows no debug text. *)
Lemma addRecord_frame (host : Host) type subType originalText (r : t) :
  controlKept r (addRecord host type subType originalText r)
  /\ storeGrows 1 r (addRecord host type subType originalText r)
  /\ logGrows notDebug r (addRecord host type subType originalText r).
Proof.
  destruct (currentSession r) as [s |] eqn:Hs.
  - destruct (find (similarRecent type subType (Date_now host (reads r)))
                   (getCurrentSessionRecords r)) as [x |] eqn:Hfind.
    + rewrite (addRecord_suppressed host _ _ originalText r Hs Hfind).
      split; [now repeat split |]. split.
      * apply storeGrows_le with 0%nat; [lia | now apply storeGrows_refl].
      * exists []. split; [cbn; now rewrite app_nil_r | constructor].
    + rewrite (@addRecord_appends host _ _ originalText r s Hs Hfind).
      split; [now repeat split |]. split.
      * eexists. split; [reflexivity | cbn; lia].
      * eexists. split; [reflexivity |].
        repeat constructor; intros d; discriminate.
  - rewrite (addRecord_no_session host _ _ _ r Hs).
    split; [apply controlKept_refl |]. split.
    + apply storeGrows_le with 0%nat; [lia | now apply storeGrows_refl].
    + apply logGrows_refl.
Qed.

Lemma addRecords_frame (host : Host) (results : list Result.t) text (r : t) :
  controlKept r (addRecords host results text r)
  /\ storeGrows (List.length results) r (addRecords host results text r)
  /\ logGrows notDebug r (addRecords host results text r).
Proof.
  unfold addRecords. revert r.
  induction results as [| x l IH]; intros r; cbn [fold_left List.length].
  - split; [apply controlKept_refl |]. split;
      [now apply storeGrows_refl | apply logGrows_refl].
  - destruct (addRecord_frame host (Result.type x) (Result.subType x)
                              (matchedTextOr (Result.matchedText x) text) r)
      as (C1 & S1 & L1).
    destruct (IH (addRecord host (Result.type x) (Result.subType x)
                            (matchedTextOr (Result.matchedText x) text) r))
      as (C2 & S2 & L2).
    split; [exact (controlKept_trans C1 C2) |]. split.
    + exact (storeGrows_trans S1 S2).
    + exact (logGrows_trans L1 L2).
Qed.

Lemma deleteLastRecord_frame (r : t) :
  controlKept r (deleteLastRecord r)
  /\ logGrows notDebug r (deleteLastRecord r).
Proof.
  unfold deleteLastRecord. destruct (rev (testData r)) as [| x l].
  - split; [apply controlKept_refl | apply logGrows_refl].
  - split; [now repeat split |].
    eexists. split; [unfold emit; cbn; rewrite <- !app_assoc; reflexivity |].
    repeat constructor; intros d; discriminate.
Qed.

End FrameFacts.

Section VoiceInputFacts.

Import Classifier Recorder Frame.
Local Open Scope list_scope.

Lemma notDebug_notKeywordDebug (e : Effect) : notDebug e -> notKeywordDebug e.
Proof. intros H l. apply H. Qed.

(** The two calls [processVoiceInput] always starts with. *)
Lemma voice_prologue (text : jsstring) (r : t) :
  logGrows notKeywordDebug r
           (emit (displaySubtitle text)
                 (emit (showDebugInfo (VoiceInput text)) r))
  /\ controlKept r (emit (displaySubtitle text)
                         (emit (showDebugInfo (VoiceInput text)) r)).
Proof.
  split; [| now repeat split].
  apply logGrows_emit; [intros l; discriminate |].
  apply logGrows_emit; [intros l; discriminate | apply logGrows_refl].
Qed.

Lemma keyword_strategy_silent (text : jsstring) :
  directTypeMatching text = None -> keywordRecognitionMultiple text = None.
Proof.
  intros Hd. destruct (keywordRecognitionMultiple text) eqn:E;
    [| reflexivity].
  exfalso. apply (@keyword_strategy_shadowed text); [| exact Hd].
  rewrite E. discriminate.
Qed.

(** X11: The delimiter strategy never decides anything: whenever
    [keywordRecognitionMultiple] would return entries, direct matching has
    already succeeded.  So [isSuccessfulMatch] is decided by the first two
    strategies alone, and [processVoiceInput] never logs a keyword match,
    for any transcript in any state. *)
Theorem delimiter_strategy_never_decides (host : Host) (text : jsstring) (r : t) :
  (directTypeMatching text = None -> keywordRecognitionMultiple text = None)
  /\ Legacy.isSuccessfulMatch text
     = match directTypeMatching text with
       | Some _ => true
       | None => Legacy.nonEmpty (smartRecognitionMultiple text)
       end
  /\ logGrows notKeywordDebug r (processVoiceInput host text r).
Proof.
  pose proof (@keyword_strategy_silent text) as Hshadow.
  split; [exact Hshadow |]. split.
  - unfold Legacy.isSuccessfulMatch.
    destruct (directTypeMatching text) eqn:Hd; [reflexivity |].
    rewrite (Hshadow eq_refl). cbn [Legacy.nonEmpty]. apply orb_false_r.
  - destruct (voice_prologue text r) as [L0 _].
    unfold processVoiceInput.
    set (r0 := emit (displaySubtitle text)
                    (emit (showDebugInfo (VoiceInput text)) r)) in *.
    destruct (isDeleteCommand text).
    { apply logGrows_emit; [intros l; discriminate |].
      apply (logGrows_trans L0).
      apply (@logGrows_weaken _ _ _ _ notDebug_notKeywordDebug).
      apply deleteLastRecord_frame. }
    destruct (directTypeMatching text) as [d |] eqn:Hd.
    { eapply logGrows_trans;
        [| apply (@logGrows_weaken _ _ _ _ notDebug_notKeywordDebug);
           apply addRecord_frame].
      apply logGrows_emit; [intros l; discriminate | exact L0]. }
    rewrite (Hshadow eq_refl).
    destruct (smartRecognitionMultiple text) as [[| x l] |].
    2: { eapply logGrows_trans;
           [| apply (@logGrows_weaken _ _ _ _ notDebug_notKeywordDebug);
              apply addRecords_frame].
         apply logGrows_emit; [intros k; discriminate | exact L0]. }
    all: destruct (handleUserQuestions text);
      (apply logGrows_emit; [intros k; discriminate | exact L0]).
Qed.

(** X12: [processVoiceInput] never opens, closes or alters a session and never
    changes the recording flags; to the store it either applies one undo
    (the last record goes) or appends at most 15 records. *)
Theorem processVoiceInput_keeps_sessions_and_bounds_store
        (host : Host) (text : jsstring) (r : t) :
  controlKept r (processVoiceInput host text r)
  /\ (testData (processVoiceInput host text r) = removelast (testData r)
      \/ storeGrows 15 r (processVoiceInput host text r)).
Proof.
  pose proof (@keyword_strategy_silent text) as Hshadow.
  destruct (voice_prologue text r) as [_ C0].
  unfold processVoiceInput.
  set (r0 := emit (displaySubtitle text)
                  (emit (showDebugInfo (VoiceInput text)) r)) in *.
  assert (D0 : testData r0 = testData r) by reflexivity.
  destruct (isDeleteCommand text).
  { split.
    - apply (controlKept_trans C0).
      apply (@controlKept_trans _ (deleteLastRecord r0));
        [apply deleteLastRecord_frame | now repeat split].
    - left. rewrite emit_testData, testData_deleteLastRecord. now rewrite D0. }
  destruct (directTypeMatching text) as [d |] eqn:Hd.
  { set (r1 := emit (showDebugInfo (DirectMatched (Result.type d))) r0).
    destruct (addRecord_frame host (Result.type d) (Result.subType d) text r1)
      as (C1 & S1 & _).
    split.
    - apply (controlKept_trans C0).
      apply (@controlKept_trans _ r1); [now repeat split | exact C1].
    - right. apply storeGrows_le with 1%nat; [lia |].
      destruct S1 as (a & E & H). exists a. split; [| exact H].
      rewrite E. reflexivity. }
  rewrite (Hshadow eq_refl).
  destruct (smartRecognitionMultiple text) as [[| x l] |] eqn:Hsmart.
  2: { set (r1 := emit (showDebugInfo (SmartMatched
                                         (map Result.subType (x :: l)))) r0).
       destruct (addRecords_frame host (x :: l) text r1) as (C1 & S1 & _).
       pose proof (@smartRecognitionMultiple_length text (x :: l) Hsmart)
         as Hlen.
       split.
       - apply (controlKept_trans C0).
         apply (@controlKept_trans _ r1); [now repeat split | exact C1].
       - right. apply storeGrows_le with (List.length (x :: l)); [exact Hlen |].
         destruct S1 as (a & E & H). exists a. split; [| exact H].
         rewrite E. reflexivity. }
  all: destruct (handleUserQuestions text);
    (split; [apply (controlKept_trans C0); now repeat split |]);
    right; apply storeGrows_le with 0%nat; try lia;
    apply storeGrows_refl; reflexivity.
Qed.

End VoiceInputFacts.

Section LifecycleFacts.

Import Classifier Recorder Frame.
Local Open Scope list_scope.

Variable host : Host.

Lemma restKept_refl (r : t) : restKept r r.
Proof. split; [apply controlKept_refl | reflexivity]. Qed.

Lemma restKept_trans (r1 r2 r3 : t) :
  restKept r1 r2 -> restKept r2 r3 -> restKept r1 r3.
Proof.
  intros [C1 T1] [C2 T2]. split; [exact (controlKept_trans C1 C2) | congruence].
Qed.

Lemma restKept_emit (e : Effect) (r r' : t) :
  restKept r r' -> restKept r (emit e r').
Proof.
  intros H. apply (restKept_trans H). split; [now repeat split | reflexivity].
Qed.

Lemma addRecord_restKept type subType originalText (r : t) :
  restKept r (addRecord host type subType originalText r).
Proof.
  split; [apply addRecord_frame |].
  unfold addRecord. destruct (currentSession r); [| reflexivity].
  cbn [readClock].
  destruct (find _ _); reflexivity.
Qed.

Lemma addRecords_restKept (results : list Result.t) text (r : t) :
  restKept r (addRecords host results text r).
Proof.
  unfold addRecords. revert r.
  induction results as [| x l IH]; intros r; cbn [fold_left];
    [apply restKept_refl |].
  eapply restKept_trans; [apply addRecord_restKept | apply IH].
Qed.

Lemma deleteLastRecord_restKept (r : t) : restKept r (deleteLastRecord r).
Proof.
  split; [apply deleteLastRecord_frame |].
  unfold deleteLastRecord. destruct (rev (testData r)); reflexivity.
Qed.

Lemma processVoiceInput_restKept (text : jsstring) (r : t) :
  restKept r (processVoiceInput host text r).
Proof.
  unfold processVoiceInput.
  set (r0 := emit (displaySubtitle text)
                  (emit (showDebugInfo (VoiceInput text)) r)).
  assert (R0 : restKept r r0)
    by (unfold r0; do 2 apply restKept_emit; apply restKept_refl).
  destruct (isDeleteCommand text).
  { apply restKept_emit. apply (restKept_trans R0).
    apply deleteLastRecord_restKept. }
  destruct (directTypeMatching text) as [d |].
  { eapply restKept_trans; [| apply addRecord_restKept].
    now apply restKept_emit. }
  destruct (smartRecognitionMultiple text) as [[| x l] |].
  2: { eapply restKept_trans; [| apply addRecords_restKept].
       now apply restKept_emit. }
  all: destruct (keywordRecognitionMultiple text) as [[| y k] |];
    try (eapply restKept_trans; [| apply addRecords_restKept];
         now apply restKept_emit);
    destruct (handleUserQuestions text); now apply restKept_emit.
Qed.

Lemma settled_restKept (r r' : t) : settled r -> restKept r r' -> settled r'.
Proof.
  unfold settled, restKept, controlKept.
  intros (H1 & H2 & H3 & H4 & H5) ((E1 & E2 & E3 & E4) & E5).
  rewrite E1, E2, E3, E4, E5. now repeat split; try apply H2.
Qed.

Lemma settled_startTest (r : t) : settled r -> settled (startTest host r).
Proof.
  intros H. unfold startTest.
  destruct (isRecording r || negb (STATES_eqb (state r) STOPPED)) eqn:E;
    [exact H |].
  destruct H as (_ & _ & _ & _ & H5).
  unfold startTimer, readClock, emit. cbn.
  destruct (configured r), (aliyunConnectionReady r); cbn;
    (repeat split; auto; eexists; repeat split).
Qed.

Lemma settled_pauseTest (r : t) : settled r -> settled (pauseTest r).
Proof.
  intros H. unfold pauseTest.
  destruct (negb (isRecording r) || negb (STATES_eqb (state r) RECORDING)) eqn:E;
    [exact H |].
  destruct H as (_ & _ & H3 & _ & H5).
  apply orb_false_iff in E. destruct E as [E1 _].
  apply negb_false_iff in E1. rewrite E1 in H3.
  unfold stopTimer, stopAudioRecording, sendFinishFrame, emit. cbn.
  rewrite H3. cbn.
  destruct (websocketOpen r), (isTranscriptionStarted r); cbn;
    (repeat split; auto; intros; discriminate).
Qed.

Lemma settled_stopTest (r : t) : settled r -> settled (stopTest host r).
Proof.
  intros H. unfold stopTest.
  destruct (isRecording r) eqn:E; cbn [negb]; [| exact H].
  destruct H as (_ & _ & H3 & H4 & H5).
  destruct (H4 E) as (s & Hs & _). rewrite E in H3.
  unfold stopTimer, sealCurrentSession, stopAudioRecording, sendFinishFrame,
    getCurrentSessionRecords, readClock, emit.
  cbn. rewrite H3. cbn. rewrite Hs. cbn.
  destruct (websocketOpen r), (isTranscriptionStarted r); cbn;
    (repeat split; auto; try (intros; discriminate);
     apply Forall_app; split; [exact H5 |];
     repeat constructor; cbn; discriminate).
Qed.

Lemma settled_invoke (c : Call) (r : t) : settled r -> settled (invoke host c r).
Proof.
  intros H. destruct c; cbn [invoke].
  - exact (settled_restKept H (addRecord_restKept _ _ _ r)).
  - exact (settled_restKept H (processVoiceInput_restKept _ r)).
  - exact (settled_restKept H (deleteLastRecord_restKept r)).
  - unfold handleQuickRecord.
    destruct (currentSession r).
    + exact (settled_restKept H (addRecord_restKept _ _ _ r)).
    + exact (settled_restKept (settled_startTest H)
                              (addRecord_restKept _ _ _ (startTest host r))).
  - now apply settled_startTest.
  - now apply settled_pauseTest.
  - now apply settled_stopTest.
Qed.

(** X13: Whatever methods the page invokes, in whatever order, the controller
    comes to rest in a coherent state: the state is STOPPED or RECORDING
    (STARTING and PAUSING are never left behind), it is RECORDING exactly
    when the recording flag is set, the timer runs exactly then, the current
    session is then open with no end time, and every session in the history
    has an end time. *)
Theorem controller_settled_after_any_calls (cs : list Call) (r : t) :
  settled r -> settled (run host cs r).
Proof.
  unfold run. revert r.
  induction cs as [| c cs IH]; intros r H; cbn [fold_left]; [exact H |].
  apply IH. now apply settled_invoke.
Qed.

End LifecycleFacts.

Lemma controller_settled_after_any_calls_witness :
  Frame.settled Recorder.constructor
  /\ Frame.settled
       (Recorder.run Page.ticking
          [Recorder.call_startTest; Recorder.call_pauseTest;
           Recorder.call_stopTest;
           Recorder.call_handleQuickRecord Classifier.SAFETY;
           Recorder.call_stopTest]
          Recorder.constructor).
Proof.
  assert (H : Frame.settled Recorder.constructor).
  { unfold Frame.settled. cbn. repeat split; auto; discriminate. }
  split; [exact H |].
  exact (@controller_settled_after_any_calls Page.ticking _ _ H).
Defined.

Section LifecycleEdges.

Import Classifier Recorder Frame.
Local Open Scope list_scope.
Local Open Scope Z_scope.

Variable host : Host.

Lemma stopAudioRecording_fields (r : t) :
  isRecording (stopAudioRecording r) = isRecording r
  /\ state (stopAudioRecording r) = state r
  /\ currentSession (stopAudioRecording r) = currentSession r
  /\ testSessions (stopAudioRecording r) = testSessions r
  /\ testData (stopAudioRecording r) = testData r
  /\ reads (stopAudioRecording r) = reads r
  /\ websocketOpen (stopAudioRecording r) = websocketOpen r
  /\ isRecordingAudio (stopAudioRecording r) = false.
Proof.
  unfold stopAudioRecording, sendFinishFrame, emit. cbn.
  destruct (websocketOpen r) eqn:Ew, (isTranscriptionStarted r); cbn;
    rewrite ?Ew; repeat split.
Qed.

Lemma isRecording_stopTest (r : t) : isRecording (stopTest host r) = false.
Proof.
  unfold stopTest. destruct (isRecording r) eqn:E; cbn [negb]; [| exact E].
  unfold stopTimer, sealCurrentSession, stopAudioRecording, sendFinishFrame,
    getCurrentSessionRecords, readClock, emit. cbn.
  destruct (timerInterval r); cbn; destruct (currentSession r); cbn;
    destruct (websocketOpen r), (isTranscriptionStarted r); reflexivity.
Qed.

Lemma isRecording_pauseTest (r : t) :
  pauseTest r = r \/ isRecording (pauseTest r) = false.
Proof.
  unfold pauseTest.
  destruct (negb (isRecording r) || negb (STATES_eqb (state r) RECORDING));
    [now left | right].
  unfold stopTimer, stopAudioRecording, sendFinishFrame, emit. cbn.
  destruct (timerInterval r); cbn;
    destruct (websocketOpen r), (isTranscriptionStarted r); reflexivity.
Qed.

Lemma stopsSent_app (l1 l2 : list Effect) :
  stopsSent (l1 ++ l2) = (stopsSent l1 + stopsSent l2)%nat.
Proof. unfold stopsSent. now rewrite filter_app, length_app. Qed.

(** X14: Stopping twice is stopping once: a second [stopTest] right after the
    first returns at its guard, so the session is sealed and pushed once;
    the same holds for [pauseTest]; and a second [stopAudioRecording] sends
    no second StopTranscription message. *)
Theorem stopping_twice_is_stopping_once (r : t) :
  stopTest host (stopTest host r) = stopTest host r
  /\ pauseTest (pauseTest r) = pauseTest r
  /\ stopsSent (effects (stopAudioRecording (stopAudioRecording r)))
     = stopsSent (effects (stopAudioRecording r))
  /\ (stopsSent (effects (stopTest host r)) <= S (stopsSent (effects r)))%nat.
Proof.
  split; [| split; [| split]].
  - unfold stopTest at 1. now rewrite isRecording_stopTest.
  - destruct (isRecording_pauseTest r) as [E | E]; [now rewrite !E |].
    unfold pauseTest at 1. now rewrite E.
  - unfold stopAudioRecording, sendFinishFrame, emit. cbn.
    destruct (websocketOpen r) eqn:Ew, (isTranscriptionStarted r) eqn:Et;
      cbn; rewrite ?Ew, ?Et; cbn;
      unfold stopsSent; rewrite ?filter_app, ?length_app; cbn; lia.
  - unfold stopTest. destruct (isRecording r); cbn [negb]; [| lia].
    unfold stopTimer, sealCurrentSession, stopAudioRecording, sendFinishFrame,
      getCurrentSessionRecords, readClock, emit. cbn.
    destruct (timerInterval r); cbn; destruct (currentSession r); cbn;
      destruct (websocketOpen r), (isTranscriptionStarted r); cbn;
      unfold stopsSent; rewrite ?filter_app, ?length_app; cbn; lia.
Qed.

Lemma pauseTest_while_recording (r : t) :
  isRecording r = true ->
  state r = RECORDING ->
  isRecording (pauseTest r) = false
  /\ state (pauseTest r) = STOPPED
  /\ currentSession (pauseTest r) = currentSession r
  /\ testSessions (pauseTest r) = testSessions r
  /\ testData (pauseTest r) = testData r
  /\ reads (pauseTest r) = reads r.
Proof.
  intros Hrec Hst. unfold pauseTest. rewrite Hrec, Hst.
  cbn [STATES_eqb negb orb].
  unfold stopTimer, stopAudioRecording, sendFinishFrame, emit.
  cbn. destruct (timerInterval r); cbn;
    destruct (websocketOpen r), (isTranscriptionStarted r);
    cbn; repeat split.
Qed.

(** X15: A paused test cannot be resumed: [startTest] after [pauseTest] opens a
    new session with a new id and drops the paused one, which is never put
    into the history; its records stay in the store.  The [stopTest] that
    follows seals the new session only. *)
Theorem pause_then_start_abandons_session (r : t) (s : TestSession.t) :
  isRecording r = true ->
  state r = RECORDING ->
  currentSession r = Some s ->
  let r1 := startTest host (pauseTest r) in
  currentSession r1
  = Some (TestSession.mk (Date_now host (reads r))
                         (sessionNameOf host (Date_now host (1 + reads r)))
                         (Date_now host (2 + reads r)) None 0)
  /\ testSessions r1 = testSessions r
  /\ testData r1 = testData r
  /\ exists sealed,
      testSessions (stopTest host r1) = testSessions r ++ [sealed]
      /\ TestSession.id sealed = Date_now host (reads r)
      /\ TestSession.startTime sealed = Date_now host (2 + reads r).
Proof.
  intros Hrec Hst Hs. cbv zeta.
  destruct (pauseTest_while_recording r Hrec Hst)
    as (Hp1 & Hp2 & Hp3 & Hp4 & Hp5 & Hp6).
  destruct (startTest_when_stopped host (pauseTest r) Hp1 Hp2)
    as (Hc & Hr & _ & Hd & Hh).
  rewrite Hp6 in Hc. rewrite Hp5 in Hd. rewrite Hp4 in Hh.
  split; [exact Hc |]. split; [exact Hh |]. split; [exact Hd |].
  destruct (@stopTest_while_recording host _ _ Hr Hc) as (_ & Hpush & _).
  eexists. split; [rewrite Hpush, Hh; reflexivity |]. split; reflexivity.
Qed.

Lemma filter_other_sessions (id : Z) (l : list IssueRecord.t) :
  Forall (fun x => IssueRecord.sessionId x <> id) l ->
  filter (fun record => IssueRecord.sessionId record =? id) l = [].
Proof.
  induction 1 as [| x l Hx _ IH]; cbn; [reflexivity |].
  apply Z.eqb_neq in Hx. now rewrite Hx.
Qed.

(** X16: A quick record on a page with no session first starts a test: the
    record is stored in the session that call opens, with the label
    手动记录, and the controller is left recording. *)
Theorem quick_record_without_session_starts_test (typeText : jsstring) (r : t) :
  currentSession r = None ->
  isRecording r = false ->
  state r = STOPPED ->
  Forall (fun x => IssueRecord.sessionId x <> Date_now host (reads r))
         (testData r) ->
  let r' := handleQuickRecord host typeText r in
  isRecording r' = true
  /\ state r' = RECORDING
  /\ option_map TestSession.id (currentSession r') = Some (Date_now host (reads r))
  /\ testSessions r' = testSessions r
  /\ testData r'
     = testData r
       ++ [IssueRecord.mk (Date_now host (4 + reads r))
                          (Date_now host (5 + reads r))
                          typeText (js "手动记录")
                          (js "快速记录：" ++ typeText)
                          (Date_now host (reads r))
                          (sessionNameOf host (Date_now host (1 + reads r)))].
Proof.
  intros Hs Hrec Hst Hfresh. cbv zeta.
  unfold handleQuickRecord. rewrite Hs.
  destruct (startTest_when_stopped host r Hrec Hst)
    as (Hc & Hr & Hstate & Hd & Hh).
  assert (Hreads : reads (startTest host r) = (4 + reads r)%nat).
  { unfold startTest. rewrite Hrec, Hst. cbn [STATES_eqb negb orb].
    unfold startTimer, readClock, emit. cbn.
    destruct (configured r), (aliyunConnectionReady r); reflexivity. }
  assert (Hfind : find (similarRecent typeText (js "手动记录")
                          (Date_now host (reads (startTest host r))))
                       (getCurrentSessionRecords (startTest host r)) = None).
  { unfold getCurrentSessionRecords. rewrite Hc, Hd.
    cbn [TestSession.id].
    rewrite (@filter_other_sessions _ _ Hfresh). reflexivity. }
  rewrite (@addRecord_appends host _ _ _ _ _ Hc Hfind).
  cbn [isRecording state currentSession testSessions testData
       set_effects set_testData set_reads].
  unfold recordMade. rewrite Hr, Hstate, Hc, Hh, Hd, Hreads. repeat split.
Qed.

(** X17: After [stopTest] the stopped session is still the current one: a record
    added then (a late transcript, a quick record) is stored under the
    sealed session's id and no new test is started, while the session's
    entry in the history keeps the record count taken when it was sealed. *)
Theorem record_after_stop_joins_sealed_session
        (type subType originalText : jsstring) (r : t) (s : TestSession.t) :
  isRecording r = true ->
  currentSession r = Some s ->
  find (similarRecent type subType (Date_now host (S (reads r))))
       (getCurrentSessionRecords r) = None ->
  let r1 := stopTest host r in
  let r2 := addRecord host type subType originalText r1 in
  handleQuickRecord host type r1
  = addRecord host type (js "手动记录") (js "快速记录：" ++ type) r1
  /\ isRecording r2 = false
  /\ testSessions r2 = testSessions r1
  /\ (exists record,
        testData r2 = testData r ++ [record]
        /\ IssueRecord.sessionId record = TestSession.id s)
  /\ (exists sealed,
        last (testSessions r2) s = sealed
        /\ TestSession.id sealed = TestSession.id s
        /\ List.length (getCurrentSessionRecords r2)
           = S (TestSession.recordCount sealed)).
Proof.
  intros Hrec Hs Hfind. cbv zeta.
  destruct (@stopTest_while_recording host r s Hrec Hs)
    as (Hc & Hpush & Hd & Hr & _ & Hreads).
  assert (Hcur : getCurrentSessionRecords (stopTest host r)
                 = getCurrentSessionRecords r).
  { unfold getCurrentSessionRecords. now rewrite Hc, Hs, Hd. }
  assert (Hfind' : find (similarRecent type subType
                           (Date_now host (reads (stopTest host r))))
                        (getCurrentSessionRecords (stopTest host r)) = None)
    by now rewrite Hreads, Hcur.
  split; [unfold handleQuickRecord; now rewrite Hc |].
  rewrite (@addRecord_appends host _ _ originalText _ _ Hc Hfind').
  cbn [isRecording testSessions testData set_effects set_testData set_reads].
  split; [exact Hr |]. split; [reflexivity |]. split.
  - eexists. split; [rewrite Hd; reflexivity | reflexivity].
  - eexists. split; [reflexivity |].
    rewrite Hpush, last_last. split; [reflexivity |].
    cbn [TestSession.recordCount].
    unfold getCurrentSessionRecords.
    cbn [currentSession set_effects set_testData set_reads testData].
    rewrite Hc, Hd. cbn [TestSession.id].
    rewrite filter_app, length_app. cbn [filter recordMade IssueRecord.sessionId].
    rewrite Z.eqb_refl. cbn [List.length]. lia.
Qed.

End LifecycleEdges.

Section LifecycleWitnesses.

Import Classifier Recorder Frame.
Local Open Scope list_scope.
Local Open Scope Z_scope.

Lemma pause_then_start_abandons_session_witness :
  option_map TestSession.id
             (currentSession (startTest Page.ticking
                                        (pauseTest (Page.recording Page.ticking))))
  = Some 1700000004000
  /\ testSessions (startTest Page.ticking
                             (pauseTest (Page.recording Page.ticking))) = [].
Proof.
  destruct (@pause_then_start_abandons_session
              Page.ticking (Page.recording Page.ticking)
              (TestSession.mk 1700000000000 (js "测试_20231114_221320")
                              1700000002000 None 0))
    as (Hc & Hh & _).
  - vm_compute. reflexivity.
  - vm_compute. reflexivity.
  - vm_compute. reflexivity.
  - rewrite Hc, Hh. split; vm_compute; reflexivity.
Defined.

Lemma quick_record_without_session_starts_test_witness :
  isRecording (handleQuickRecord Page.ticking SAFETY constructor) = true
  /\ map IssueRecord.sessionId
         (testData (handleQuickRecord Page.ticking SAFETY constructor))
     = [1700000000000].
Proof.
  destruct (@quick_record_without_session_starts_test
              Page.ticking SAFETY constructor)
    as (Hr & _ & _ & _ & Hd).
  - reflexivity.
  - reflexivity.
  - reflexivity.
  - constructor.
  - rewrite Hr, Hd. split; vm_compute; reflexivity.
Defined.

Lemma record_after_stop_joins_sealed_session_witness :
  map IssueRecord.sessionId
      (testData (addRecord Page.ticking EFFICIENCY Page.lane Page.lane
                           (stopTest Page.ticking
                                     (Page.afterOneRecord Page.ticking))))
  = [1700000000000; 1700000000000]
  /\ map TestSession.recordCount
         (testSessions (addRecord Page.ticking EFFICIENCY Page.lane Page.lane
                                  (stopTest Page.ticking
                                            (Page.afterOneRecord Page.ticking))))
     = [1%nat].
Proof.
  destruct (@record_after_stop_joins_sealed_session
              Page.ticking EFFICIENCY Page.lane Page.lane
              (Page.afterOneRecord Page.ticking)
              (TestSession.mk 1700000000000 (js "测试_20231114_221320")
                              1700000002000 None 0))
    as (_ & _ & Hh & (record & Hd & Hid) & _).
  - vm_compute. reflexivity.
  - vm_compute. reflexivity.
  - vm_compute. reflexivity.
  - rewrite Hd, Hh, map_app. cbn [map]. rewrite Hid.
    split; vm_compute; reflexivity.
Defined.

End LifecycleWitnesses.

Section HistoryFacts.

Import Classifier Recorder History.
Local Open Scope list_scope.
Local Open Scope nat_scope.

Lemma fold_count (l : list IssueRecord.t) (stats : Stats) :
  fold_left count l stats
  = {| total := total stats;
       experience := experience stats + ofType EXPERIENCE l;
       safety := safety stats + ofType SAFETY l;
       efficiency := efficiency stats + ofType EFFICIENCY l |}.
Proof.
  revert stats. unfold ofType.
  induction l as [| x l IH]; intros stats; cbn [fold_left filter List.length].
  - destruct stats; cbn. now rewrite !Nat.add_0_r.
  - rewrite IH. unfold count.
    change (js "体验问题") with EXPERIENCE.
    change (js "安全接管") with SAFETY.
    change (js "效率接管") with EFFICIENCY.
    destruct (strictEq (IssueRecord.type x) EXPERIENCE) eqn:E1.
    { apply strictEq_eq in E1. rewrite E1.
      change (strictEq EXPERIENCE SAFETY) with false.
      change (strictEq EXPERIENCE EFFICIENCY) with false.
      cbn [total experience safety efficiency List.length].
      f_equal; lia. }
    destruct (strictEq (IssueRecord.type x) SAFETY) eqn:E2.
    { apply strictEq_eq in E2. rewrite E2.
      change (strictEq SAFETY EFFICIENCY) with false.
      cbn [total experience safety efficiency List.length].
      f_equal; lia. }
    destruct (strictEq (IssueRecord.type x) EFFICIENCY) eqn:E3;
      cbn [total experience safety efficiency List.length];
      f_equal; lia.
Qed.

Lemma ofType_sum (l : list IssueRecord.t) :
  (ofType EXPERIENCE l + ofType SAFETY l + ofType EFFICIENCY l
   <= List.length l)%nat
  /\ (ofType EXPERIENCE l + ofType SAFETY l + ofType EFFICIENCY l
      = List.length l
      <-> Forall (fun record =>
                    In (IssueRecord.type record) [EXPERIENCE; SAFETY; EFFICIENCY])
                 l).
Proof.
  unfold ofType.
  induction l as [| x l [IH1 IH2]]; cbn [filter List.length].
  - split; [lia |]. split; [constructor | reflexivity].
  - assert (Hx : (strictEq (IssueRecord.type x) EXPERIENCE = true
                  /\ strictEq (IssueRecord.type x) SAFETY = false
                  /\ strictEq (IssueRecord.type x) EFFICIENCY = false)
                 \/ (strictEq (IssueRecord.type x) EXPERIENCE = false
                     /\ strictEq (IssueRecord.type x) SAFETY = true
                     /\ strictEq (IssueRecord.type x) EFFICIENCY = false)
                 \/ (strictEq (IssueRecord.type x) EXPERIENCE = false
                     /\ strictEq (IssueRecord.type x) SAFETY = false
                     /\ strictEq (IssueRecord.type x) EFFICIENCY = true)
                 \/ (strictEq (IssueRecord.type x) EXPERIENCE = false
                     /\ strictEq (IssueRecord.type x) SAFETY = false
                     /\ strictEq (IssueRecord.type x) EFFICIENCY = false)).
    { destruct (strictEq (IssueRecord.type x) EXPERIENCE) eqn:E1.
      { apply strictEq_eq in E1. rewrite E1. left. now repeat split. }
      destruct (strictEq (IssueRecord.type x) SAFETY) eqn:E2.
      { apply strictEq_eq in E2. rewrite E2. right. left. now repeat split. }
      destruct (strictEq (IssueRecord.type x) EFFICIENCY) eqn:E3; tauto. }
    assert (Hin : In (IssueRecord.type x) [EXPERIENCE; SAFETY; EFFICIENCY]
                  <-> strictEq (IssueRecord.type x) EXPERIENCE = true
                      \/ strictEq (IssueRecord.type x) SAFETY = true
                      \/ strictEq (IssueRecord.type x) EFFICIENCY = true).
    { cbn [In]. rewrite !strictEq_eq. intuition congruence. }
    rewrite Forall_cons_iff, Hin.
    destruct Hx as [(-> & -> & ->) | [(-> & -> & ->) | [(-> & -> & ->)
                                                       | (-> & -> & ->)]]];
      cbn [List.length]; (split; [lia |]).
    1-3: split; [intros H; split; [tauto | apply IH2; lia]
                | intros [_ H]; apply IH2 in H; lia].
    split; [intros H; lia | intros [[H | [H | H]] _]; discriminate].
Qed.

(** X18: The statistics panel counts the records of the current session by
    label: each of the three counters is the number of records with that
    label, their sum never exceeds the total, and it equals the total
    exactly when every record of the session has one of the three labels
    (a quick record with an unknown button type has an empty label and is
    counted in the total only). *)
Theorem calculateStatistics_counts_by_label (r : t) :
  total (calculateStatistics r) = List.length (getCurrentSessionRecords r)
  /\ experience (calculateStatistics r)
     = ofType EXPERIENCE (getCurrentSessionRecords r)
  /\ safety (calculateStatistics r)
     = ofType SAFETY (getCurrentSessionRecords r)
  /\ efficiency (calculateStatistics r)
     = ofType EFFICIENCY (getCurrentSessionRecords r)
  /\ experience (calculateStatistics r) + safety (calculateStatistics r)
     + efficiency (calculateStatistics r) <= total (calculateStatistics r)
  /\ (experience (calculateStatistics r) + safety (calculateStatistics r)
      + efficiency (calculateStatistics r) = total (calculateStatistics r)
      <-> Forall (fun record =>
                    In (IssueRecord.type record) [EXPERIENCE; SAFETY; EFFICIENCY])
                 (getCurrentSessionRecords r))
  /\ (forall s, currentSession r = Some s ->
                experience (getSessionStatistics (TestSession.id s) r)
                = experience (calculateStatistics r)
                /\ safety (getSessionStatistics (TestSession.id s) r)
                   = safety (calculateStatistics r)
                /\ efficiency (getSessionStatistics (TestSession.id s) r)
                   = efficiency (calculateStatistics r)).
Proof.
  unfold calculateStatistics, getSessionStatistics.
  rewrite fold_count. cbn [total experience safety efficiency].
  destruct (ofType_sum (getCurrentSessionRecords r)) as [Hle Hiff].
  repeat split; try reflexivity; try exact Hle; try apply Hiff.
  all: rewrite fold_count; unfold getCurrentSessionRecords; rewrite H;
    reflexivity.
Qed.

Lemma filter_all {A : Type} (f : A -> bool) (l : list A) :
  (forall x, f x = true) -> filter f l = l.
Proof.
  intros H. induction l as [| x l IH]; cbn; [reflexivity |].
  now rewrite H, IH.
Qed.

Lemma filter_filter_other {A : Type} (key : A -> Z) (m n : Z) (l : list A) :
  m <> n ->
  filter (fun x => (key x =? m)%Z)
         (filter (fun x => negb (key x =? n)%Z) l)
  = filter (fun x => (key x =? m)%Z) l.
Proof.
  intros Hmn. induction l as [| x l IH]; cbn; [reflexivity |].
  destruct (Z.eqb_spec (key x) n) as [En | En]; cbn.
  - destruct (Z.eqb_spec (key x) m) as [Em | Em]; [congruence | exact IH].
  - now rewrite IH.
Qed.

(** X19: The delete button of the history list removes nothing.  The handler
    passes the [data-session-id] attribute, a string, and [deleteSession]
    compares it with [!==] to the numeric ids: every session and every
    record is kept, whatever the attribute holds, and after a confirmed
    dialog the data is saved again and the page still announces the
    deletion. *)
Theorem history_delete_button_removes_nothing
        (confirmed : bool) (attribute : jsstring) (r : t) :
  testSessions (fst (handleHistoryDelete confirmed attribute r)) = testSessions r
  /\ testData (fst (handleHistoryDelete confirmed attribute r)) = testData r
  /\ snd (handleHistoryDelete confirmed attribute r)
     = (if confirmed then [SessionDeleted] else [])
  /\ effects (fst (handleHistoryDelete confirmed attribute r))
     = effects r ++ (if confirmed then [saveData; saveSessionData; updateUI]
                     else []).
Proof.
  unfold handleHistoryDelete, deleteSession.
  destruct confirmed; cbn [negb fst snd].
  - unfold emit.
    cbn [testSessions testData effects set_effects set_testData
         set_testSessions strictEqId negb].
    rewrite !filter_all by reflexivity.
    rewrite <- !app_assoc. now repeat split.
  - rewrite app_nil_r. now repeat split.
Qed.

(** X20: [deleteSession] called with the numeric id of a session removes that
    session and its records and nothing else: no session and no record with
    that id is left, the sessions and the counters of every other id are as
    before.  The current session is not touched, also when it is the one
    deleted.  A declined dialog changes nothing. *)
Theorem deleteSession_removes_one_session (n : Z) (r : t) :
  Forall (fun s => TestSession.id s <> n)
         (testSessions (fst (deleteSession true (JsNumber n) r)))
  /\ Forall (fun record => IssueRecord.sessionId record <> n)
            (testData (fst (deleteSession true (JsNumber n) r)))
  /\ (forall m, m <> n ->
        filter (fun s => (TestSession.id s =? m)%Z)
               (testSessions (fst (deleteSession true (JsNumber n) r)))
        = filter (fun s => (TestSession.id s =? m)%Z) (testSessions r)
        /\ getSessionStatistics m (fst (deleteSession true (JsNumber n) r))
           = getSessionStatistics m r)
  /\ currentSession (fst (deleteSession true (JsNumber n) r)) = currentSession r
  /\ deleteSession false (JsNumber n) r = (r, []).
Proof.
  unfold deleteSession, getSessionStatistics, emit.
  cbn [negb fst testSessions testData currentSession set_effects set_testData
       set_testSessions strictEqId].
  split; [| split; [| split; [| split; reflexivity]]].
  - apply Forall_forall. intros s Hs. apply filter_In in Hs.
    destruct Hs as [_ Hs]. apply negb_true_iff, Z.eqb_neq in Hs. exact Hs.
  - apply Forall_forall. intros x Hx. apply filter_In in Hx.
    destruct Hx as [_ Hx]. apply negb_true_iff, Z.eqb_neq in Hx. exact Hx.
  - intros m Hmn. split.
    + now apply (@filter_filter_other _ TestSession.id).
    + now rewrite (@filter_filter_other _ IssueRecord.sessionId m n _ Hmn).
Qed.

(** X21: The duration shown for a sealed session splits the whole seconds of
    end - start into hours, minutes below 60 and seconds below 60; the text
    leaves out the hours below one hour and the minutes below one minute. *)
Theorem calculateSessionDuration_splits_whole_seconds
        (session : TestSession.t) (ended : Z) :
  TestSession.endTime session = Some ended ->
  (TestSession.startTime session <= ended)%Z ->
  let diff := (ended - TestSession.startTime session)%Z in
  (3600 * hours diff + 60 * minutes diff + seconds diff = diff / 1000)%Z
  /\ (0 <= hours diff)%Z
  /\ (0 <= minutes diff < 60)%Z
  /\ (0 <= seconds diff < 60)%Z
  /\ ((diff < 60000)%Z ->
      calculateSessionDuration session = decimal (diff / 1000) ++ js "s")
  /\ ((60000 <= diff < 3600000)%Z ->
      calculateSessionDuration session
      = decimal (diff / 60000) ++ js "m " ++ decimal (seconds diff) ++ js "s")
  /\ ((3600000 <= diff)%Z ->
      calculateSessionDuration session
      = decimal (hours diff) ++ js "h " ++ decimal (minutes diff) ++ js "m "
                ++ decimal (seconds diff) ++ js "s").
Proof.
  intros Hend Hle. cbv zeta.
  set (diff := (ended - TestSession.startTime session)%Z).
  assert (Hd : (0 <= diff)%Z) by (unfold diff; lia).
  assert (Hh : hours diff = (diff / 3600000)%Z) by reflexivity.
  assert (Hm : minutes diff = (diff mod 3600000 / 60000)%Z).
  { unfold minutes. now rewrite Z.rem_mod_nonneg by lia. }
  assert (Hs : seconds diff = (diff mod 60000 / 1000)%Z).
  { unfold seconds. now rewrite Z.rem_mod_nonneg by lia. }
  assert (A : (3600 * hours diff + 60 * minutes diff + seconds diff
               = diff / 1000)%Z
              /\ (0 <= hours diff)%Z
              /\ (0 <= minutes diff < 60)%Z
              /\ (0 <= seconds diff < 60)%Z
              /\ ((diff < 60000)%Z ->
                  hours diff = 0%Z /\ minutes diff = 0%Z
                  /\ seconds diff = (diff / 1000)%Z)
              /\ ((60000 <= diff < 3600000)%Z ->
                  hours diff = 0%Z /\ (0 < minutes diff)%Z
                  /\ minutes diff = (diff / 60000)%Z)
              /\ ((3600000 <= diff)%Z -> (0 < hours diff)%Z)).
  { rewrite Hh, Hm, Hs. clearbody diff. clear Hh Hm Hs Hend Hle.
    Z.div_mod_to_equations. lia. }
  destruct A as (A1 & A2 & A3 & A4 & A5 & A6 & A7).
  split; [exact A1 |]. split; [exact A2 |]. split; [exact A3 |].
  split; [exact A4 |].
  unfold calculateSessionDuration. rewrite Hend. fold diff.
  split; [| split].
  - intros H. destruct (A5 H) as (E1 & E2 & E3).
    rewrite E1, E2, E3. reflexivity.
  - intros H. destruct (A6 H) as (E1 & E2 & E3).
    rewrite E1. cbn [Z.gtb Z.compare].
    destruct (Z.gtb_spec (minutes diff) 0) as [_ | G]; [| lia].
    now rewrite E3.
  - intros H. specialize (A7 H).
    destruct (Z.gtb_spec (hours diff) 0) as [_ | G]; [reflexivity | lia].
Qed.

End HistoryFacts.

Section InboundFacts.

Import Classifier Recorder Frame Inbound.
Local Open Scope list_scope.
Local Open Scope Z_scope.

Variable host : Host.

(** X22: Of all the messages of the recognition service only a SentenceEnd event
    with a success status reaches the classifier.  Whatever arrives, the
    sessions and the recording flags stay as they are; and if the store has
    changed, the message was such a SentenceEnd and the controller is the
    one [processVoiceInput] leaves for its result, called after
    [displaySubtitle].  An error status shows one text and nothing else
    happens, whatever the event name. *)
Theorem only_final_transcripts_reach_the_store (m : Message) (r : t) :
  controlKept r (fst (handleAliyunWebSocketMessage host m r))
  /\ (testData (fst (handleAliyunWebSocketMessage host m r)) <> testData r ->
      exists status status_text result,
        m = Envelope status status_text (js "SentenceEnd") result
        /\ (status = 0 \/ status = 20000000)
        /\ fst (handleAliyunWebSocketMessage host m r)
           = processVoiceInput host result (emit (displaySubtitle result) r))
  /\ (forall status status_text name result,
        m = Envelope status status_text name result ->
        status <> 0 -> status <> 20000000 ->
        handleAliyunWebSocketMessage host m r
        = (r, [errorText status status_text])).
Proof.
  destruct m as [| status status_text name result];
    cbn [handleAliyunWebSocketMessage].
  { split; [apply controlKept_refl |]. split.
    - cbn [fst]. intros H; now elim H.
    - intros ? ? ? ? H. discriminate H. }
  split; [| split].
  - destruct (negb (status =? 0) && negb (status =? 20000000));
      [apply controlKept_refl |].
    destruct (strictEq name (js "TranscriptionStarted"));
      [apply controlKept_refl |].
    destruct (strictEq name (js "TranscriptionResultChanged"));
      [now repeat split |].
    destruct (strictEq name (js "SentenceEnd")).
    + cbn [fst].
      apply (@controlKept_trans _ (emit (displaySubtitle result) r));
        [now repeat split |].
      apply (@processVoiceInput_restKept host result _).
    + destruct (strictEq name (js "TranscriptionCompleted"));
        apply controlKept_refl.
  - destruct (negb (status =? 0) && negb (status =? 20000000)) eqn:Es;
      [cbn [fst]; intros H; now elim H |].
    destruct (strictEq name (js "TranscriptionStarted"));
      [cbn [fst]; intros H; now elim H |].
    destruct (strictEq name (js "TranscriptionResultChanged"));
      [cbn [fst]; intros H; now elim H |].
    destruct (strictEq name (js "SentenceEnd")) eqn:En.
    + intros _. exists status, status_text, result.
      apply strictEq_eq in En. subst name.
      split; [reflexivity |]. split; [| reflexivity].
      apply andb_false_iff in Es.
      destruct Es as [Es | Es]; apply negb_false_iff, Z.eqb_eq in Es; tauto.
    + destruct (strictEq name (js "TranscriptionCompleted"));
        cbn [fst]; intros H; now elim H.
  - intros status' status_text' name' result' E H0 H1.
    injection E as <- <- <- <-.
    apply Z.eqb_neq in H0, H1. now rewrite H0, H1.
Qed.

End InboundFacts.

Section RetryBudget.

Import Recorder.
Local Open Scope list_scope.
Local Open Scope Z_scope.

(** X23: A successful open gives the full retry budget back: the closes that
    follow it and lead to a reconnection (an abnormal close, or a
    connection-limit close once its deferred callback fires) schedule
    attempts after 2000, 4000 and 6000 ms, and each further one reports the
    terminal failure, however many attempts were used up before the open. *)
Theorem open_restores_retry_budget (r : t) (evs : list CloseEvent) :
  Forall (fun ev => retryingClose ev = true) evs ->
  reconnectDelays (effects (closesAndFire evs (websocket_onopen r)))
  = reconnectDelays (effects r) ++ firstn (List.length evs) [2000; 4000; 6000]
  /\ failuresReported (effects (closesAndFire evs (websocket_onopen r)))
     = (failuresReported (effects r) + (List.length evs - 3))%nat.
Proof.
  intros Hall.
  destruct (@retrying_closes_capped_at_three
              (websocket_onopen r) evs (onopen_resets_attempts r) Hall)
    as [Hd Hf].
  rewrite Hd, Hf.
  assert (E : reconnectDelays (effects (websocket_onopen r))
              = reconnectDelays (effects r)
              /\ failuresReported (effects (websocket_onopen r))
                 = failuresReported (effects r)).
  { unfold websocket_onopen, sendStartMessage, emit,
      reconnectDelays, failuresReported.
    cbn. rewrite ?flat_map_app, ?filter_app, ?length_app. cbn.
    rewrite ?app_nil_r, ?Nat.add_0_r. now split. }
  destruct E as [-> ->]. now split.
Qed.

(** X24: Only two kinds of close end the retries: the authentication failure
    4402, and the normal close 1000 whose reason does not name the
    connection limit.  Such a close shows one text, schedules no timer and
    leaves the attempt counter alone. *)
Theorem terminal_close_schedules_nothing (ev : CloseEvent) (r : t) :
  retryingClose ev = false ->
  (fst ev = 4402 \/ fst ev = 1000)
  /\ wsReconnectAttempts (websocket_onclose (fst ev) (snd ev) r)
     = wsReconnectAttempts r
  /\ aliyunConnectionReady (websocket_onclose (fst ev) (snd ev) r) = false
  /\ exists d,
      effects (websocket_onclose (fst ev) (snd ev) r)
      = effects r ++ [showDebugInfo d]
      /\ (d = AuthFailed \/ d = ConnectionClosed).
Proof.
  unfold retryingClose, abnormalClose, limitClose, websocket_onclose.
  destruct ev as [code reason]. cbn [fst snd].
  destruct (Z.eqb_spec code 4402) as [E1 | E1]; cbn [negb andb orb].
  { intros _. split; [now left |]. split; [reflexivity |].
    split; [reflexivity |]. exists AuthFailed. split; [reflexivity | now left]. }
  destruct ((code =? 1006) || includes reason (js "over max connect limit"));
    cbn [negb andb orb]; [discriminate |].
  destruct (Z.eqb_spec code 1000) as [E2 | E2]; cbn [negb]; [| discriminate].
  intros _. split; [now right |]. split; [reflexivity |].
  split; [reflexivity |]. exists ConnectionClosed.
  split; [reflexivity | now right].
Qed.

Lemma open_restores_retry_budget_witness :
  reconnectDelays
    (effects (closesAndFire
                [(1011, js "internal error"); (1006, []);
                 (1000, js "over max connect limit"); (1011, [])]
                (websocket_onopen
                   (closesAndFire [(1011, []); (1011, [])] constructor))))
  = [2000; 4000; 2000; 4000; 6000].
Proof.
  destruct (@open_restores_retry_budget
              (closesAndFire [(1011, []); (1011, [])] constructor)
              [(1011, js "internal error"); (1006, []);
               (1000, js "over max connect limit"); (1011, [])])
    as [Hd _].
  - repeat constructor.
  - rewrite Hd. vm_compute. reflexivity.
Defined.

Lemma terminal_close_schedules_nothing_witness :
  effects (websocket_onclose 1000 (js "bye") constructor)
  = [showDebugInfo ConnectionClosed].
Proof.
  destruct (@terminal_close_schedules_nothing
              (1000, js "bye") constructor)
    as (_ & _ & _ & d & Hd & _).
  - vm_compute. reflexivity.
  - vm_compute. reflexivity.
Defined.

End RetryBudget.

Section FurtherWitnesses.

Import Classifier Recorder History.
Local Open Scope list_scope.
Local Open Scope Z_scope.

Lemma calculateSessionDuration_splits_whole_seconds_witness :
  calculateSessionDuration
    (TestSession.mk 1700000000000 [] 1700000000000 (Some 1700003725999) 0)
  = js "1h 2m 5s".
Proof.
  destruct (@calculateSessionDuration_splits_whole_seconds
              (TestSession.mk 1700000000000 [] 1700000000000
                              (Some 1700003725999) 0)
              1700003725999)
    as (_ & _ & _ & _ & _ & _ & H).
  - reflexivity.
  - cbn. lia.
  - rewrite H; [vm_compute; reflexivity | cbn; lia].
Defined.

End FurtherWitnesses.

Section GateFacts.

Import Classifier Recorder Frame History.
Local Open Scope list_scope.
Local Open Scope Z_scope.

Lemma feed_idle (blocks : list (list Pcm.float)) (r : t) :
  websocketOpen r && isRecordingAudio r = false -> feed blocks r = r.
Proof.
  intros H. unfold feed.
  induction blocks as [| block blocks IH]; cbn [fold_left]; [reflexivity |].
  unfold onaudioprocess at 2. now rewrite H.
Qed.

Lemma feed_flowing (blocks : list (list Pcm.float)) (r : t) :
  websocketOpen r = true ->
  isRecordingAudio r = true ->
  feed blocks r
  = set_effects
      (effects r
       ++ map (fun block => websocket_send (PcmBlock (Pcm.pcm16Block block)))
              blocks) r.
Proof.
  unfold feed. revert r.
  induction blocks as [| b bs IH]; intros x Hx1 Hx2; cbn [fold_left map].
  - rewrite app_nil_r. now destruct x.
  - unfold onaudioprocess at 2. rewrite Hx1, Hx2. cbn [andb].
    rewrite IH; [| exact Hx1 | exact Hx2].
    unfold emit. cbn [effects set_effects]. rewrite <- app_assoc.
    now destruct x.
Qed.

(** X25: Audio leaves the page only while the socket is open and the audio flag
    is set: then every block the script processor delivers is sent as one
    frame, in order, and nothing else changes; otherwise the blocks are
    dropped.  After [stopAudioRecording] nothing is sent, however long the
    processor keeps firing. *)
Theorem audio_sent_only_while_recording_with_open_socket
        (blocks : list (list Pcm.float)) (r : t) :
  feed blocks r
  = (if websocketOpen r && isRecordingAudio r
     then set_effects
            (effects r
             ++ map (fun block =>
                       websocket_send (PcmBlock (Pcm.pcm16Block block))) blocks)
            r
     else r)
  /\ feed blocks (stopAudioRecording r) = stopAudioRecording r.
Proof.
  split.
  - destruct (websocketOpen r && isRecordingAudio r) eqn:E.
    + apply andb_true_iff in E. destruct E as [E1 E2].
      now apply feed_flowing.
    + now apply feed_idle.
  - apply feed_idle.
    destruct (stopAudioRecording_fields r) as (_ & _ & _ & _ & _ & _ & _ & ->).
    apply andb_false_r.
Qed.

Lemma padStart2_length (n : Z) :
  0 <= n < 100 -> List.length (padStart2 (decimal n)) = 2%nat.
Proof.
  intros Hn.
  assert (Hall : forallb (fun k => Nat.eqb (List.length
                                              (padStart2 (decimal (Z.of_nat k))))
                                           2)
                         (seq 0 100) = true) by (vm_compute; reflexivity).
  rewrite forallb_forall in Hall.
  specialize (Hall (Z.to_nat n)).
  rewrite Z2Nat.id in Hall by lia.
  apply Nat.eqb_eq, Hall, in_seq. lia.
Qed.

Lemma padStart2_at_least (s : jsstring) :
  (2 <= List.length (padStart2 s))%nat.
Proof.
  unfold padStart2. rewrite length_app.
  destruct s as [| a [| b s]]; cbn; lia.
Qed.

(** X26: The running timer shows hours, minutes and seconds of the time since
    [startTest], separated by colons, minutes and seconds always as two
    digits, hours as two digits below 100 hours and never fewer; together
    they are the whole seconds elapsed. *)
Theorem updateTimer_shows_two_digit_fields
        (host : Host) (r : t) (started : Z) :
  startTime r = Some started ->
  started <> 0 ->
  started <= Date_now host (reads r) ->
  exists hh mm ss,
    fst (updateTimer host r) = Some (hh ++ js ":" ++ mm ++ js ":" ++ ss)
    /\ hh = padStart2 (decimal (hours (Date_now host (reads r) - started)))
    /\ mm = padStart2 (decimal (minutes (Date_now host (reads r) - started)))
    /\ ss = padStart2 (decimal (seconds (Date_now host (reads r) - started)))
    /\ List.length mm = 2%nat
    /\ List.length ss = 2%nat
    /\ (2 <= List.length hh)%nat
    /\ (Date_now host (reads r) - started < 360000000 ->
        List.length (hh ++ js ":" ++ mm ++ js ":" ++ ss) = 8%nat)
    /\ 3600 * hours (Date_now host (reads r) - started)
       + 60 * minutes (Date_now host (reads r) - started)
       + seconds (Date_now host (reads r) - started)
       = (Date_now host (reads r) - started) / 1000.
Proof.
  intros Hst Hnz Hle.
  set (elapsed := Date_now host (reads r) - started).
  assert (Hd : 0 <= elapsed) by (unfold elapsed; lia).
  assert (A : 0 <= minutes elapsed < 60
              /\ 0 <= seconds elapsed < 60
              /\ (elapsed < 360000000 -> 0 <= hours elapsed < 100)
              /\ 3600 * hours elapsed + 60 * minutes elapsed + seconds elapsed
                 = elapsed / 1000).
  { unfold hours, minutes, seconds.
    rewrite !Z.rem_mod_nonneg by lia.
    clearbody elapsed. clear Hst Hnz Hle.
    Z.div_mod_to_equations. lia. }
  destruct A as (Am & As & Ah & Asum).
  exists (padStart2 (decimal (hours elapsed))),
         (padStart2 (decimal (minutes elapsed))),
         (padStart2 (decimal (seconds elapsed))).
  split.
  { unfold updateTimer. rewrite Hst.
    apply Z.eqb_neq in Hnz. rewrite Hnz. reflexivity. }
  split; [reflexivity |]. split; [reflexivity |]. split; [reflexivity |].
  split; [apply padStart2_length; lia |].
  split; [apply padStart2_length; lia |].
  split; [apply padStart2_at_least |].
  split; [| exact Asum].
  intros Hlt. rewrite !length_app.
  rewrite !padStart2_length by first [exact (Ah Hlt) | lia].
  reflexivity.
Qed.

Lemma updateTimer_shows_two_digit_fields_witness :
  fst (updateTimer Page.ticking (Page.recording Page.ticking))
  = Some (js "00:00:01").
Proof.
  destruct (@updateTimer_shows_two_digit_fields
              Page.ticking (Page.recording Page.ticking) 1700000003000)
    as (hh & mm & ss & H & -> & -> & -> & _).
  - vm_compute. reflexivity.
  - discriminate.
  - vm_compute. discriminate.
  - rewrite H. vm_compute. reflexivity.
Defined.

End GateFacts.
